(** * ScreenCap Pro: region selector, recording worker and orchestrator

    A shallow embedding of the screen-capture pipeline:
    - [Js]: the handful of JavaScript number operations the code relies on;
    - [Main]: the Electron main process (electron/main.ts): still-image
      crop and output, container finalisation and transcoding;
    - [Selector]: the overlay component (RegionSelector.tsx);
    - [Worker]: the resident recording component (BackgroundRecorder.tsx).

    JavaScript numbers are IEEE-754 doubles.  A finite double is modelled by
    the rational [Q] it stands for; a product or a quotient the handlers
    compute is the exact result rounded to the nearest double ([Js.mul],
    [Js.div], through [Js.fl]).  Overflow is not modelled: every number the
    handlers compute with is a pixel coordinate, a pixel size, a scale
    factor or a product or quotient of two of them. *)

From Stdlib Require Import ZArith QArith Qround Qabs Qpower Lqa String Ascii List Lia.
From Stdlib Require Import DecimalString DecimalNat DecimalFacts.
From stdpp Require Import gmap strings list.

Local Open Scope Z_scope.

(* ===================================================================== *)
(** ** JavaScript number primitives *)
(* ===================================================================== *)

Module Js.

(** [Math.round]: the closest integer, a tie going towards +infinity. *)
Definition Math_round (q : Q) : Z := Qfloor (q + (1 # 2)).

(** [2 ^ e] *)
Definition pow2 (e : Z) : Q := Qpower 2 e.

(** The exponent of a positive number: the [e] with [2^e <= q < 2^(e+1)]. *)
Definition floor_log2 (q : Q) : Z :=
  let k := Z.log2 (Qnum q) - Z.log2 (Zpos (Qden q)) in
  if Qle_bool (pow2 k) q then k else k - 1.

(** The integer nearest to [r], the even one of the two when [r] is half-way. *)
Definition round_half_even (r : Q) : Z :=
  let f := Qfloor r in
  match Qcompare (r - inject_Z f) (1 # 2) with
  | Lt => f
  | Gt => f + 1
  | Eq => if Z.even f then f else f + 1
  end.

(** The doubles around [q] are the multiples of [2 ^ ulp_exponent q]: 53
    significant bits, and no exponent below that of the subnormals. *)
Definition ulp_exponent (q : Q) : Z := Z.max (floor_log2 (Qabs q) - 52) (-1074).

(** The double nearest to [q] (roundTiesToEven). *)
Definition fl (q : Q) : Q :=
  if Qeq_bool q 0 then 0%Q
  else (inject_Z (round_half_even (q / pow2 (ulp_exponent q))) * pow2 (ulp_exponent q))%Q.

(** [a * b] and [a / b] on numbers. *)
Definition mul (a b : Q) : Q := fl (a * b).
Definition div (a b : Q) : Q := fl (a / b).

(** [Math.floor]. *)
Definition Math_floor (q : Q) : Z := Qfloor q.

(** [ToInt32]: the operands of [&] and [~] are first wrapped into the
    signed 32-bit range. *)
Definition ToInt32 (z : Z) : Z := (z + 2 ^ 31) mod 2 ^ 32 - 2 ^ 31.

(** [~a] *)
Definition bitnot (a : Z) : Z := Z.lnot (ToInt32 a).

(** [a & b] *)
Definition bitand (a b : Z) : Z := Z.land (ToInt32 a) (ToInt32 b).

(** [n] is an integer closest to [q], with the tie rule of [Math.round]. *)
Definition nearest_integer (n : Z) (q : Q) : Prop :=
  (inject_Z n - (1 # 2) <= q)%Q /\ (q < inject_Z n + (1 # 2))%Q.

(** [n] is an integer closest to [q]: [Math.round q], or, when [q] is
    half-way between two integers, possibly the lower of the two. *)
Definition closest_integer (n : Z) (q : Q) : Prop :=
  (inject_Z n - (1 # 2) <= q <= inject_Z n + (1 # 2))%Q
  /\ (n = Math_round q \/ (q == inject_Z n + (1 # 2))%Q).

(** How a handler ends: by returning, or by an exception that escapes it. *)
Inductive Completion (A : Type) : Type :=
| Returned (v : A)
| Thrown (msg : string).
Arguments Returned {A} v.
Arguments Thrown {A} msg.

End Js.

(* ===================================================================== *)
(** ** Application settings (electron/main.ts, [AppSettings]) *)
(* ===================================================================== *)

Inductive ImageFormat := png | jpg.
Inductive VideoFormat := mp4 | webm.
Inductive AudioSource := none | system | mic.
Inductive ShortcutMode := standard | alternative.

Record AppSettings := {
  savePath : string;
  imageFormat : ImageFormat;
  videoFormat : VideoFormat;
  audioSource : AudioSource;
  frameRate : Z;
  shortcutMode : ShortcutMode
}.

(** The module-level [settings] object; [desktop] is [app.getPath('desktop')]. *)
Definition settings (desktop : string) : AppSettings :=
  {| savePath := desktop; imageFormat := png; videoFormat := mp4;
     audioSource := system; frameRate := 60; shortcutMode := standard |}.

(** [updateSettings(key, value)] as the tray menu calls it: the menu offers
    the two shortcut schemes and the three audio sources, and nothing else
    assigns to a field of [settings]. *)
Inductive SettingsChoice :=
| ChooseShortcutMode (m : ShortcutMode)
| ChooseAudioSource (a : AudioSource).

Definition updateSettings (c : SettingsChoice) (s : AppSettings) : AppSettings :=
  match c with
  | ChooseShortcutMode m =>
      {| savePath := savePath s; imageFormat := imageFormat s;
         videoFormat := videoFormat s; audioSource := audioSource s;
         frameRate := frameRate s; shortcutMode := m |}
  | ChooseAudioSource a =>
      {| savePath := savePath s; imageFormat := imageFormat s;
         videoFormat := videoFormat s; audioSource := a;
         frameRate := frameRate s; shortcutMode := shortcutMode s |}
  end.

(** The settings the main process can hold: those it starts with, after any
    number of choices in the tray menu. *)
Definition configured (s : AppSettings) : Prop :=
  exists (desktop : string) (choices : list SettingsChoice),
    s = fold_left (fun s c => updateSettings c s) choices (settings desktop).

(** The three overlay modes ([?mode=] of the selector window). *)
Inductive Mode := clipboard | file | record.

(** The OS-level mouse state of a window: it takes the pointer input
    ([capture]), or ignores it ([pass_through]), forwarding move events to the
    page or not. *)
Inductive ClickThrough := capture | pass_through (forward : bool).



(* ===================================================================== *)
(** ** The main process (electron/main.ts) *)
(* ===================================================================== *)

Module Main.

(** The rectangle a renderer sends with [capture-region]. *)
Record Rect := { rect_x : Q; rect_y : Q; rect_width : Q; rect_height : Q }.

(** The integer rectangle handed to [img.crop]. *)
Record CropRect := { crop_x : Z; crop_y : Z; crop_width : Z; crop_height : Z }.

Record Size := { size_width : Z; size_height : Z }.

(** [screen.getPrimaryDisplay()]: logical bounds and device scale factor. *)
Record Display := { bounds_width : Z; bounds_height : Z; scaleFactor : Q }.

(** A [NativeImage] obtained by cropping a thumbnail of size [source]. *)
Record Image := { source : Size; region : CropRect }.

(** The messages passed to [showNotification]. *)
Inductive Notification :=
| Copied                (* '已复制' *)
| Saved                 (* '已保存' *)
| RecordingEmpty        (* '录制失败：数据为空' *)
| SavingWriting         (* '正在保存：写入文件...' *)
| SaveFailedTemp        (* '保存失败：临时文件写入错误' *)
| SavingTranscoding     (* '正在保存：开始转码...' *)
| SavedMp4AndWebM       (* '保存成功 (MP4+WebM)' *)
| TranscodeFailedWebMKept (* '转码失败，已保存WebM' *)
| SavedWebM.            (* '保存成功 (WebM)' *)

Inductive Encoding := PNG | JPEG.

Inductive FileContent :=
| EncodedImage (enc : Encoding) (img : Image)   (* [img.toPNG()] and the like *)
| RawBytes (bytes : list Byte.byte)             (* [Buffer.from(buffer)] *)
| TranscodedFrom (src : string)                 (* what ffmpeg saved from [src] *)
| LogLines (lines : list string)
| Partial (n : nat) (whole : FileContent).      (* the first [n] bytes of [whole] *)

(** Module-level state of the main process that the handlers touch. *)
Record State := {
  st_settings : AppSettings;
  fs : gmap string FileContent;
  clipboardImage : option Image;
  notifications : list Notification;
  selectorWindow : bool;
  isRecording : bool
}.

Definition showNotification (n : Notification) (st : State) : State :=
  {| st_settings := st_settings st; fs := fs st;
     clipboardImage := clipboardImage st;
     notifications := notifications st ++ [n];
     selectorWindow := selectorWindow st; isRecording := isRecording st |}.

Definition closeSelectorWindow (st : State) : State :=
  {| st_settings := st_settings st; fs := fs st;
     clipboardImage := clipboardImage st;
     notifications := notifications st;
     selectorWindow := false; isRecording := isRecording st |}.

Definition set_isRecording (b : bool) (st : State) : State :=
  {| st_settings := st_settings st; fs := fs st;
     clipboardImage := clipboardImage st;
     notifications := notifications st;
     selectorWindow := selectorWindow st; isRecording := b |}.

Definition set_clipboard (img : Image) (st : State) : State :=
  {| st_settings := st_settings st; fs := fs st;
     clipboardImage := Some img;
     notifications := notifications st;
     selectorWindow := selectorWindow st; isRecording := isRecording st |}.

(** [fs.writeFileSync(path, content)] when it succeeds. *)
Definition writeFileSync (path : string) (c : FileContent) (st : State) : State :=
  {| st_settings := st_settings st; fs := <[path := c]> (fs st);
     clipboardImage := clipboardImage st;
     notifications := notifications st;
     selectorWindow := selectorWindow st; isRecording := isRecording st |}.

(** How a [fs.writeFileSync] that throws leaves the disk.  The call opens
    the file for writing, which creates it or empties it, and then writes:
    it fails before the file is opened, or after [n] bytes were written. *)
Inductive WriteFailure := BeforeOpen | AfterBytes (n : nat).

(** [fs.writeFileSync(path, content)] when it throws. *)
Definition failedWriteFileSync (f : WriteFailure) (path : string) (c : FileContent)
    (st : State) : State :=
  match f with
  | BeforeOpen => st
  | AfterBytes n => writeFileSync path (Partial n c) st
  end.

(** [fs.appendFileSync(path, line)] when it succeeds. *)
Definition appendFileSync (path line : string) (st : State) : State :=
  let old := match fs st !! path with
             | Some (LogLines l) => l
             | _ => []
             end in
  writeFileSync path (LogLines (old ++ [line])) st.

(** [fs.appendFileSync(path, line)] when it throws: the file is opened for
    appending, which creates it when it is missing, and the line is written
    at its end; of the line, [n] characters got there. *)
Definition failedAppendFileSync (f : WriteFailure) (path line : string) (st : State)
  : State :=
  match f with
  | BeforeOpen => st
  | AfterBytes n => appendFileSync path (String.substring 0 n line) st
  end.

(** [path.join(dir, name)] for a plain file name. *)
Definition path_join (dir name : string) : string :=
  String.append dir (String "/" name).

(** [.replace(/[:.]/g, '-')] *)
Fixpoint replace_colon_dot (s : string) : string :=
  match s with
  | EmptyString => EmptyString
  | String c s' =>
      String (if (Ascii.eqb c ":" || Ascii.eqb c ".")%bool then "-"%char else c)
             (replace_colon_dot s')
  end.

(** [.split('.')[0]] *)
Fixpoint split_dot_0 (s : string) : string :=
  match s with
  | EmptyString => EmptyString
  | String c s' => if Ascii.eqb c "." then EmptyString else String c (split_dot_0 s')
  end.

(** [new Date().toISOString().replace(/[:.]/g, '-').split('.')[0]],
    [iso] being the ISO string of the clock. *)
Definition timestamp (iso : string) : string :=
  split_dot_0 (replace_colon_dot iso).

(** *** [capture-region] *)

(** What the handler obtains from Electron and the clock. *)
Record CaptureEnv := {
  display : Display;
  (** [desktopCapturer.getSources({types, thumbnailSize})]: the size of
      [sources[0].thumbnail], [None] when no screen source is listed. *)
  getSources : Q * Q -> option Size;
  now : string;
  writeOk : bool;                 (* writing the .png succeeds *)
  writeFailure : WriteFailure     (* how it fails when it does not *)
}.

(** [imgSize.width / width] and [imgSize.height / height] *)
Definition scaleX (width : Z) (imgSize : Size) : Q :=
  Js.div (inject_Z (size_width imgSize)) (inject_Z width).

Definition scaleY (height : Z) (imgSize : Size) : Q :=
  Js.div (inject_Z (size_height imgSize)) (inject_Z height).

Definition cropRect (width height : Z) (imgSize : Size) (rect : Rect) : CropRect :=
  {| crop_x := Js.Math_round (Js.mul (rect_x rect) (scaleX width imgSize));
     crop_y := Js.Math_round (Js.mul (rect_y rect) (scaleY height imgSize));
     crop_width := Js.Math_round (Js.mul (rect_width rect) (scaleX width imgSize));
     crop_height := Js.Math_round (Js.mul (rect_height rect) (scaleY height imgSize)) |}.

Definition screenshot_path (st : State) (iso : string) : string :=
  path_join (savePath (st_settings st))
            (String.append "screenshot-" (String.append (timestamp iso) ".png")).

Definition capture_region (st : State) (env : CaptureEnv) (rect : Rect) (mode : Mode)
  : State * Js.Completion string :=
  let st := closeSelectorWindow st in
  let width := bounds_width (display env) in
  let height := bounds_height (display env) in
  let thumbSize := (Js.mul (inject_Z width) (scaleFactor (display env)),
                    Js.mul (inject_Z height) (scaleFactor (display env))) in
  match getSources env thumbSize with
  | None => (st, Js.Thrown "No screen source")
  | Some imgSize =>
      let cropped := {| source := imgSize;
                        region := cropRect width height imgSize rect |} in
      match mode with
      | clipboard =>
          (showNotification Copied (set_clipboard cropped st), Js.Returned "success")
      | file =>
          if writeOk env then
            (showNotification Saved
               (writeFileSync (screenshot_path st (now env)) (EncodedImage PNG cropped) st),
             Js.Returned "success")
          else
            (failedWriteFileSync (writeFailure env) (screenshot_path st (now env))
               (EncodedImage PNG cropped) st,
             Js.Thrown "writeFileSync")
      | record => (st, Js.Returned "success")
      end
  end.

(** *** [recording-finished] *)

Inductive FfmpegOutcome :=
| FfmpegEnd                      (* the 'end' event *)
| FfmpegError (message : string).  (* 'error', or loading ffmpeg threw *)

Record FinishEnv := {
  fin_now : string;          (* clock at entry *)
  fin_writeOk : bool;        (* writing the .webm succeeds *)
  fin_writeFailure : WriteFailure;  (* how it fails when it does not *)
  fin_ffmpeg : FfmpegOutcome;
  fin_logNow : string;       (* clock when [logDebug] runs *)
  fin_appendOk : bool;       (* appending to the debug log succeeds *)
  fin_appendFailure : WriteFailure  (* how it fails when it does not *)
}.

Definition recording_path (st : State) (iso ext : string) : string :=
  path_join (savePath (st_settings st))
            (String.append "recording-" (String.append (timestamp iso) ext)).

Definition debugLogPath (st : State) (iso : string) : string :=
  path_join (savePath (st_settings st))
            (String.append "debug-" (String.append (timestamp iso) ".log")).

(** [logDebug(msg)]: console output, and a line appended to the debug log
    inside a [try] of its own. *)
Definition logDebug (env : FinishEnv) (msg : string) (st : State) : State :=
  let line := String.append "[" (String.append (fin_logNow env) (String.append "] " msg)) in
  if fin_appendOk env then appendFileSync (debugLogPath st (fin_now env)) line st
  else failedAppendFileSync (fin_appendFailure env) (debugLogPath st (fin_now env)) line st.

(** [buffer ? (buffer.length !== undefined ? buffer.length : buffer.byteLength) : 0];
    a missing buffer is [None]. *)
Definition bufLength (buffer : option (list Byte.byte)) : Z :=
  match buffer with
  | Some b => Z.of_nat (length b)
  | None => 0
  end.

Definition recording_finished (st : State) (env : FinishEnv)
    (buffer : option (list Byte.byte)) : State * Js.Completion unit :=
  let st := set_isRecording false st in
  match buffer with
  | None => (showNotification RecordingEmpty st, Js.Returned tt)
  | Some bytes =>
      if bufLength buffer =? 0 then (showNotification RecordingEmpty st, Js.Returned tt)
      else
        let st := showNotification SavingWriting st in
        let webmPath := recording_path st (fin_now env) ".webm" in
        if negb (fin_writeOk env) then
          (showNotification SaveFailedTemp
             (failedWriteFileSync (fin_writeFailure env) webmPath (RawBytes bytes) st),
           Js.Returned tt)
        else
          let st := writeFileSync webmPath (RawBytes bytes) st in
          match videoFormat (st_settings st) with
          | mp4 =>
              let mp4Path := recording_path st (fin_now env) ".mp4" in
              let st := showNotification SavingTranscoding st in
              match fin_ffmpeg env with
              | FfmpegEnd =>
                  (showNotification SavedMp4AndWebM
                     (writeFileSync mp4Path (TranscodedFrom webmPath) st),
                   Js.Returned tt)
              | FfmpegError message =>
                  (showNotification TranscodeFailedWebMKept
                     (logDebug env (String.append "Conversion failed: " message) st),
                   Js.Returned tt)
              end
          | webm => (showNotification SavedWebM st, Js.Returned tt)
          end
  end.

(** *** The configured still format, as a reader of [imageFormat] would
    apply it *)

Definition encoding_of (f : ImageFormat) : Encoding :=
  match f with png => PNG | jpg => JPEG end.

Definition extension_of (f : ImageFormat) : string :=
  match f with png => ".png" | jpg => ".jpg" end.

Definition configured_path (st : State) (iso : string) : string :=
  path_join (savePath (st_settings st))
    (String.append "screenshot-"
       (String.append (timestamp iso) (extension_of (imageFormat (st_settings st))))).

(** The file of a file-mode capture is in the configured format. *)
Definition written_in_configured_format
    (st : State) (env : CaptureEnv) (rect : Rect) : Prop :=
  exists img,
    fs (fst (capture_region st env rect file)) !! configured_path st (now env)
    = Some (EncodedImage (encoding_of (imageFormat (st_settings st))) img).

(** *** Sample inputs *)

Definition idle (s : AppSettings) : State :=
  {| st_settings := s; fs := ∅; clipboardImage := None; notifications := [];
     selectorWindow := true; isRecording := false |}.

(** A 1920x1080 display at scale factor 2, captured at 3840x2160. *)
Definition retina_env : CaptureEnv :=
  {| display := {| bounds_width := 1920; bounds_height := 1080; scaleFactor := 2 |};
     getSources := fun _ => Some {| size_width := 3840; size_height := 2160 |};
     now := "2024-01-02T03:04:05.678Z";
     writeOk := true; writeFailure := BeforeOpen |}.

Definition sample_rect : Rect :=
  {| rect_x := 100; rect_y := 100; rect_width := 200; rect_height := 150 |}.

Definition failing_ffmpeg_env : FinishEnv :=
  {| fin_now := "2024-01-02T03:04:05.678Z"; fin_writeOk := true;
     fin_writeFailure := BeforeOpen;
     fin_ffmpeg := FfmpegError "ffmpeg exited with code 1";
     fin_logNow := "2024-01-02T03:04:06.000Z"; fin_appendOk := true;
     fin_appendFailure := BeforeOpen |}.

(** *** [set-ignore-mouse-events]

    The window of the sender gets [setIgnoreMouseEvents(true, {forward: true})]
    or [setIgnoreMouseEvents(false)]; the [options] sent along are not read. *)
Definition set_ignore_mouse_events (ignore : bool) (options : option bool)
  : ClickThrough :=
  if ignore then pass_through true else capture.

End Main.

(* ===================================================================== *)
(** ** The overlay (src/components/RegionSelector.tsx) *)
(* ===================================================================== *)

Module Selector.

(** Pointer coordinates of mouse events are whole CSS pixels. *)
Record SelectionRect := { x : Z; y : Z; width : Z; height : Z }.

Record Point := { px : Z; py : Z }.

(** The props and [useState] cells of the component. *)
Record State := {
  mode : Mode;
  isSelecting : bool;
  startPoint : Point;
  selection : option SelectionRect;
  isRecordingActive : bool;
  screenshotUrl : option string;
  (** whether the parent passed [onStartRecording] *)
  hasOnStartRecording : bool
}.

(** What the component calls outside itself. *)
Inductive Action :=
| CaptureRegion (rect : SelectionRect) (m : Mode) (mouseStartPos : Point)
| SetIgnoreMouseEvents (ignore : bool) (options : option bool)
| OnStartRecording (rect : SelectionRect)
| OnCancel
| ScreenshotReady
| RevokeObjectURL (url : string).

Inductive Event :=
| MouseDown (button clientX clientY : Z)
| MouseMove (clientX clientY : Z)
| MouseUp (button clientX clientY : Z)
| KeyDown (key : string)
| ContextMenu
| ControlMouseEnter
| ControlMouseLeave
| ClickStartRecording
| ClickCancel
| InitScreenshot (url : string)     (* the preloaded image of 'init-screenshot' *)
| ClearScreenshot                   (* 'clear-screenshot' *)
| SetMode (m : Mode).               (* the parent renders another [mode] *)

Definition set_isSelecting (b : bool) (s : State) : State :=
  {| mode := mode s; isSelecting := b; startPoint := startPoint s;
     selection := selection s; isRecordingActive := isRecordingActive s;
     screenshotUrl := screenshotUrl s;
     hasOnStartRecording := hasOnStartRecording s |}.

Definition set_startPoint (p : Point) (s : State) : State :=
  {| mode := mode s; isSelecting := isSelecting s; startPoint := p;
     selection := selection s; isRecordingActive := isRecordingActive s;
     screenshotUrl := screenshotUrl s;
     hasOnStartRecording := hasOnStartRecording s |}.

Definition set_selection (r : option SelectionRect) (s : State) : State :=
  {| mode := mode s; isSelecting := isSelecting s; startPoint := startPoint s;
     selection := r; isRecordingActive := isRecordingActive s;
     screenshotUrl := screenshotUrl s;
     hasOnStartRecording := hasOnStartRecording s |}.

Definition set_isRecordingActive (b : bool) (s : State) : State :=
  {| mode := mode s; isSelecting := isSelecting s; startPoint := startPoint s;
     selection := selection s; isRecordingActive := b;
     screenshotUrl := screenshotUrl s;
     hasOnStartRecording := hasOnStartRecording s |}.

Definition set_screenshotUrl (u : option string) (s : State) : State :=
  {| mode := mode s; isSelecting := isSelecting s; startPoint := startPoint s;
     selection := selection s; isRecordingActive := isRecordingActive s;
     screenshotUrl := u;
     hasOnStartRecording := hasOnStartRecording s |}.

Definition set_mode (m : Mode) (s : State) : State :=
  {| mode := m; isSelecting := isSelecting s; startPoint := startPoint s;
     selection := selection s; isRecordingActive := isRecordingActive s;
     screenshotUrl := screenshotUrl s;
     hasOnStartRecording := hasOnStartRecording s |}.

Definition is_record (m : Mode) : bool :=
  match m with record => true | _ => false end.

(** [if (screenshotUrl)]: a string is truthy unless it is empty. *)
Definition hasBackdrop (s : State) : bool :=
  match screenshotUrl s with
  | Some EmptyString | None => false
  | Some _ => true
  end.

Definition captureAndFinish (m : Mode) (rect : SelectionRect) (mouseStartPos : Point)
  : list Action :=
  if ((width rect <? 5) || (height rect <? 5))%bool then []
  else [CaptureRegion rect m mouseStartPos].

Definition handleMouseDown (button clientX clientY : Z) (s : State) : State :=
  if negb (button =? 0) then s
  else set_selection None
         (set_startPoint {| px := clientX; py := clientY |} (set_isSelecting true s)).

Definition handleMouseMove (clientX clientY : Z) (s : State) : State :=
  if negb (isSelecting s) then s
  else set_selection
         (Some {| x := Z.min (px (startPoint s)) clientX;
                  y := Z.min (py (startPoint s)) clientY;
                  width := Z.abs (clientX - px (startPoint s));
                  height := Z.abs (clientY - py (startPoint s)) |}) s.

Definition handleMouseUp (button : Z) (s : State) : State * list Action :=
  if (negb (button =? 0) || negb (isSelecting s))%bool then (s, [])
  else
    let s' := set_isSelecting false s in
    match selection s with
    | Some sel =>
        if ((width sel >? 5) && (height sel >? 5))%bool then
          match mode s with
          | record => (s', [])
          | m => (s', captureAndFinish m sel (startPoint s))
          end
        else (s', [])
    | None => (s', [])
    end.

Definition handleControlMouseEnter (s : State) : list Action :=
  if (is_record (mode s) && isRecordingActive s)%bool
  then [SetIgnoreMouseEvents false None] else [].

Definition handleControlMouseLeave (s : State) : list Action :=
  if (is_record (mode s) && isRecordingActive s)%bool
  then [SetIgnoreMouseEvents true (Some true)] else [].

Definition handleStartRecording (s : State) : State * list Action :=
  match selection s with
  | Some sel =>
      if hasOnStartRecording s
      then (set_isRecordingActive true s, [OnStartRecording sel])
      else (s, [])
  | None => (s, [])
  end.

(** The control bar with the two buttons is part of the rendered tree. *)
Definition controlBarRendered (s : State) : bool :=
  match selection s with
  | Some sel =>
      (is_record (mode s) && negb (isSelecting s)
       && (width sel >? 20) && (height sel >? 20))%bool
  | None => false
  end.

(** The click-through effect, with dependencies
    [mode, isRecordingActive, screenshotUrl]. *)
Definition clickThroughEffect (s : State) : Action :=
  match mode s with
  | record =>
      if isRecordingActive s then SetIgnoreMouseEvents true (Some true)
      else SetIgnoreMouseEvents false None
  | _ =>
      if hasBackdrop s then SetIgnoreMouseEvents false None
      else SetIgnoreMouseEvents true (Some false)
  end.

Definition mode_eqb (a b : Mode) : bool :=
  match a, b with
  | clipboard, clipboard | file, file | record, record => true
  | _, _ => false
  end.

Definition url_eqb (a b : option string) : bool :=
  match a, b with
  | None, None => true
  | Some u, Some v => String.eqb u v
  | _, _ => false
  end.

Definition clickThroughDepsChanged (prev cur : State) : bool :=
  negb (mode_eqb (mode prev) (mode cur)
        && Bool.eqb (isRecordingActive prev) (isRecordingActive cur)
        && url_eqb (screenshotUrl prev) (screenshotUrl cur)).

(** The reset effect, with dependency [mode]:
    [if (mode !== 'record') setIsRecordingActive(false)]. *)
Definition resetEffect (s : State) : State :=
  if is_record (mode s) then s else set_isRecordingActive false s.

(** The effects that follow the render of [cur], [prev] being the state of
    the render before: first those of this render whose dependencies
    changed, then the click-through effect once more when the reset effect
    changed [isRecordingActive]. *)
Definition commit (prev cur : State) : State * list Action :=
  let a1 := if clickThroughDepsChanged prev cur then [clickThroughEffect cur] else [] in
  let cur' := if mode_eqb (mode prev) (mode cur) then cur else resetEffect cur in
  let a2 := if clickThroughDepsChanged cur cur' then [clickThroughEffect cur'] else [] in
  (cur', a1 ++ a2).

(** The handler of an event, before the render it causes. *)
Definition handle (e : Event) (s : State) : State * list Action :=
  match e with
  | MouseDown button clientX clientY => (handleMouseDown button clientX clientY s, [])
  | MouseMove clientX clientY => (handleMouseMove clientX clientY s, [])
  | MouseUp button _ _ => handleMouseUp button s
  | KeyDown key => (s, if String.eqb key "Escape" then [OnCancel] else [])
  | ContextMenu => (s, [OnCancel])
  | ControlMouseEnter =>
      (s, if controlBarRendered s then handleControlMouseEnter s else [])
  | ControlMouseLeave =>
      (s, if controlBarRendered s then handleControlMouseLeave s else [])
  | ClickStartRecording =>
      if controlBarRendered s then handleStartRecording s else (s, [])
  | ClickCancel => (s, if controlBarRendered s then [OnCancel] else [])
  | InitScreenshot url => (set_screenshotUrl (Some url) s, [ScreenshotReady])
  | ClearScreenshot =>
      (set_selection None (set_screenshotUrl None s),
       match screenshotUrl s with
       | Some EmptyString | None => []
       | Some u => [RevokeObjectURL u]
       end)
  | SetMode m => (set_mode m s, [])
  end.

Definition step (s : State) (e : Event) : State * list Action :=
  let (s1, a1) := handle e s in
  let (s2, a2) := commit s s1 in
  (s2, a1 ++ a2).

(** The component together with the mouse state of its window, which the
    main process sets on every [SetIgnoreMouseEvents]. *)
Record Overlay := { comp : State; win : ClickThrough }.

Definition apply_action (w : ClickThrough) (a : Action) : ClickThrough :=
  match a with
  | SetIgnoreMouseEvents ignore options => Main.set_ignore_mouse_events ignore options
  | _ => w
  end.

Definition run (o : Overlay) (e : Event) : Overlay :=
  let (s', acts) := step (comp o) e in
  {| comp := s'; win := fold_left apply_action acts (win o) |}.

(** First render of the component in a fresh window: all effects run. *)
Definition mount (m : Mode) (onStart : bool) : Overlay :=
  let s0 := {| mode := m; isSelecting := false; startPoint := {| px := 0; py := 0 |};
               selection := None; isRecordingActive := false;
               screenshotUrl := None; hasOnStartRecording := onStart |} in
  {| comp := s0; win := apply_action capture (clickThroughEffect s0) |}.

(** The click-through state as a function of
    [mode], [isRecordingActive] and [hasBackdrop]. *)
Definition policy (m : Mode) (active backdrop : bool) : ClickThrough :=
  match m with
  | record => if active then pass_through true else capture
  | _ => if backdrop then capture else pass_through true
  end.

Definition consistent (o : Overlay) : Prop :=
  win o = policy (mode (comp o)) (isRecordingActive (comp o)) (hasBackdrop (comp o)).

Definition is_hover (e : Event) : bool :=
  match e with ControlMouseEnter | ControlMouseLeave => true | _ => false end.

(** A clipboard-mode overlay showing the frozen screenshot. *)
Definition frozen_clipboard_overlay : Overlay :=
  run (mount clipboard true) (InitScreenshot "blob:1").

Fixpoint runs (o : Overlay) (es : list Event) : Overlay :=
  match es with
  | [] => o
  | e :: es' => runs (run o e) es'
  end.

(** All actions of a sequence of events. *)
Fixpoint actions (s : State) (es : list Event) : list Action :=
  match es with
  | [] => []
  | e :: es' => let (s', a) := step s e in a ++ actions s' es'
  end.

(** A drag with the primary button from one point to another. *)
Definition drag (x0 y0 x1 y1 : Z) : list Event :=
  [MouseDown 0 x0 y0; MouseMove x1 y1; MouseUp 0 x1 y1].

(** The rectangle such a drag selects. *)
Definition dragged (x0 y0 x1 y1 : Z) : SelectionRect :=
  {| x := Z.min x0 x1; y := Z.min y0 y1;
     width := Z.abs (x1 - x0); height := Z.abs (y1 - y0) |}.


End Selector.

(* ===================================================================== *)
(** ** The recording worker (src/components/BackgroundRecorder.tsx) *)
(* ===================================================================== *)

Module Worker.

(** A value of the untyped [rect.scaleFactor]. *)
Inductive JsValue := JsUndefined | JsNull | JsNaN | JsNumber (q : Q).

(** The [rect] of 'start-recording'. *)
Record Rect := {
  rect_x : Q; rect_y : Q; rect_width : Q; rect_height : Q;
  scaleFactor : JsValue
}.

Record Canvas := { canvas_width : Z; canvas_height : Z }.

(** [MediaRecorder.state] *)
Inductive RecordingState := inactive | recording | paused.

(** A [MediaRecorder]: its state and the encoded data it has gathered and
    not yet delivered (it is started without a timeslice). *)
Record Recorder := { rec_state : RecordingState; rec_gathered : list Byte.byte }.

(** A blob received in a [dataavailable] event, with the recorder it
    came from. *)
Record Chunk := { producer : positive; data : list Byte.byte }.

(** What the closures of one [handleStart] call ([draw], [onstop]) capture:
    constants, the [let] cells of the audio set-up, and the [video] element
    with its mutable state.  Streams are the lists of their tracks. *)
Record Session := {
  s_rect : Rect;
  s_sourceScale : Q;
  s_canvas : Canvas;
  s_hasCtx : bool;
  s_paused : bool;                       (* video.paused *)
  s_ended : bool;                        (* video.ended *)
  s_srcObject : option (list positive);  (* video.srcObject *)
  s_screenStream : list positive;
  s_sysStreamRef : option (list positive);
  s_micStreamRef : option (list positive);
  s_audioCtxRef : option positive
}.

(** An armed timeout: the session whose [draw] it calls, and its delay in
    milliseconds. *)
Record Timer := { t_session : positive; t_delay : Q }.

(** The refs of the component, the browser objects they and the closures
    point to, and the event loop of the renderer. *)
Record State := {
  mediaRecorderRef : option positive;
  streamRef : option (list positive);
  canvasRef : option Canvas;
  videoRef : option positive;
  animationFrameRef : option positive;
  chunksRef : list Chunk;
  recorders : gmap positive Recorder;
  sessions : gmap positive Session;
  (** tracks whose [readyState] is 'live' *)
  liveTracks : gset positive;
  timers : gmap positive Timer;
  openAudioCtx : gset positive;
  (** recorders whose stop task (dataavailable, then stop) is queued *)
  tasks : list positive;
  (** [handleStart] calls suspended at [await getScreenSourceId()] *)
  pendingStarts : gmap positive (Rect * AppSettings);
  (** [onstop] handlers suspended at [await audioCtxRef.close()] *)
  awaitingClose : gset positive;
  (** next unused object id *)
  nextId : positive
}.

Definition set_mediaRecorderRef (v : option positive) (w : State) : State :=
  {| mediaRecorderRef := v; streamRef := streamRef w;
     canvasRef := canvasRef w; videoRef := videoRef w;
     animationFrameRef := animationFrameRef w; chunksRef := chunksRef w;
     recorders := recorders w; sessions := sessions w;
     liveTracks := liveTracks w; timers := timers w;
     openAudioCtx := openAudioCtx w; tasks := tasks w;
     pendingStarts := pendingStarts w; awaitingClose := awaitingClose w;
     nextId := nextId w |}.

Definition set_streamRef (v : option (list positive)) (w : State) : State :=
  {| mediaRecorderRef := mediaRecorderRef w; streamRef := v;
     canvasRef := canvasRef w; videoRef := videoRef w;
     animationFrameRef := animationFrameRef w; chunksRef := chunksRef w;
     recorders := recorders w; sessions := sessions w;
     liveTracks := liveTracks w; timers := timers w;
     openAudioCtx := openAudioCtx w; tasks := tasks w;
     pendingStarts := pendingStarts w; awaitingClose := awaitingClose w;
     nextId := nextId w |}.

Definition set_canvasRef (v : option Canvas) (w : State) : State :=
  {| mediaRecorderRef := mediaRecorderRef w; streamRef := streamRef w;
     canvasRef := v; videoRef := videoRef w;
     animationFrameRef := animationFrameRef w; chunksRef := chunksRef w;
     recorders := recorders w; sessions := sessions w;
     liveTracks := liveTracks w; timers := timers w;
     openAudioCtx := openAudioCtx w; tasks := tasks w;
     pendingStarts := pendingStarts w; awaitingClose := awaitingClose w;
     nextId := nextId w |}.

Definition set_videoRef (v : option positive) (w : State) : State :=
  {| mediaRecorderRef := mediaRecorderRef w; streamRef := streamRef w;
     canvasRef := canvasRef w; videoRef := v;
     animationFrameRef := animationFrameRef w; chunksRef := chunksRef w;
     recorders := recorders w; sessions := sessions w;
     liveTracks := liveTracks w; timers := timers w;
     openAudioCtx := openAudioCtx w; tasks := tasks w;
     pendingStarts := pendingStarts w; awaitingClose := awaitingClose w;
     nextId := nextId w |}.

Definition set_animationFrameRef (v : option positive) (w : State) : State :=
  {| mediaRecorderRef := mediaRecorderRef w; streamRef := streamRef w;
     canvasRef := canvasRef w; videoRef := videoRef w;
     animationFrameRef := v; chunksRef := chunksRef w;
     recorders := recorders w; sessions := sessions w;
     liveTracks := liveTracks w; timers := timers w;
     openAudioCtx := openAudioCtx w; tasks := tasks w;
     pendingStarts := pendingStarts w; awaitingClose := awaitingClose w;
     nextId := nextId w |}.

Definition set_chunksRef (v : list Chunk) (w : State) : State :=
  {| mediaRecorderRef := mediaRecorderRef w; streamRef := streamRef w;
     canvasRef := canvasRef w; videoRef := videoRef w;
     animationFrameRef := animationFrameRef w; chunksRef := v;
     recorders := recorders w; sessions := sessions w;
     liveTracks := liveTracks w; timers := timers w;
     openAudioCtx := openAudioCtx w; tasks := tasks w;
     pendingStarts := pendingStarts w; awaitingClose := awaitingClose w;
     nextId := nextId w |}.

Definition set_recorders (v : gmap positive Recorder) (w : State) : State :=
  {| mediaRecorderRef := mediaRecorderRef w; streamRef := streamRef w;
     canvasRef := canvasRef w; videoRef := videoRef w;
     animationFrameRef := animationFrameRef w; chunksRef := chunksRef w;
     recorders := v; sessions := sessions w; liveTracks := liveTracks w;
     timers := timers w; openAudioCtx := openAudioCtx w; tasks := tasks w;
     pendingStarts := pendingStarts w; awaitingClose := awaitingClose w;
     nextId := nextId w |}.

Definition set_sessions (v : gmap positive Session) (w : State) : State :=
  {| mediaRecorderRef := mediaRecorderRef w; streamRef := streamRef w;
     canvasRef := canvasRef w; videoRef := videoRef w;
     animationFrameRef := animationFrameRef w; chunksRef := chunksRef w;
     recorders := recorders w; sessions := v; liveTracks := liveTracks w;
     timers := timers w; openAudioCtx := openAudioCtx w; tasks := tasks w;
     pendingStarts := pendingStarts w; awaitingClose := awaitingClose w;
     nextId := nextId w |}.

Definition set_liveTracks (v : gset positive) (w : State) : State :=
  {| mediaRecorderRef := mediaRecorderRef w; streamRef := streamRef w;
     canvasRef := canvasRef w; videoRef := videoRef w;
     animationFrameRef := animationFrameRef w; chunksRef := chunksRef w;
     recorders := recorders w; sessions := sessions w; liveTracks := v;
     timers := timers w; openAudioCtx := openAudioCtx w; tasks := tasks w;
     pendingStarts := pendingStarts w; awaitingClose := awaitingClose w;
     nextId := nextId w |}.

Definition set_timers (v : gmap positive Timer) (w : State) : State :=
  {| mediaRecorderRef := mediaRecorderRef w; streamRef := streamRef w;
     canvasRef := canvasRef w; videoRef := videoRef w;
     animationFrameRef := animationFrameRef w; chunksRef := chunksRef w;
     recorders := recorders w; sessions := sessions w;
     liveTracks := liveTracks w; timers := v; openAudioCtx := openAudioCtx w;
     tasks := tasks w; pendingStarts := pendingStarts w;
     awaitingClose := awaitingClose w; nextId := nextId w |}.

Definition set_openAudioCtx (v : gset positive) (w : State) : State :=
  {| mediaRecorderRef := mediaRecorderRef w; streamRef := streamRef w;
     canvasRef := canvasRef w; videoRef := videoRef w;
     animationFrameRef := animationFrameRef w; chunksRef := chunksRef w;
     recorders := recorders w; sessions := sessions w;
     liveTracks := liveTracks w; timers := timers w; openAudioCtx := v;
     tasks := tasks w; pendingStarts := pendingStarts w;
     awaitingClose := awaitingClose w; nextId := nextId w |}.

Definition set_tasks (v : list positive) (w : State) : State :=
  {| mediaRecorderRef := mediaRecorderRef w; streamRef := streamRef w;
     canvasRef := canvasRef w; videoRef := videoRef w;
     animationFrameRef := animationFrameRef w; chunksRef := chunksRef w;
     recorders := recorders w; sessions := sessions w;
     liveTracks := liveTracks w; timers := timers w;
     openAudioCtx := openAudioCtx w; tasks := v;
     pendingStarts := pendingStarts w; awaitingClose := awaitingClose w;
     nextId := nextId w |}.

Definition set_pendingStarts (v : gmap positive (Rect * AppSettings)) (w : State) : State :=
  {| mediaRecorderRef := mediaRecorderRef w; streamRef := streamRef w;
     canvasRef := canvasRef w; videoRef := videoRef w;
     animationFrameRef := animationFrameRef w; chunksRef := chunksRef w;
     recorders := recorders w; sessions := sessions w;
     liveTracks := liveTracks w; timers := timers w;
     openAudioCtx := openAudioCtx w; tasks := tasks w; pendingStarts := v;
     awaitingClose := awaitingClose w; nextId := nextId w |}.

Definition set_awaitingClose (v : gset positive) (w : State) : State :=
  {| mediaRecorderRef := mediaRecorderRef w; streamRef := streamRef w;
     canvasRef := canvasRef w; videoRef := videoRef w;
     animationFrameRef := animationFrameRef w; chunksRef := chunksRef w;
     recorders := recorders w; sessions := sessions w;
     liveTracks := liveTracks w; timers := timers w;
     openAudioCtx := openAudioCtx w; tasks := tasks w;
     pendingStarts := pendingStarts w; awaitingClose := v;
     nextId := nextId w |}.

Definition set_nextId (v : positive) (w : State) : State :=
  {| mediaRecorderRef := mediaRecorderRef w; streamRef := streamRef w;
     canvasRef := canvasRef w; videoRef := videoRef w;
     animationFrameRef := animationFrameRef w; chunksRef := chunksRef w;
     recorders := recorders w; sessions := sessions w;
     liveTracks := liveTracks w; timers := timers w;
     openAudioCtx := openAudioCtx w; tasks := tasks w;
     pendingStarts := pendingStarts w; awaitingClose := awaitingClose w;
     nextId := v |}.

(** Lines passed to [log]. *)
Inductive LogMsg :=
| StartingRecording (rect : Rect)  (* 'Starting recording via Worker. Rect: ...' *)
| StoppingPrevious                 (* 'Stopping previous recording...' *)
| CleanedUp                        (* 'Previous recording state cleaned up' *)
| GetUserMediaSuccess              (* 'Worker getUserMedia success' *)
| Scaling (src out : Q)            (* 'Scaling: Source=..., Output=...' *)
| MicFailed                        (* 'Mic failed' *)
| WebAudioFailed                   (* 'Web Audio Context setup failed: ...' *)
| SystemAudioFailed                (* 'System audio failed: ...' *)
| ChunksCleared                    (* 'Chunks cleared for new recording' *)
| RecordingStarted                 (* 'Recording started' *)
| WorkerError (message : string)   (* 'Worker Error: ...' *)
| DataAvailable (size : nat)       (* 'ondataavailable fired. data.size: ...' *)
| ChunkAdded (total : nat)         (* 'Chunk added. Total chunks: ...' *)
| WarnEmptyChunk                   (* 'WARNING: Received empty data chunk' *)
| RecorderStopped                  (* 'Recorder stopped' *)
| SystemAudioClosed                (* 'System audio stream closed' *)
| MicClosed                        (* 'Mic stream closed' *)
| AudioContextClosed               (* 'AudioContext closed' *)
| FinalChunksCount (n : nat)       (* 'Final chunks count: ...' *)
| BlobSize (n : nat)               (* 'Blob size: ... bytes' *)
| BufferSize (n : nat)             (* 'Buffer size: ... bytes' *)
| SentToMain                       (* 'Recording sent to main process' *)
| HandleStopCalled (st : option RecordingState)
                                   (* 'handleStop called. Recorder state: ...' *)
| ChunksCount (n : nat)            (* 'Chunks count: ...' *)
| StopCalled                       (* 'Recorder stop() called' *)
| WarnAlreadyInactive.             (* 'WARNING: Recorder already inactive or null, cannot stop' *)

(** What a handler does outside the state: log lines, frames drawn on the
    canvas, and the buffer handed to the main process.  The buffer is the
    concatenation of the blob parts; [session] tells whose [onstop] sent it. *)
Inductive Output :=
| Log (msg : LogMsg)
| DrawImage (session : positive) (sx sy sw sh dw dh : Z)
| RecordingFinished (session : positive) (blobParts : list Chunk).

(** [new Blob(parts).arrayBuffer()] *)
Definition buffer_of (parts : list Chunk) : list Byte.byte :=
  concat (map data parts).

(** What the awaited calls of one [handleStart] resolve to. *)
Inductive AudioCtxOutcome :=
| CtxThrows                   (* [new AudioContext()] throws *)
| CtxWiringThrows             (* a later call of the wiring throws *)
| CtxOk (hasTrack : bool).    (* [dest.stream.getAudioTracks().length > 0] *)

Inductive RecorderOutcome :=
| CtorThrows                  (* [new MediaRecorder(...)] throws *)
| StartThrows                 (* [recorder.start()] throws *)
| Started.

Record Acquired := {
  sourceId : option string;   (* [getScreenSourceId()], [None] for undefined *)
  screenOk : bool;            (* the desktop [getUserMedia] resolves *)
  ctxOk : bool;               (* [canvas.getContext('2d')] is not null *)
  playOk : bool;              (* [video.play()] resolves *)
  micOk : bool;               (* the microphone [getUserMedia] resolves *)
  sysOk : bool;               (* the system-audio [getUserMedia] resolves *)
  audioCtx : AudioCtxOutcome;
  recorderOutcome : RecorderOutcome
}.

(** The tasks the renderer's event loop delivers to the component. *)
Inductive Event :=
| StartRecording (rect : Rect) (settings : AppSettings)   (* 'start-recording' *)
| SourcesAcquired (call : positive) (acq : Acquired)
| StopRecording                                           (* 'stop-recording' *)
| TimerFired (t : positive)
| Encoded (r : positive) (bytes : list Byte.byte)
| AudioCtxSettled (r : positive) (closed : bool)   (* [audioCtxRef.close()] settled *)
| VideoPaused (sid : positive)
| VideoEnded (sid : positive).

(** [rect.scaleFactor || 1] *)
Definition truthy (v : JsValue) : bool :=
  match v with
  | JsNumber q => negb (Qeq_bool q 0)
  | _ => false
  end.

Definition sourceScale (rect : Rect) : Q :=
  match scaleFactor rect with
  | JsNumber q => if Qeq_bool q 0 then 1%Q else q
  | _ => 1%Q
  end.

Definition outputScale : Q := 1%Q.

(** [Math.floor(v * outputScale) & ~1] *)
Definition even_floor (v : Q) : Z :=
  Js.bitand (Js.Math_floor (v * outputScale)) (Js.bitnot 1).

Definition new_canvas (rect : Rect) : Canvas :=
  {| canvas_width := even_floor (rect_width rect);
     canvas_height := even_floor (rect_height rect) |}.

(** [track.stop()] on every track of a stream. *)
Definition stop_tracks (tracks : list positive) (w : State) : State :=
  set_liveTracks (liveTracks w ∖ list_to_set tracks) w.

Definition add_tracks (tracks : list positive) (w : State) : State :=
  set_liveTracks (liveTracks w ∪ list_to_set tracks) w.

Definition clearTimeout (t : positive) (w : State) : State :=
  set_timers (delete t (timers w)) w.

Definition recorder_state (r : positive) (w : State) : option RecordingState :=
  rec_state <$> recorders w !! r.

(** [mediaRecorderRef.current && mediaRecorderRef.current.state !== 'inactive'] *)
Definition recorder_active (w : State) : option positive :=
  match mediaRecorderRef w with
  | Some r =>
      match recorder_state r w with
      | Some inactive | None => None
      | Some _ => Some r
      end
  | None => None
  end.

(** [recorder.stop()]: the state becomes 'inactive' at once; the task firing
    [dataavailable] and then [stop] is queued. *)
Definition recorder_stop (r : positive) (w : State) : State :=
  set_tasks (tasks w ++ [r])
    (set_recorders
       (alter (fun rc => {| rec_state := inactive; rec_gathered := rec_gathered rc |})
              r (recorders w)) w).

(** [draw], the closure of session [sid]. *)
Definition draw (sid : positive) (w : State) : State * list Output :=
  match sessions w !! sid with
  | None => (w, [])
  | Some s =>
      if (negb (s_hasCtx s) || s_paused s || s_ended s)%bool then (w, [])
      else
        let rect := s_rect s in
        let sx := Js.Math_round (Js.mul (rect_x rect) (s_sourceScale s)) in
        let sy := Js.Math_round (Js.mul (rect_y rect) (s_sourceScale s)) in
        let sw := Js.Math_round (Js.mul (rect_width rect) (s_sourceScale s)) in
        let sh := Js.Math_round (Js.mul (rect_height rect) (s_sourceScale s)) in
        let t := nextId w in
        (set_nextId (t + 1)%positive
           (set_timers (<[t := {| t_session := sid; t_delay := Js.div 1000 30 |}]> (timers w))
              (set_animationFrameRef (Some t) w)),
         [DrawImage sid sx sy sw sh
            (canvas_width (s_canvas s)) (canvas_height (s_canvas s))])
  end.

(** The clean-up at the head of [handleStart], up to
    [await window.electronAPI.getScreenSourceId()]. *)
Definition cleanup (w : State) : State * list Output :=
  let (w, o) :=
    match recorder_active w with
    | Some r => (recorder_stop r w, [Log StoppingPrevious])
    | None => (w, [])
    end in
  let w := match streamRef w with
           | Some tracks => set_streamRef None (stop_tracks tracks w)
           | None => w
           end in
  let w := match animationFrameRef w with
           | Some t => set_animationFrameRef None (clearTimeout t w)
           | None => w
           end in
  (set_chunksRef [] w, o ++ [Log CleanedUp]).

Definition handleStart_begin (rect : Rect) (settings : AppSettings) (w : State)
  : State * list Output :=
  let (w, o) := cleanup w in
  let call := nextId w in
  (set_pendingStarts (<[call := (rect, settings)]> (pendingStarts w))
     (set_nextId (call + 1)%positive w),
   Log (StartingRecording rect) :: o).

(** The audio set-up: the cells [sysStreamRef], [micStreamRef] and
    [audioCtxRef], the track added to the canvas stream, the tracks that
    became live, and the log.  [base] is the first of the ids it may use. *)
Record Audio := {
  a_sys : option (list positive);
  a_mic : option (list positive);
  a_ctx : option positive;
  a_added : list positive;
  a_live : list positive;
  a_log : list Output
}.

Definition audio_setup (settings : AppSettings) (acq : Acquired) (base : positive)
  : Audio :=
  let tMic := base in
  let tSysAudio := (base + 1)%positive in
  let tSysVideo := (base + 2)%positive in
  let tDest := (base + 3)%positive in
  let ctx := (base + 4)%positive in
  match audioSource settings with
  | mic =>
      if micOk acq then
        {| a_sys := None; a_mic := Some [tMic]; a_ctx := None;
           a_added := [tMic]; a_live := [tMic]; a_log := [] |}
      else
        {| a_sys := None; a_mic := None; a_ctx := None;
           a_added := []; a_live := []; a_log := [Log MicFailed] |}
  | system =>
      if sysOk acq then
        match audioCtx acq with
        | CtxThrows =>
            {| a_sys := Some [tSysAudio; tSysVideo]; a_mic := None; a_ctx := None;
               a_added := []; a_live := [tSysAudio; tSysVideo];
               a_log := [Log WebAudioFailed] |}
        | CtxWiringThrows =>
            {| a_sys := Some [tSysAudio; tSysVideo]; a_mic := None; a_ctx := Some ctx;
               a_added := []; a_live := [tSysAudio; tSysVideo];
               a_log := [Log WebAudioFailed] |}
        | CtxOk hasTrack =>
            {| a_sys := Some [tSysAudio; tSysVideo]; a_mic := None; a_ctx := Some ctx;
               a_added := if hasTrack then [tDest] else [];
               a_live := [tSysAudio; tSysVideo] ++ (if hasTrack then [tDest] else []);
               a_log := [] |}
        end
      else
        {| a_sys := None; a_mic := None; a_ctx := None;
           a_added := []; a_live := []; a_log := [Log SystemAudioFailed] |}
  | none =>
      {| a_sys := None; a_mic := None; a_ctx := None;
         a_added := []; a_live := []; a_log := [] |}
  end.

Definition new_session (rect : Rect) (screenStream : list positive) (a : Audio)
  : Session :=
  {| s_rect := rect; s_sourceScale := sourceScale rect;
     s_canvas := new_canvas rect; s_hasCtx := true;
     s_paused := false; s_ended := false;
     s_srcObject := Some screenStream;
     s_screenStream := screenStream;
     s_sysStreamRef := a_sys a; s_micStreamRef := a_mic a;
     s_audioCtxRef := a_ctx a |}.

(** The rest of [handleStart], from the resolution of
    [getScreenSourceId()] to the end of the [try]; an exception ends in the
    [catch], which logs it.  The later awaits ([getUserMedia], [video.play()])
    all come before the assignments to [streamRef], [chunksRef] and
    [mediaRecorderRef], which run without interruption; the step takes them
    as resolved, with the outcomes [acq]. *)
Definition handleStart_resume (call : positive) (acq : Acquired) (w : State)
  : State * list Output :=
  match pendingStarts w !! call with
  | None => (w, [])
  | Some (rect, settings) =>
      let w := set_pendingStarts (delete call (pendingStarts w)) w in
      match sourceId acq with
      | None | Some EmptyString => (w, [Log (WorkerError "No source ID")])
      | Some _ =>
          if negb (screenOk acq) then (w, [Log (WorkerError "getUserMedia")])
          else
            let sid := nextId w in
            let tScreen := (sid + 1)%positive in
            let tCanvas := (sid + 2)%positive in
            let audioBase := (sid + 3)%positive in
            let w := set_nextId (sid + 8)%positive (add_tracks [tScreen] w) in
            let o1 := [Log GetUserMediaSuccess;
                       Log (Scaling (sourceScale rect) outputScale)] in
            if negb (ctxOk acq) then (w, o1 ++ [Log (WorkerError "Canvas context failed")])
            else
              let w := set_videoRef (Some sid) (set_canvasRef (Some (new_canvas rect)) w) in
              if negb (playOk acq) then (w, o1 ++ [Log (WorkerError "play")])
              else
                let a := audio_setup settings acq audioBase in
                let w := set_sessions
                           (<[sid := new_session rect [tScreen] a]> (sessions w)) w in
                let (w, o2) := draw sid w in
                let w := add_tracks (tCanvas :: a_live a) w in
                let w := match a_ctx a with
                         | Some c => set_openAudioCtx (openAudioCtx w ∪ {[c]}) w
                         | None => w
                         end in
                let w := set_streamRef (Some (tCanvas :: a_added a)) w in
                match recorderOutcome acq with
                | CtorThrows =>
                    (w, o1 ++ o2 ++ a_log a ++ [Log (WorkerError "MediaRecorder")])
                | outcome =>
                    let w := set_recorders
                               (<[sid := {| rec_state := inactive; rec_gathered := [] |}]>
                                  (recorders w)) w in
                    let w := set_chunksRef [] w in
                    let w := set_mediaRecorderRef (Some sid) w in
                    match outcome with
                    | Started =>
                        (set_recorders
                           (<[sid := {| rec_state := recording; rec_gathered := [] |}]>
                              (recorders w)) w,
                         o1 ++ o2 ++ a_log a ++ [Log ChunksCleared; Log RecordingStarted])
                    | _ =>
                        (w, o1 ++ o2 ++ a_log a
                            ++ [Log ChunksCleared; Log (WorkerError "start")])
                    end
                end
      end
  end.

(** [recorder.ondataavailable] *)
Definition ondataavailable (r : positive) (bytes : list Byte.byte) (w : State)
  : State * list Output :=
  match bytes with
  | [] => (w, [Log (DataAvailable 0); Log WarnEmptyChunk])
  | _ =>
      let chunks := chunksRef w ++ [{| producer := r; data := bytes |}] in
      (set_chunksRef chunks w,
       [Log (DataAvailable (length bytes)); Log (ChunkAdded (length chunks))])
  end.

(** The end of [recorder.onstop], from [Final chunks count] on: the blob is
    built from the chunk buffer as it is then. *)
Definition finalize (r : positive) (w : State) : State * list Output :=
  (w, [Log (FinalChunksCount (length (chunksRef w)));
       Log (BlobSize (length (buffer_of (chunksRef w))));
       Log (BufferSize (length (buffer_of (chunksRef w))));
       RecordingFinished r (chunksRef w);
       Log SentToMain]).

(** [recorder.onstop], the closure of session [r], up to
    [await audioCtxRef.close()] when there is an audio context, to its end
    otherwise. *)
Definition onstop (r : positive) (w : State) : State * list Output :=
  match sessions w !! r with
  | None => (w, [])
  | Some s =>
      let w := match animationFrameRef w with
               | Some t => clearTimeout t w
               | None => w
               end in
      let w := set_sessions
                 (<[r := {| s_rect := s_rect s; s_sourceScale := s_sourceScale s;
                            s_canvas := s_canvas s; s_hasCtx := s_hasCtx s;
                            s_paused := true; s_ended := s_ended s;
                            s_srcObject := None;
                            s_screenStream := s_screenStream s;
                            s_sysStreamRef := s_sysStreamRef s;
                            s_micStreamRef := s_micStreamRef s;
                            s_audioCtxRef := s_audioCtxRef s |}]> (sessions w)) w in
      let w := stop_tracks (s_screenStream s) w in
      let (w, o1) := match s_sysStreamRef s with
                     | Some tr => (stop_tracks tr w, [Log SystemAudioClosed])
                     | None => (w, [])
                     end in
      let (w, o2) := match s_micStreamRef s with
                     | Some tr => (stop_tracks tr w, [Log MicClosed])
                     | None => (w, [])
                     end in
      match s_audioCtxRef s with
      | Some _ =>
          (set_awaitingClose (awaitingClose w ∪ {[r]}) w,
           Log RecorderStopped :: o1 ++ o2)
      | None =>
          let (w, o3) := finalize r w in
          (w, Log RecorderStopped :: o1 ++ o2 ++ o3)
      end
  end.

(** [onstop] resumed after [audioCtxRef.close()] settled; a rejection is
    swallowed by the [catch]. *)
Definition onstop_resume (r : positive) (closed : bool) (w : State)
  : State * list Output :=
  if decide (r ∈ awaitingClose w) then
    let w := set_awaitingClose (awaitingClose w ∖ {[r]}) w in
    let w := match sessions w !! r with
             | Some s =>
                 match s_audioCtxRef s with
                 | Some c => set_openAudioCtx (openAudioCtx w ∖ {[c]}) w
                 | None => w
                 end
             | None => w
             end in
    let (w, o) := finalize r w in
    (w, (if closed then [Log AudioContextClosed] else []) ++ o)
  else (w, []).

(** The queued stop task of recorder [r]: [dataavailable] with all the data
    gathered, then [stop]. *)
Definition stop_task (r : positive) (w : State) : State * list Output :=
  let bytes := match recorders w !! r with
               | Some rc => rec_gathered rc
               | None => []
               end in
  let w := set_recorders
             (alter (fun rc => {| rec_state := rec_state rc; rec_gathered := [] |})
                    r (recorders w)) w in
  let (w, o1) := ondataavailable r bytes w in
  let (w, o2) := onstop r w in
  (w, o1 ++ o2).

Definition handleStop (w : State) : State * list Output :=
  let o := [Log (HandleStopCalled
                   (match mediaRecorderRef w with
                    | Some r => recorder_state r w
                    | None => None
                    end));
            Log (ChunksCount (length (chunksRef w)))] in
  match recorder_active w with
  | Some r => (recorder_stop r w, o ++ [Log StopCalled])
  | None => (w, o ++ [Log WarnAlreadyInactive])
  end.

Definition set_video (sid : positive) (paused' ended' : bool) (w : State) : State :=
  set_sessions
    (alter (fun s => {| s_rect := s_rect s; s_sourceScale := s_sourceScale s;
                        s_canvas := s_canvas s; s_hasCtx := s_hasCtx s;
                        s_paused := (s_paused s || paused')%bool;
                        s_ended := (s_ended s || ended')%bool;
                        s_srcObject := s_srcObject s;
                        s_screenStream := s_screenStream s;
                        s_sysStreamRef := s_sysStreamRef s;
                        s_micStreamRef := s_micStreamRef s;
                        s_audioCtxRef := s_audioCtxRef s |}) sid (sessions w)) w.

(** The handler run by one task. *)
Definition handle (e : Event) (w : State) : State * list Output :=
  match e with
  | StartRecording rect settings => handleStart_begin rect settings w
  | SourcesAcquired call acq => handleStart_resume call acq w
  | StopRecording => handleStop w
  | TimerFired t =>
      match timers w !! t with
      | Some tm => draw (t_session tm) (clearTimeout t w)
      | None => (w, [])
      end
  | Encoded r bytes =>
      match recorders w !! r with
      | Some {| rec_state := recording; rec_gathered := g |} =>
          (set_recorders
             (<[r := {| rec_state := recording; rec_gathered := g ++ bytes |}]>
                (recorders w)) w, [])
      | _ => (w, [])
      end
  | AudioCtxSettled r closed => onstop_resume r closed w
  | VideoPaused sid => (set_video sid true false w, [])
  | VideoEnded sid => (set_video sid false true w, [])
  end.

(** The stop tasks queued by recorders run in the order they were queued. *)
Fixpoint run_stop_tasks (rs : list positive) (w : State) : State * list Output :=
  match rs with
  | [] => (w, [])
  | r :: rs' =>
      let (w1, o1) := stop_task r w in
      let (w2, o2) := run_stop_tasks rs' w1 in
      (w2, o1 ++ o2)
  end.

(** One turn of the event loop when the stop tasks the handler queued are
    the next tasks to run: the handler, then those stop tasks.  This is the
    order in which nothing else was waiting in the queue; the event loop in
    general is [schedule] below. *)
Definition deliver (w : State) (e : Event) : State * list Output :=
  let (w1, o1) := handle e w in
  let (w2, o2) := run_stop_tasks (tasks w1) (set_tasks [] w1) in
  (w2, o1 ++ o2).

Fixpoint run (w : State) (es : list Event) : State * list Output :=
  match es with
  | [] => (w, [])
  | e :: es' =>
      let (w1, o1) := deliver w e in
      let (w2, o2) := run w1 es' in
      (w2, o1 ++ o2)
  end.

(** A task of the renderer's event loop: the handler of an event, or the
    oldest of the stop tasks the recorders have queued.  A task queued
    before [MediaRecorder.stop()] was called (the continuation of an
    [await] that has settled, a timer, an IPC message) may run before the
    stop task does. *)
Inductive Task :=
| Handle (e : Event)
| NextStopTask.

Definition perform (w : State) (t : Task) : State * list Output :=
  match t with
  | Handle e => handle e w
  | NextStopTask =>
      match tasks w with
      | r :: rest => stop_task r (set_tasks rest w)
      | [] => (w, [])
      end
  end.

(** The tasks [ts] run in that order. *)
Fixpoint schedule (w : State) (ts : list Task) : State * list Output :=
  match ts with
  | [] => (w, [])
  | t :: ts' =>
      let (w1, o1) := perform w t in
      let (w2, o2) := schedule w1 ts' in
      (w2, o1 ++ o2)
  end.

(** The schedule [run] follows on the events [es]: after the handler of
    each event, the stop tasks queued. *)
Fixpoint in_order (w : State) (es : list Event) : list Task :=
  match es with
  | [] => []
  | e :: es' =>
      (Handle e :: repeat NextStopTask (length (tasks (fst (handle e w)))))
        ++ in_order (fst (deliver w e)) es'
  end.

(** The task [t], if it is the continuation of a [handleStart], runs with
    no stop task queued. *)
Definition start_after_stops (w : State) (t : Task) : Prop :=
  match t with
  | Handle (SourcesAcquired _ _) => tasks w = []
  | _ => True
  end.

(** No continuation of a [handleStart] runs in [ts] while a stop task is
    queued: every recorder that was stopped has delivered its data before a
    later start empties the chunk buffer and creates its recorder. *)
Fixpoint stops_run_before_starts (w : State) (ts : list Task) : Prop :=
  match ts with
  | [] => True
  | t :: ts' =>
      start_after_stops w t /\ stops_run_before_starts (fst (perform w t)) ts'
  end.

(** The outputs of a run that hand a buffer to the main process. *)
Definition finished (o : Output) : option (positive * list Chunk) :=
  match o with
  | RecordingFinished r parts => Some (r, parts)
  | _ => None
  end.

(** The loop of session [sid] is running: a timeout calling its [draw] is
    armed. *)
Definition tick_scheduled (sid : positive) (w : State) : Prop :=
  exists t tm, timers w !! t = Some tm /\ t_session tm = sid.

(** The component once mounted. *)
Definition mounted : State :=
  {| mediaRecorderRef := None; streamRef := None; canvasRef := None;
     videoRef := None; animationFrameRef := None; chunksRef := [];
     recorders := ∅; sessions := ∅; liveTracks := ∅; timers := ∅;
     openAudioCtx := ∅; tasks := []; pendingStarts := ∅;
     awaitingClose := ∅; nextId := 1%positive |}.

(** A buffer handed over by recorder [r] holds no chunk of a recorder
    created before [r]. *)
Definition isolated (o : Output) : Prop :=
  match o with
  | RecordingFinished r parts => Forall (fun c => (r <= producer c)%positive) parts
  | _ => True
  end.

(** What holds between two turns of the event loop, of the chunk buffer
    and of the recorders that may still hand over a buffer: the one in
    [mediaRecorderRef] and those whose [onstop] awaits the audio context.
    No chunk buffered is older than any of them, the recorder in the ref is
    the youngest, and all were created from ids below [nextId]. *)
Record Inv (w : State) : Prop := {
  inv_chunks : forall c k,
    In c (chunksRef w) ->
    k ∈ awaitingClose w \/ mediaRecorderRef w = Some k ->
    (k <= producer c)%positive;
  inv_youngest : forall k m,
    k ∈ awaitingClose w -> mediaRecorderRef w = Some m -> (k <= m)%positive;
  inv_ref_fresh : forall m, mediaRecorderRef w = Some m -> (m < nextId w)%positive;
  inv_awaiting_fresh : forall k, k ∈ awaitingClose w -> (k < nextId w)%positive
}.

(** The stop tasks a handler leaves queued are of the recorder in the ref. *)
Definition tasks_of_ref (w : State) : Prop :=
  forall r, In r (tasks w) -> mediaRecorderRef w = Some r.

(** *** Sample inputs *)

Definition sample_rect : Rect :=
  {| rect_x := 100; rect_y := 100; rect_width := 101; rect_height := 51;
     scaleFactor := JsNumber 2 |}.

Definition all_ok : Acquired :=
  {| sourceId := Some "screen:0:0"; screenOk := true; ctxOk := true;
     playOk := true; micOk := true; sysOk := true; audioCtx := CtxOk true;
     recorderOutcome := Started |}.

Definition silent (desktop : string) : AppSettings :=
  {| savePath := desktop; imageFormat := png; videoFormat := mp4;
     audioSource := none; frameRate := 60; shortcutMode := standard |}.

(** A first session recording without audio: call 1, session and recorder
    2, timer 10. *)
Definition first_session : State :=
  fst (run mounted [StartRecording sample_rect (silent "/home/u/Desktop");
                    SourcesAcquired 1 all_ok]).

(** The first session after its video element paused. *)
Definition paused_session : State :=
  fst (deliver first_session (VideoPaused 2)).

(** A second start arriving while the first session records, each stop
    task running as soon as it is queued.  Call 1, session and recorder 2;
    call 11, session and recorder 12. *)
Definition second_start_in_order : list Task :=
  [Handle (StartRecording sample_rect (silent "/home/u/Desktop"));
   Handle (SourcesAcquired 1 all_ok);
   Handle (Encoded 2 [Byte.x01]);
   Handle (StartRecording sample_rect (silent "/home/u/Desktop"));
   NextStopTask;
   Handle (SourcesAcquired 11 all_ok);
   Handle (Encoded 12 [Byte.x02]);
   Handle StopRecording;
   NextStopTask].


End Worker.

(* ===================================================================== *)
(** ** The notification bubble (electron/main.ts, [showNotification]) *)
(* ===================================================================== *)

Module Notify.

Definition notifWidth : Q := 140.
Definition notifHeight : Q := 36.

(** [a < b] on numbers. *)
Definition lt (a b : Q) : bool := negb (Qle_bool b a).

(** The [x] and [y] given to the bubble's window, for a pointer at
    [(mx, my)] on a primary display [width] wide. *)
Definition position (mx my : Q) (width : Z) : Z * Z :=
  let x := (mx - notifWidth / 2)%Q in
  let y := (my - notifHeight - 20)%Q in
  let x := if lt x 10 then 10%Q else x in
  let x := if lt (inject_Z width - 10) (x + notifWidth)
           then (inject_Z width - notifWidth - 10)%Q else x in
  let y := if lt y 10 then (my + 30)%Q else y in
  (Js.Math_round x, Js.Math_round y).

End Notify.

(* ===================================================================== *)
(** ** The application shell (src/App.tsx) *)
(* ===================================================================== *)

Module App.

(** A selection as it crosses to the main process: the same numbers. *)
Definition to_main (rect : Selector.SelectionRect) : Main.Rect :=
  {| Main.rect_x := inject_Z (Selector.x rect);
     Main.rect_y := inject_Z (Selector.y rect);
     Main.rect_width := inject_Z (Selector.width rect);
     Main.rect_height := inject_Z (Selector.height rect) |}.

(** [{ ...rect, scaleFactor: window.devicePixelRatio || 1 }] in
    [handleStartRecording]. *)
Definition rectWithScale (rect : Selector.SelectionRect) (devicePixelRatio : Q)
  : Worker.Rect :=
  {| Worker.rect_x := inject_Z (Selector.x rect);
     Worker.rect_y := inject_Z (Selector.y rect);
     Worker.rect_width := inject_Z (Selector.width rect);
     Worker.rect_height := inject_Z (Selector.height rect);
     Worker.scaleFactor :=
       Worker.JsNumber (if Qeq_bool devicePixelRatio 0 then 1%Q else devicePixelRatio) |}.

End App.

(* ===================================================================== *)
(** ** The recording panel (src/components/RecordingPanel.tsx) *)
(* ===================================================================== *)

Module Panel.

(** [n.toString()] of a natural number. *)
Definition toString (n : nat) : string := NilZero.string_of_uint (Nat.to_uint n).

(** [s.padStart(2, '0')] *)
Definition padStart2 (s : string) : string :=
  match s with
  | EmptyString => "00"
  | String c EmptyString => String "0" s
  | _ => s
  end.

Definition formatTime (seconds : nat) : string :=
  let m := Nat.div seconds 60 in
  let s := Nat.modulo seconds 60 in
  String.append (padStart2 (toString m)) (String ":" (padStart2 (toString s))).

(** The number a decimal numeral stands for, leading zeros allowed. *)
Definition parseNat (s : string) : option nat :=
  option_map Nat.of_uint (NilZero.uint_of_string s).

End Panel.

(* ===================================================================== *)
(** ** Notions used to state the further properties *)
(* ===================================================================== *)

(** The character [c] occurs in [s]. *)
Fixpoint occurs (c : ascii) (s : string) : bool :=
  match s with
  | EmptyString => false
  | String d s' => (Ascii.eqb c d || occurs c s')%bool
  end.

(** The window does not swallow pointer moves: it captures, or passes
    through with forwarding. *)
Definition forwards (c : ClickThrough) : bool :=
  match c with
  | pass_through false => false
  | _ => true
  end.

(** [isRecordingActive] is set in record mode only. *)
Definition active_only_in_record (s : Selector.State) : Prop :=
  Selector.is_record (Selector.mode s) = false -> Selector.isRecordingActive s = false.

(** The worker records with recorder [r], which has gathered [g] and
    delivered nothing yet; its session has no audio context to close. *)
Record Recording (w : Worker.State) (r : positive) (g : list Byte.byte) : Prop := {
  rec_ref : Worker.mediaRecorderRef w = Some r;
  rec_recorder :
    Worker.recorders w !! r
    = Some {| Worker.rec_state := Worker.recording; Worker.rec_gathered := g |};
  rec_session :
    exists s, Worker.sessions w !! r = Some s /\ Worker.s_audioCtxRef s = None;
  rec_chunks : Worker.chunksRef w = [];
  rec_tasks : Worker.tasks w = []
}.

(** The blob parts made of the data [g] of recorder [r]. *)
Definition parts_of (r : positive) (g : list Byte.byte) : list Worker.Chunk :=
  match g with
  | [] => []
  | _ => [{| Worker.producer := r; Worker.data := g |}]
  end.

(** The tracks a session acquired: of the screen stream, the system-audio
    stream and the microphone stream. *)
Definition acquired_tracks (s : Worker.Session) : list positive :=
  Worker.s_screenStream s
  ++ default [] (Worker.s_sysStreamRef s)
  ++ default [] (Worker.s_micStreamRef s).

(** What [handleStart] fixes for a session: the rectangle, the source
    scale, the canvas and the streams. *)
Definition same_constants (s s' : Worker.Session) : Prop :=
  Worker.s_rect s' = Worker.s_rect s
  /\ Worker.s_sourceScale s' = Worker.s_sourceScale s
  /\ Worker.s_canvas s' = Worker.s_canvas s
  /\ Worker.s_hasCtx s' = Worker.s_hasCtx s
  /\ Worker.s_screenStream s' = Worker.s_screenStream s
  /\ Worker.s_sysStreamRef s' = Worker.s_sysStreamRef s
  /\ Worker.s_micStreamRef s' = Worker.s_micStreamRef s
  /\ Worker.s_audioCtxRef s' = Worker.s_audioCtxRef s.

(** A session as [handleStart] creates it: created from an id below
    [nextId], its source scale and its canvas computed from its
    rectangle. *)
Definition session_ok (w : Worker.State) (sid : positive) (s : Worker.Session) : Prop :=
  (sid < Worker.nextId w)%positive
  /\ Worker.s_sourceScale s = Worker.sourceScale (Worker.s_rect s)
  /\ Worker.s_canvas s = Worker.new_canvas (Worker.s_rect s).

Definition sessions_ok (w : Worker.State) : Prop :=
  forall sid s, Worker.sessions w !! sid = Some s -> session_ok w sid s.

(** The frame [o], if it is one of session [sid], crops the rectangle
    [rect] scaled by its source scale and fills the canvas made for
    [rect]. *)
Definition frame_of (sid : positive) (rect : Worker.Rect) (o : Worker.Output) : Prop :=
  match o with
  | Worker.DrawImage sid' sx sy sw sh dw dh =>
      sid' = sid ->
      sx = Js.Math_round (Js.mul (Worker.rect_x rect) (Worker.sourceScale rect))
      /\ sy = Js.Math_round (Js.mul (Worker.rect_y rect) (Worker.sourceScale rect))
      /\ sw = Js.Math_round (Js.mul (Worker.rect_width rect) (Worker.sourceScale rect))
      /\ sh = Js.Math_round (Js.mul (Worker.rect_height rect) (Worker.sourceScale rect))
      /\ dw = Worker.even_floor (Worker.rect_width rect)
      /\ dh = Worker.even_floor (Worker.rect_height rect)
  | _ => True
  end.

(** The frame [o] is one of a session of [w], drawn with the geometry of
    that session. *)
Definition framed (w : Worker.State) (o : Worker.Output) : Prop :=
  match o with
  | Worker.DrawImage sid _ _ _ _ _ _ =>
      exists s, Worker.sessions w !! sid = Some s /\ frame_of sid (Worker.s_rect s) o
  | _ => True
  end.

(** No chunk of the list is empty. *)
Definition all_nonempty (chunks : list Worker.Chunk) : Prop :=
  Forall (fun c => Worker.data c <> []) chunks.

(** The buffer handed over in [o], if any, is made of non-empty chunks. *)
Definition finished_nonempty (o : Worker.Output) : Prop :=
  match o with
  | Worker.RecordingFinished _ parts => all_nonempty parts
  | _ => True
  end.

(** The data event [e] adds to what recorder [r] has encoded. *)
Definition encoded_by (r : positive) (e : Worker.Event) : list Byte.byte :=
  match e with
  | Worker.Encoded r' bytes => if decide (r' = r) then bytes else []
  | _ => []
  end.

(** The tasks that arrive while a session records, between its start and
    the stop: encoded data, ticks of the draw loop, and the video element
    pausing or ending. *)
Definition while_recording (e : Worker.Event) : Prop :=
  match e with
  | Worker.Encoded _ _ | Worker.TimerFired _
  | Worker.VideoPaused _ | Worker.VideoEnded _ => True
  | _ => False
  end.

(** From [w] to [w'] no session is lost, and each keeps what [handleStart]
    fixed for it. *)
Definition keeps_sessions (w w' : Worker.State) : Prop :=
  (Worker.nextId w <= Worker.nextId w')%positive
  /\ forall sid s, Worker.sessions w !! sid = Some s ->
       exists s', Worker.sessions w' !! sid = Some s' /\ same_constants s s'.

(** What holds of the worker between two tasks: its sessions are as
    [handleStart] created them, and no chunk buffered is empty. *)
Definition steady (w : Worker.State) : Prop :=
  sessions_ok w /\ all_nonempty (Worker.chunksRef w).

(** What holds of an output in the state [w] it is produced in. *)
Definition sound (w : Worker.State) (o : Worker.Output) : Prop :=
  framed w o /\ finished_nonempty o.

(** The microphone is asked for and refused. *)
Definition with_mic (desktop : string) : AppSettings :=
  {| savePath := desktop; imageFormat := png; videoFormat := mp4;
     audioSource := mic; frameRate := 60; shortcutMode := standard |}.

Definition mic_denied : Worker.Acquired :=
  {| Worker.sourceId := Some "screen:0:0"; Worker.screenOk := true;
     Worker.ctxOk := true; Worker.playOk := true; Worker.micOk := false;
     Worker.sysOk := true; Worker.audioCtx := Worker.CtxOk true;
     Worker.recorderOutcome := Worker.Started |}.

(** The canvas gives no 2d context. *)
Definition no_context : Worker.Acquired :=
  {| Worker.sourceId := Some "screen:0:0"; Worker.screenOk := true;
     Worker.ctxOk := false; Worker.playOk := true; Worker.micOk := true;
     Worker.sysOk := true; Worker.audioCtx := Worker.CtxOk true;
     Worker.recorderOutcome := Worker.Started |}.

(** The worker after 'start-recording' with [settings], its request for
    the screen source pending as call 1. *)
Definition start_pending (settings : AppSettings) : Worker.State :=
  fst (Worker.deliver Worker.mounted (Worker.StartRecording Worker.sample_rect settings)).

(* ===================================================================== *)
(** * Properties *)
(* ===================================================================== *)

(** ** Rounding *)

Lemma Math_round_nearest (q : Q) : Js.nearest_integer (Js.Math_round q) q.
Proof.
  unfold Js.nearest_integer, Js.Math_round.
  pose proof (Qfloor_le (q + (1 # 2))) as Hle.
  pose proof (Qlt_floor (q + (1 # 2))) as Hlt.
  rewrite inject_Z_plus in Hlt.
  change (inject_Z 1) with 1%Q in Hlt.
  split; lra.
Qed.

Lemma Math_round_unique (q : Q) (n : Z) :
  Js.nearest_integer n q -> Js.Math_round q = n.
Proof.
  intros [Hlo Hhi]. unfold Js.Math_round.
  assert (H1 : (inject_Z n <= q + (1 # 2))%Q) by lra.
  apply Qfloor_resp_le in H1. rewrite Qfloor_Z in H1.
  apply Z.le_antisymm; [| exact H1].
  destruct (Z_lt_le_dec n (Qfloor (q + (1 # 2)))) as [Hgt | Hle]; [| exact Hle].
  exfalso.
  assert (Hn : (n + 1 <= Qfloor (q + (1 # 2)))%Z) by lia.
  pose proof (Qfloor_le (q + (1 # 2))) as Hfl.
  rewrite Zle_Qle, inject_Z_plus in Hn.
  change (inject_Z 1) with 1%Q in Hn.
  lra.
Qed.

Lemma Math_round_comp (q q' : Q) : (q == q')%Q -> Js.Math_round q = Js.Math_round q'.
Proof. intros E. unfold Js.Math_round. apply Qfloor_comp. rewrite E. reflexivity. Qed.

Lemma Math_round_Z (z : Z) : Js.Math_round (inject_Z z) = z.
Proof. apply Math_round_unique. unfold Js.nearest_integer. split; lra. Qed.

(** ** Doubles *)

Lemma pow2_pos (e : Z) : (0 < Js.pow2 e)%Q.
Proof. apply Qpower_0_lt. reflexivity. Qed.

Lemma pow2_plus (a b : Z) : (Js.pow2 (a + b) == Js.pow2 a * Js.pow2 b)%Q.
Proof. apply Qpower_plus. discriminate. Qed.

Lemma pow2_Z (e : Z) : 0 <= e -> (Js.pow2 e == inject_Z (2 ^ e))%Q.
Proof. intros H. unfold Js.pow2. rewrite Zpower_Qpower by exact H. reflexivity. Qed.

Lemma pow2_lt_inv (a b : Z) : (Js.pow2 a < Js.pow2 b)%Q -> a < b.
Proof. intros H. apply (Qpower_lt_compat_l_inv 2); [exact H | reflexivity]. Qed.

Lemma pow2_le (a b : Z) : a <= b -> (Js.pow2 a <= Js.pow2 b)%Q.
Proof. intros H. apply Qpower_le_compat_l; [exact H | discriminate]. Qed.

Lemma log2_bounds (n : Z) :
  0 < n ->
  (Js.pow2 (Z.log2 n) <= inject_Z n)%Q /\ (inject_Z n < Js.pow2 (Z.log2 n + 1))%Q.
Proof.
  intros Hn. destruct (Z.log2_spec n Hn) as [Hlo Hhi].
  pose proof (Z.log2_nonneg n) as Hnn.
  rewrite (pow2_Z _ Hnn), (pow2_Z (Z.log2 n + 1)) by lia.
  rewrite <- Zle_Qle, <- Zlt_Qlt. rewrite <- Z.add_1_r in Hhi. split; assumption.
Qed.

Lemma floor_log2_spec (q : Q) :
  (0 < q)%Q ->
  (Js.pow2 (Js.floor_log2 q) <= q)%Q /\ (q < Js.pow2 (Js.floor_log2 q + 1))%Q.
Proof.
  intros Hq. destruct q as [n d]. unfold Js.floor_log2. cbn [Qnum Qden].
  assert (Hn : 0 < n).
  { unfold Qlt in Hq. cbn in Hq. lia. }
  destruct (log2_bounds n Hn) as [Na Nb].
  destruct (log2_bounds (Zpos d) ltac:(lia)) as [Da Db].
  set (a := Z.log2 n) in *. set (b := Z.log2 (Zpos d)) in *.
  assert (HD : (0 < inject_Z (Zpos d))%Q) by (rewrite <- (Zlt_Qlt 0); lia).
  assert (E : (inject_Z n == (n # d) * inject_Z (Zpos d))%Q).
  { rewrite (Qmake_Qdiv n d). field. intros H. rewrite H in HD. apply (Qlt_irrefl 0 HD). }
  pose proof (pow2_pos b) as Pb. pose proof (pow2_pos (a - b - 1)) as Pk1.
  pose proof (pow2_pos (a - b + 1)) as Pk2.
  assert (Hup : (n # d < Js.pow2 (a - b + 1))%Q).
  { assert (P : (Js.pow2 (a + 1) == Js.pow2 (a - b + 1) * Js.pow2 b)%Q).
    { rewrite <- pow2_plus. replace (a - b + 1 + b) with (a + 1) by lia. reflexivity. }
    rewrite P, E in Nb.
    destruct (Qlt_le_dec (n # d) (Js.pow2 (a - b + 1))) as [H | H]; [exact H |].
    exfalso.
    assert (H1 : (Js.pow2 (a - b + 1) * Js.pow2 b <= (n # d) * inject_Z (Zpos d))%Q).
    { apply Qmult_le_compat_nonneg; split; auto using Qlt_le_weak. }
    apply (Qlt_irrefl ((n # d) * inject_Z (Zpos d))).
    eapply Qlt_le_trans; [exact Nb | exact H1]. }
  assert (Hlo : (Js.pow2 (a - b - 1) < n # d)%Q).
  { assert (P : (Js.pow2 a == Js.pow2 (a - b - 1) * Js.pow2 (b + 1))%Q).
    { rewrite <- pow2_plus. replace (a - b - 1 + (b + 1)) with a by lia. reflexivity. }
    rewrite P, E in Na.
    destruct (Qlt_le_dec (Js.pow2 (a - b - 1)) (n # d)) as [H | H]; [exact H |].
    exfalso.
    assert (H1 : ((n # d) * inject_Z (Zpos d) < Js.pow2 (a - b - 1) * Js.pow2 (b + 1))%Q).
    { apply Qle_lt_trans with (Js.pow2 (a - b - 1) * inject_Z (Zpos d))%Q.
      - apply Qmult_le_compat_r; [exact H | apply Qlt_le_weak; exact HD].
      - rewrite !(Qmult_comm (Js.pow2 (a - b - 1))).
        apply Qmult_lt_compat_r; [exact Pk1 | exact Db]. }
    apply (Qlt_irrefl ((n # d) * inject_Z (Zpos d))).
    eapply Qlt_le_trans; [exact H1 | exact Na]. }
  destruct (Qle_bool (Js.pow2 (a - b)) (n # d)) eqn:C.
  - apply Qle_bool_iff in C. split; [exact C | exact Hup].
  - split; [apply Qlt_le_weak; exact Hlo |].
    replace (a - b - 1 + 1) with (a - b) by lia.
    apply Qnot_le_lt. intros H. apply Qle_bool_iff in H. congruence.
Qed.

Lemma round_half_even_near (r : Q) :
  (inject_Z (Js.round_half_even r) - r <= 1 # 2)%Q
  /\ (r - inject_Z (Js.round_half_even r) <= 1 # 2)%Q.
Proof.
  unfold Js.round_half_even.
  pose proof (Qfloor_le r) as Hle. pose proof (Qlt_floor r) as Hlt.
  rewrite inject_Z_plus in Hlt. change (inject_Z 1) with 1%Q in Hlt.
  destruct (Qcompare (r - inject_Z (Qfloor r)) (1 # 2)) eqn:C.
  - apply Qeq_alt in C. destruct (Z.even (Qfloor r));
      rewrite ?inject_Z_plus; change (inject_Z 1) with 1%Q; split; lra.
  - apply Qlt_alt in C. split; lra.
  - apply Qgt_alt in C. rewrite inject_Z_plus. change (inject_Z 1) with 1%Q. split; lra.
Qed.

Lemma Qabs_within (a b d : Q) :
  (a - b <= d)%Q -> (b - a <= d)%Q -> (Qabs (a - b) <= d)%Q.
Proof. intros H1 H2. apply Qabs_Qle_condition. split; lra. Qed.

(** The relative error of rounding a number in the normal range. *)
Lemma fl_error (q : Q) :
  (Js.pow2 (-1022) <= Qabs q)%Q ->
  (Qabs (Js.fl q - q) <= Qabs q * Js.pow2 (-53))%Q.
Proof.
  intros Hn. pose proof (pow2_pos (-1022)) as P0.
  assert (Ha : (0 < Qabs q)%Q) by (eapply Qlt_le_trans; [exact P0 | exact Hn]).
  assert (Hq : Qeq_bool q 0 = false).
  { destruct (Qeq_bool q 0) eqn:E; [| reflexivity]. apply Qeq_bool_iff in E.
    rewrite E in Ha. exfalso. apply (Qlt_irrefl 0 Ha). }
  unfold Js.fl. rewrite Hq. unfold Js.ulp_exponent.
  destruct (floor_log2_spec (Qabs q) Ha) as [Elo Ehi].
  set (e := Js.floor_log2 (Qabs q)) in *.
  assert (He : -1022 <= e).
  { assert (H : -1022 < e + 1).
    { apply pow2_lt_inv. eapply Qle_lt_trans; [exact Hn | exact Ehi]. }
    lia. }
  rewrite Z.max_l by lia.
  set (T := Js.pow2 (e - 52)).
  assert (HT : (0 < T)%Q) by apply pow2_pos.
  destruct (round_half_even_near (q / T)) as [R1 R2].
  set (m := inject_Z (Js.round_half_even (q / T))) in *.
  assert (Hd : (m * T - q == (m - q / T) * T)%Q).
  { field. intros H. rewrite H in HT. apply (Qlt_irrefl 0 HT). }
  rewrite Hd, Qabs_Qmult, (Qabs_pos T) by (apply Qlt_le_weak; exact HT).
  assert (Hm : (Qabs (m - q / T) <= 1 # 2)%Q) by (apply Qabs_within; assumption).
  assert (Hu : ((1 # 2) * T == Js.pow2 e * Js.pow2 (-53))%Q).
  { unfold T. change (1 # 2)%Q with (Js.pow2 (-1)). rewrite <- !pow2_plus.
    replace (-1 + (e - 52)) with (e + -53) by lia. reflexivity. }
  apply Qle_trans with ((1 # 2) * T)%Q.
  - apply Qmult_le_compat_r; [exact Hm | apply Qlt_le_weak; exact HT].
  - rewrite Hu. apply Qmult_le_compat_r; [exact Elo |].
    apply Qlt_le_weak. apply pow2_pos.
Qed.

Lemma fl_zero (q : Q) : (q == 0)%Q -> Js.fl q = 0%Q.
Proof. intros E. unfold Js.fl. apply Qeq_bool_iff in E. rewrite E. reflexivity. Qed.

Lemma pow2_m53 : (Js.pow2 (-53) == 1 # 9007199254740992)%Q.
Proof. reflexivity. Qed.

(** A pixel coordinate scaled by a quotient of two pixel sizes: the double
    product is within 2^-19 of the exact one. *)
Lemma scaled_error (x W w : Z) :
  0 < w <= 2 ^ 16 -> 0 < W <= 2 ^ 16 -> Z.abs x <= 2 ^ 16 ->
  (Qabs (Js.mul (inject_Z x) (Js.div (inject_Z W) (inject_Z w))
         - inject_Z x * (inject_Z W / inject_Z w)) <= 1 # 524288)%Q.
Proof.
  intros Hw HW Hx. unfold Js.mul, Js.div.
  set (S := (inject_Z W / inject_Z w)%Q).
  assert (Hwq : (1 <= inject_Z w <= 65536)%Q).
  { change 1%Q with (inject_Z 1). change 65536%Q with (inject_Z (2 ^ 16)).
    rewrite <- !Zle_Qle. lia. }
  assert (HWq : (1 <= inject_Z W <= 65536)%Q).
  { change 1%Q with (inject_Z 1). change 65536%Q with (inject_Z (2 ^ 16)).
    rewrite <- !Zle_Qle. lia. }
  assert (HS : ((1 # 65536) <= S <= 65536)%Q).
  { subst S. split.
    - apply Qle_shift_div_l; [lra | lra].
    - apply Qle_shift_div_r; [lra | nra]. }
  assert (HXa : (Qabs (inject_Z x) <= 65536)%Q).
  { change (Qabs (inject_Z x)) with (inject_Z (Z.abs x)).
    change 65536%Q with (inject_Z (2 ^ 16)). rewrite <- Zle_Qle. exact Hx. }
  pose proof (Qabs_nonneg (inject_Z x)) as HX0.
  (* the quotient *)
  assert (N1 : (Js.pow2 (-1022) <= Qabs S)%Q).
  { rewrite Qabs_pos by lra. apply Qle_trans with (Js.pow2 (-16)).
    - apply pow2_le. lia.
    - change (Js.pow2 (-16)) with (1 # 65536)%Q. lra. }
  pose proof (fl_error S N1) as E1. rewrite pow2_m53, (Qabs_pos S) in E1 by lra.
  set (S' := Js.fl S) in *.
  apply Qabs_Qle_condition in E1. destruct E1 as [E1a E1b].
  assert (HS' : ((1 # 131072) <= S' <= 65537)%Q) by (split; nra).
  assert (E1 : (Qabs (S' - S) <= 1 # 137438953472)%Q).
  { apply Qabs_Qle_condition. split; nra. }
  (* the product *)
  assert (D1 : (Qabs (inject_Z x * S' - inject_Z x * S) <= 1 # 2097152)%Q).
  { assert (Ed : (inject_Z x * S' - inject_Z x * S == inject_Z x * (S' - S))%Q) by ring.
    rewrite Ed, Qabs_Qmult.
    apply Qle_trans with (65536 * (1 # 137438953472))%Q; [| lra].
    apply Qmult_le_compat_nonneg; split;
      [exact HX0 | exact HXa | apply Qabs_nonneg | exact E1]. }
  assert (HP : (Qabs (inject_Z x * S') <= 4295032832)%Q).
  { rewrite Qabs_Qmult, (Qabs_pos S') by lra.
    apply Qle_trans with (65536 * 65537)%Q; [| lra].
    apply Qmult_le_compat_nonneg; split; [exact HX0 | exact HXa | lra | lra]. }
  assert (D2 : (Qabs (Js.fl (inject_Z x * S') - inject_Z x * S') <= 1 # 2000000)%Q).
  { destruct (Z.eq_dec x 0) as [-> | Hne].
    - rewrite (fl_zero (inject_Z 0 * S')) by ring.
      change (inject_Z 0) with 0%Q. apply Qabs_Qle_condition. split; lra.
    - assert (HX1 : (1 <= Qabs (inject_Z x))%Q).
      { change (Qabs (inject_Z x)) with (inject_Z (Z.abs x)).
        change 1%Q with (inject_Z 1). rewrite <- Zle_Qle. lia. }
      assert (N2 : (Js.pow2 (-1022) <= Qabs (inject_Z x * S'))%Q).
      { rewrite Qabs_Qmult, (Qabs_pos S') by lra.
        apply Qle_trans with (Js.pow2 (-17)); [apply pow2_le; lia |].
        change (Js.pow2 (-17)) with (1 # 131072)%Q. nra. }
      pose proof (fl_error _ N2) as E2. rewrite pow2_m53 in E2.
      eapply Qle_trans; [exact E2 |]. nra. }
  set (P := (inject_Z x * S')%Q) in *. set (p := (inject_Z x * S)%Q) in *.
  assert (Et : (Js.fl P - p == (Js.fl P - P) + (P - p))%Q) by ring.
  rewrite Et. eapply Qle_trans; [apply Qabs_triangle |]. lra.
Qed.

(** Two fractions with the denominator [2 w] that differ, differ by at
    least [1 / (2 w)]. *)
Lemma half_gap (a b w : Z) (p : Q) :
  0 < w ->
  (p * (2 * inject_Z w) == inject_Z a)%Q ->
  (inject_Z b * inject_Z w < inject_Z a)%Q ->
  (1 <= (p * 2 - inject_Z b) * inject_Z w)%Q.
Proof.
  intros Hw Hp Hlt.
  rewrite <- inject_Z_mult, <- Zlt_Qlt in Hlt.
  assert (H : b * w + 1 <= a) by lia.
  rewrite Zle_Qle, inject_Z_plus, inject_Z_mult in H. change (inject_Z 1) with 1%Q in H.
  rewrite <- Hp in H. lra.
Qed.

(** A whole pixel coordinate scaled as the handlers do it, against the
    exact scaled coordinate [p]: the result is an integer nearest to [p]; it
    is the one [Math.round] gives for [p] itself unless [p] is half-way
    between two integers, where it may be the lower one. *)
Lemma round_scaled (x W w : Z) :
  0 < w <= 2 ^ 16 -> 0 < W <= 2 ^ 16 -> Z.abs x <= 2 ^ 16 ->
  Js.closest_integer
    (Js.Math_round (Js.mul (inject_Z x) (Js.div (inject_Z W) (inject_Z w))))
    (inject_Z x * (inject_Z W / inject_Z w)).
Proof.
  intros Hw HW Hx. unfold Js.closest_integer.
  set (n := Js.Math_round (Js.mul (inject_Z x) (Js.div (inject_Z W) (inject_Z w)))).
  set (p := (inject_Z x * (inject_Z W / inject_Z w))%Q).
  pose proof (scaled_error x W w Hw HW Hx) as He.
  fold p in He.
  destruct (Math_round_nearest (Js.mul (inject_Z x) (Js.div (inject_Z W) (inject_Z w))))
    as [Blo Bhi].
  fold n in Blo, Bhi.
  set (p' := Js.mul (inject_Z x) (Js.div (inject_Z W) (inject_Z w))) in *.
  apply Qabs_Qle_condition in He. destruct He as [He1 He2].
  assert (Hwq : (1 <= inject_Z w <= 65536)%Q).
  { change 1%Q with (inject_Z 1). change 65536%Q with (inject_Z (2 ^ 16)).
    rewrite <- !Zle_Qle. lia. }
  assert (Hp : (p * (2 * inject_Z w) == inject_Z (2 * x * W))%Q).
  { subst p. rewrite !inject_Z_mult. change (inject_Z 2) with 2%Q. field. lra. }
  assert (Hhi : (p <= inject_Z n + (1 # 2))%Q).
  { destruct (Qlt_le_dec (inject_Z n + (1 # 2)) p) as [Hgt | Hle]; [| exact Hle].
    exfalso.
    assert (G : (1 <= (p * 2 - inject_Z (2 * n + 1)) * inject_Z w)%Q).
    { apply (half_gap (2 * x * W)); [lia | exact Hp |].
      rewrite <- Hp, inject_Z_plus, inject_Z_mult.
      change (inject_Z 2) with 2%Q. change (inject_Z 1) with 1%Q. nra. }
    rewrite inject_Z_plus, inject_Z_mult in G.
    change (inject_Z 2) with 2%Q in G. change (inject_Z 1) with 1%Q in G. nra. }
  assert (Hlo : (inject_Z n - (1 # 2) <= p)%Q).
  { destruct (Qlt_le_dec p (inject_Z n - (1 # 2))) as [Hgt | Hle]; [| exact Hle].
    exfalso.
    assert (Hp' : ((- p) * (2 * inject_Z w) == inject_Z (- (2 * x * W)))%Q).
    { rewrite inject_Z_opp, <- Hp. ring. }
    assert (G : (1 <= ((- p) * 2 - inject_Z (1 + (-2) * n)) * inject_Z w)%Q).
    { apply (half_gap (- (2 * x * W))); [lia | exact Hp' |].
      rewrite <- Hp', inject_Z_plus, inject_Z_mult.
      change (inject_Z (-2)) with (-2)%Q. change (inject_Z 1) with 1%Q. nra. }
    rewrite inject_Z_plus, inject_Z_mult in G.
    change (inject_Z (-2)) with (-2)%Q in G. change (inject_Z 1) with 1%Q in G. nra. }
  split; [split; assumption |].
  destruct (Qlt_le_dec p (inject_Z n + (1 # 2))) as [Hlt | Hge].
  - left. symmetry. apply Math_round_unique. split; [exact Hlo | exact Hlt].
  - right. apply Qle_antisym; assumption.
Qed.

Lemma floor_log2_unique (q : Q) (e : Z) :
  (Js.pow2 e <= q)%Q -> (q < Js.pow2 (e + 1))%Q -> Js.floor_log2 q = e.
Proof.
  intros Hlo Hhi.
  assert (Hq : (0 < q)%Q) by (eapply Qlt_le_trans; [apply pow2_pos | exact Hlo]).
  destruct (floor_log2_spec q Hq) as [Flo Fhi].
  set (f := Js.floor_log2 q) in *.
  assert (H1 : f < e + 1).
  { apply pow2_lt_inv. eapply Qle_lt_trans; [exact Flo | exact Hhi]. }
  assert (H2 : e < f + 1).
  { apply pow2_lt_inv. eapply Qle_lt_trans; [exact Hlo | exact Fhi]. }
  lia.
Qed.

Lemma floor_log2_comp (q q' : Q) :
  (0 < q)%Q -> (q == q')%Q -> Js.floor_log2 q' = Js.floor_log2 q.
Proof.
  intros Hq E. destruct (floor_log2_spec q Hq) as [Flo Fhi].
  apply floor_log2_unique; rewrite <- E; assumption.
Qed.

Lemma round_half_even_Z (r : Q) (m : Z) :
  (r == inject_Z m)%Q -> Js.round_half_even r = m.
Proof.
  intros E. unfold Js.round_half_even.
  assert (F : Qfloor r = m) by (rewrite (Qfloor_comp _ _ E); apply Qfloor_Z).
  rewrite F.
  assert (C : Qcompare (r - inject_Z m) (1 # 2) = Lt).
  { apply Qlt_alt. assert (H : (r - inject_Z m == 0)%Q) by (rewrite E; ring). rewrite H. reflexivity. }
  rewrite C. reflexivity.
Qed.

(** A whole number of at most 53 bits is a double. *)
Lemma fl_Z (q : Q) (z : Z) :
  (q == inject_Z z)%Q -> Z.abs z <= 2 ^ 53 -> (Js.fl q == inject_Z z)%Q.
Proof.
  intros E Hz. unfold Js.fl.
  destruct (Qeq_bool q 0) eqn:Z0.
  - apply Qeq_bool_iff in Z0. rewrite <- E, Z0. reflexivity.
  - assert (Hne : z <> 0).
    { intros ->. apply Qeq_bool_neq in Z0. apply Z0. exact E. }
    assert (Ha : (Qabs q == inject_Z (Z.abs z))%Q).
    { rewrite E. reflexivity. }
    assert (Hpos : (0 < inject_Z (Z.abs z))%Q).
    { rewrite <- (Zlt_Qlt 0). lia. }
    unfold Js.ulp_exponent.
    rewrite (floor_log2_comp (inject_Z (Z.abs z)) (Qabs q) Hpos) by (symmetry; exact Ha).
    destruct (floor_log2_spec _ Hpos) as [Flo Fhi].
    set (e := Js.floor_log2 (inject_Z (Z.abs z))) in *.
    assert (He0 : 0 <= e).
    { assert (H : 0 < e + 1).
      { apply pow2_lt_inv. eapply Qle_lt_trans; [| exact Fhi].
        change (Js.pow2 0) with (inject_Z 1). rewrite <- Zle_Qle. lia. }
      lia. }
    assert (He53 : e <= 53).
    { assert (H : e < 54).
      { apply pow2_lt_inv. eapply Qle_lt_trans; [exact Flo |].
        rewrite (pow2_Z 54) by lia. rewrite <- Zlt_Qlt. lia. }
      lia. }
    rewrite Z.max_l by lia.
    destruct (Z.eq_dec e 53) as [E53 | N53].
    + (* |z| = 2^53 *)
      assert (Hz53 : Z.abs z = 2 ^ 53).
      { rewrite E53, (pow2_Z 53) in Flo by lia. rewrite <- Zle_Qle in Flo. lia. }
      rewrite E53. change (53 - 52) with 1. change (Js.pow2 1) with 2%Q.
      assert (Hd : exists m, z = 2 * m).
      { destruct (Z.abs_eq_or_opp z) as [A | A]; rewrite A in Hz53.
        - exists (2 ^ 52). rewrite Hz53. reflexivity.
        - exists (- 2 ^ 52). lia. }
      destruct Hd as [m ->].
      rewrite (round_half_even_Z _ m).
      * rewrite inject_Z_mult. change (inject_Z 2) with 2%Q. ring.
      * rewrite E, inject_Z_mult. change (inject_Z 2) with 2%Q. field.
    + assert (Hu : (Js.pow2 (e - 52) * inject_Z (2 ^ (52 - e)) == 1)%Q).
      { rewrite <- (pow2_Z (52 - e)) by lia. rewrite <- pow2_plus.
        replace (e - 52 + (52 - e)) with 0 by lia. reflexivity. }
      pose proof (pow2_pos (e - 52)) as Pu.
      rewrite (round_half_even_Z _ (z * 2 ^ (52 - e))).
      * rewrite inject_Z_mult, <- Qmult_assoc, (Qmult_comm (inject_Z (2 ^ (52 - e)))), Hu.
        ring.
      * rewrite E, inject_Z_mult.
        apply (Qmult_inj_r _ _ (Js.pow2 (e - 52))); [lra |].
        rewrite <- Qmult_assoc, (Qmult_comm (inject_Z (2 ^ (52 - e)))), Hu.
        field. lra.
Qed.

(** When the image is a whole multiple [k] of the display, the quotient
    and the product are computed without error. *)
Lemma round_scaled_exact (x k w : Z) :
  0 < w -> Z.abs k <= 2 ^ 53 -> Z.abs (k * x) <= 2 ^ 53 ->
  Js.Math_round (Js.mul (inject_Z x) (Js.div (inject_Z (k * w)) (inject_Z w))) = k * x.
Proof.
  intros Hw Hk Hx. unfold Js.mul, Js.div.
  assert (Hq : (inject_Z (k * w) / inject_Z w == inject_Z k)%Q).
  { rewrite inject_Z_mult. field. intros E.
    apply (inject_Z_injective w 0) in E. lia. }
  pose proof (fl_Z _ k Hq Hk) as Hd.
  assert (Hp : (inject_Z x * Js.fl (inject_Z (k * w) / inject_Z w) == inject_Z (k * x))%Q).
  { rewrite Hd, inject_Z_mult. ring. }
  rewrite (Math_round_comp _ _ (fl_Z _ (k * x) Hp Hx)).
  apply Math_round_Z.
Qed.

(** ** Still capture *)

(** C3. In [capture-region] the rectangle handed to [img.crop] is the
    selection scaled componentwise by image size over display size
    ([scaleX], [scaleY]) and rounded: [Math.round(x * scaleX)] and so on,
    in the arithmetic of JavaScript numbers.  For a selection in whole
    pixels, sizes and coordinates up to 65536, each coordinate is an
    integer nearest to the exact scaled coordinate: the one [Math.round]
    gives for it, or, when the exact value is half-way between two
    integers, possibly the lower of the two.  When the image is twice the
    display, the selection (100,100,200,150) is cropped at
    (200,200,400,300). *)
Theorem C3_crop_rect_is_selection_scaled_and_rounded
    (st : Main.State) (env : Main.CaptureEnv) (rect : Main.Rect) (imgSize : Main.Size) :
  let width := Main.bounds_width (Main.display env) in
  let height := Main.bounds_height (Main.display env) in
  let imgW := Main.size_width imgSize in
  let imgH := Main.size_height imgSize in
  Main.getSources env
    (Js.mul (inject_Z width) (Main.scaleFactor (Main.display env)),
     Js.mul (inject_Z height) (Main.scaleFactor (Main.display env))) = Some imgSize ->
  let c := Main.cropRect width height imgSize rect in
  Main.clipboardImage (fst (Main.capture_region st env rect clipboard))
    = Some {| Main.source := imgSize; Main.region := c |}
  /\ c = {| Main.crop_x :=
              Js.Math_round (Js.mul (Main.rect_x rect)
                                    (Js.div (inject_Z imgW) (inject_Z width)));
            Main.crop_y :=
              Js.Math_round (Js.mul (Main.rect_y rect)
                                    (Js.div (inject_Z imgH) (inject_Z height)));
            Main.crop_width :=
              Js.Math_round (Js.mul (Main.rect_width rect)
                                    (Js.div (inject_Z imgW) (inject_Z width)));
            Main.crop_height :=
              Js.Math_round (Js.mul (Main.rect_height rect)
                                    (Js.div (inject_Z imgH) (inject_Z height))) |}
  /\ (forall x y w h : Z,
        rect = {| Main.rect_x := inject_Z x; Main.rect_y := inject_Z y;
                  Main.rect_width := inject_Z w; Main.rect_height := inject_Z h |} ->
        0 < width <= 2 ^ 16 -> 0 < height <= 2 ^ 16 ->
        0 < imgW <= 2 ^ 16 -> 0 < imgH <= 2 ^ 16 ->
        0 <= x <= 2 ^ 16 -> 0 <= y <= 2 ^ 16 -> 0 <= w <= 2 ^ 16 -> 0 <= h <= 2 ^ 16 ->
        Js.closest_integer (Main.crop_x c) (inject_Z x * (inject_Z imgW / inject_Z width))
        /\ Js.closest_integer (Main.crop_y c)
             (inject_Z y * (inject_Z imgH / inject_Z height))
        /\ Js.closest_integer (Main.crop_width c)
             (inject_Z w * (inject_Z imgW / inject_Z width))
        /\ Js.closest_integer (Main.crop_height c)
             (inject_Z h * (inject_Z imgH / inject_Z height)))
  /\ (0 < width -> 0 < height -> imgW = 2 * width -> imgH = 2 * height ->
      rect = {| Main.rect_x := 100; Main.rect_y := 100;
                Main.rect_width := 200; Main.rect_height := 150 |} ->
      c = {| Main.crop_x := 200; Main.crop_y := 200;
             Main.crop_width := 400; Main.crop_height := 300 |}).
Proof.
  intros width height imgW imgH Hsrc c.
  split.
  { unfold Main.capture_region. fold width height. rewrite Hsrc. reflexivity. }
  split; [reflexivity |].
  split.
  - intros x y w h -> Hw Hh HW HH Hx Hy Hw' Hh'. subst c.
    unfold Main.cropRect, Main.scaleX, Main.scaleY.
    cbn [Main.crop_x Main.crop_y Main.crop_width Main.crop_height
         Main.rect_x Main.rect_y Main.rect_width Main.rect_height].
    fold imgW imgH.
    repeat split; apply round_scaled; solve [assumption | lia].
  - intros Hw Hh EW EH ->. subst c. unfold Main.cropRect, Main.scaleX, Main.scaleY.
    fold imgW imgH. rewrite EW, EH.
    cbn [Main.rect_x Main.rect_y Main.rect_width Main.rect_height].
    change 100%Q with (inject_Z 100). change 200%Q with (inject_Z 200).
    change 150%Q with (inject_Z 150).
    rewrite !round_scaled_exact by (cbn; lia).
    reflexivity.
Qed.

(** On a 1920x1080 display captured at 3840x2160. *)
Lemma C3_witness :
  Main.cropRect 1920 1080 {| Main.size_width := 3840; Main.size_height := 2160 |}
    Main.sample_rect
  = {| Main.crop_x := 200; Main.crop_y := 200;
       Main.crop_width := 400; Main.crop_height := 300 |}.
Proof.
  destruct (C3_crop_rect_is_selection_scaled_and_rounded
              (Main.idle (settings "/home/u/Desktop")) Main.retina_env Main.sample_rect
              {| Main.size_width := 3840; Main.size_height := 2160 |} eq_refl)
    as (_ & _ & _ & H).
  apply H; [ simpl; lia | simpl; lia | reflexivity | reflexivity | reflexivity ].
Defined.

(** A tie of the exact scaled coordinate: on a display 1440 wide captured
    1799 wide, the coordinate 720 scales to 899.5 exactly; the quotient
    1799 / 1440 is not a double, the product computed falls just below
    899.5, and the handler crops at 899, the lower of the two nearest
    integers. *)
Lemma tie_of_the_exact_coordinate_rounds_down :
  let c := Main.cropRect 1440 900 {| Main.size_width := 1799; Main.size_height := 1124 |}
             {| Main.rect_x := 720; Main.rect_y := 0;
                Main.rect_width := 16; Main.rect_height := 16 |} in
  Main.crop_x c = 899
  /\ (720 * (1799 / 1440) == 899 + (1 # 2))%Q
  /\ Js.Math_round (720 * (1799 / 1440)) = 900.
Proof. cbv zeta. split; [vm_compute; reflexivity | split; reflexivity]. Qed.

(** ** File names *)

Lemma split_dot_0_replace (s : string) :
  Main.split_dot_0 (Main.replace_colon_dot s) = Main.replace_colon_dot s.
Proof.
  induction s as [| c s IH]; [reflexivity |].
  cbn [Main.replace_colon_dot Main.split_dot_0].
  destruct (Ascii.eqb c ":") eqn:Ec; cbn [orb].
  - cbn. f_equal. exact IH.
  - destruct (Ascii.eqb c ".") eqn:Ed.
    + cbn. f_equal. exact IH.
    + rewrite Ed. f_equal. exact IH.
Qed.

Lemma timestamp_replace (iso : string) :
  Main.timestamp iso = Main.replace_colon_dot iso.
Proof. apply split_dot_0_replace. Qed.

Lemma path_join_inj (dir a b : string) :
  Main.path_join dir a = Main.path_join dir b -> a = b.
Proof.
  unfold Main.path_join. induction dir as [| c dir IH]; intros H.
  - change (String "/" a = String "/" b) in H. congruence.
  - change (String c (String.append dir (String "/" a))
            = String c (String.append dir (String "/" b))) in H.
    apply IH. congruence.
Qed.

Lemma debug_log_is_not_the_recording (st st' : Main.State) (iso iso' ext : string) :
  Main.st_settings st = Main.st_settings st' ->
  Main.debugLogPath st iso <> Main.recording_path st' iso' ext.
Proof.
  unfold Main.debugLogPath, Main.recording_path. intros -> H.
  apply path_join_inj in H. vm_compute in H. discriminate.
Qed.

(** ** Still files *)

(** The tray menu leaves [imageFormat] as it is when the process starts. *)
Lemma updateSettings_imageFormat (c : SettingsChoice) (s : AppSettings) :
  imageFormat (updateSettings c s) = imageFormat s.
Proof. destruct c; reflexivity. Qed.

Lemma configured_png (s : AppSettings) : configured s -> imageFormat s = png.
Proof.
  intros (desktop & choices & ->).
  assert (H : forall s0, imageFormat
                (fold_left (fun s c => updateSettings c s) choices s0) = imageFormat s0).
  { induction choices as [| c choices IH]; intros s0; [reflexivity |].
    cbn [fold_left]. rewrite IH. apply updateSettings_imageFormat. }
  rewrite H. reflexivity.
Qed.

(** C9. With the settings the main process can hold, a file-mode capture
    whose write succeeds returns, and has written the cropped image, in the
    encoding [imageFormat] names, to [screenshot-<timestamp>] with the
    extension [imageFormat] names, under the save directory, the timestamp
    being the ISO time with ':' and '.' replaced by '-'; it touches no other
    file.  The format is png: the handler writes PNG, and nothing sets
    [imageFormat] to another value. *)
Theorem C9_still_files_are_written_in_the_configured_format
    (st : Main.State) (env : Main.CaptureEnv) (rect : Main.Rect) (imgSize : Main.Size) :
  let width := Main.bounds_width (Main.display env) in
  let height := Main.bounds_height (Main.display env) in
  configured (Main.st_settings st) ->
  Main.getSources env
    (Js.mul (inject_Z width) (Main.scaleFactor (Main.display env)),
     Js.mul (inject_Z height) (Main.scaleFactor (Main.display env))) = Some imgSize ->
  Main.writeOk env = true ->
  let format := imageFormat (Main.st_settings st) in
  let name := String.append "screenshot-"
                (String.append (Main.replace_colon_dot (Main.now env))
                               (Main.extension_of format)) in
  let path := Main.path_join (savePath (Main.st_settings st)) name in
  let st' := fst (Main.capture_region st env rect file) in
  snd (Main.capture_region st env rect file) = Js.Returned "success"
  /\ Main.fs st' !! path
     = Some (Main.EncodedImage (Main.encoding_of format)
               {| Main.source := imgSize;
                  Main.region := Main.cropRect width height imgSize rect |})
  /\ (forall other, other <> path -> Main.fs st' !! other = Main.fs st !! other)
  /\ Main.written_in_configured_format st env rect
  /\ format = png.
Proof.
  intros width height Hcfg Hsrc Hw.
  pose proof (configured_png _ Hcfg) as Hpng.
  cbv zeta. rewrite !Hpng. cbn [Main.extension_of Main.encoding_of].
  fold width height.
  set (name := String.append "screenshot-"
                 (String.append (Main.replace_colon_dot (Main.now env)) ".png")).
  set (path := Main.path_join (savePath (Main.st_settings st)) name).
  set (st' := fst (Main.capture_region st env rect file)).
  assert (Hpath : Main.screenshot_path (Main.closeSelectorWindow st) (Main.now env) = path).
  { unfold Main.screenshot_path, path, name. rewrite timestamp_replace. reflexivity. }
  assert (Hrun : Main.capture_region st env rect file
                 = (Main.showNotification Main.Saved
                      (Main.writeFileSync path
                         (Main.EncodedImage Main.PNG
                            {| Main.source := imgSize;
                               Main.region := Main.cropRect width height imgSize rect |})
                         (Main.closeSelectorWindow st)),
                    Js.Returned "success")).
  { unfold Main.capture_region. fold width height. rewrite Hsrc, Hw, Hpath. reflexivity. }
  subst st'. rewrite Hrun. cbn [fst snd Main.fs Main.showNotification Main.writeFileSync
                                Main.closeSelectorWindow].
  split; [reflexivity |]. split; [apply lookup_insert_eq |].
  split; [| split; [| reflexivity]].
  - intros other Hne. apply lookup_insert_ne. congruence.
  - unfold Main.written_in_configured_format. rewrite Hrun.
    cbn [fst Main.fs Main.showNotification Main.writeFileSync Main.closeSelectorWindow].
    unfold Main.configured_path. rewrite Hpng. cbn [Main.extension_of Main.encoding_of].
    rewrite timestamp_replace. fold name. fold path.
    eexists. apply lookup_insert_eq.
Qed.

(** With the settings at start-up after two choices in the tray menu, on
    the sample display. *)
Lemma C9_witness :
  let s := updateSettings (ChooseAudioSource mic)
             (updateSettings (ChooseShortcutMode alternative)
                (settings "/home/u/Desktop")) in
  Main.fs (fst (Main.capture_region (Main.idle s) Main.retina_env Main.sample_rect file))
    !! "/home/u/Desktop/screenshot-2024-01-02T03-04-05-678Z.png"
  = Some (Main.EncodedImage Main.PNG
            {| Main.source := {| Main.size_width := 3840; Main.size_height := 2160 |};
               Main.region := {| Main.crop_x := 200; Main.crop_y := 200;
                                 Main.crop_width := 400; Main.crop_height := 300 |} |}).
Proof.
  cbv zeta.
  assert (Hcfg : configured
                   (Main.st_settings
                      (Main.idle
                         (updateSettings (ChooseAudioSource mic)
                            (updateSettings (ChooseShortcutMode alternative)
                               (settings "/home/u/Desktop")))))).
  { exists "/home/u/Desktop", [ChooseShortcutMode alternative; ChooseAudioSource mic].
    reflexivity. }
  pose proof (C9_still_files_are_written_in_the_configured_format
                _ Main.retina_env Main.sample_rect
                {| Main.size_width := 3840; Main.size_height := 2160 |}
                Hcfg eq_refl eq_refl) as H.
  cbv zeta in H. destruct H as (_ & H & _). exact H.
Defined.

(** ** Finalisation *)

(** C5. When the chunk buffer is empty where [onstop] builds the blob, the
    buffer handed over has length zero; and on a missing or zero-length
    buffer [recording-finished] shows the empty-data notification and
    returns, leaving the file system as it was. *)
Theorem C5_empty_recording_is_reported_and_not_written
    (w : Worker.State) (r : positive)
    (st : Main.State) (env : Main.FinishEnv) (buffer : option (list Byte.byte)) :
  (Worker.chunksRef w = [] ->
   exists parts,
     In (Worker.RecordingFinished r parts) (snd (Worker.finalize r w))
     /\ length (Worker.buffer_of parts) = 0%nat
     /\ Main.recording_finished st env (Some (Worker.buffer_of parts))
        = (Main.showNotification Main.RecordingEmpty (Main.set_isRecording false st),
           Js.Returned tt))
  /\ (Main.bufLength buffer = 0 ->
      Main.recording_finished st env buffer
      = (Main.showNotification Main.RecordingEmpty (Main.set_isRecording false st),
         Js.Returned tt)
      /\ Main.fs (fst (Main.recording_finished st env buffer)) = Main.fs st
      /\ Main.notifications (fst (Main.recording_finished st env buffer))
         = Main.notifications st ++ [Main.RecordingEmpty]).
Proof.
  split.
  - intros Hnil. exists []. unfold Worker.finalize. rewrite Hnil.
    split; [cbn; auto |]. split; reflexivity.
  - intros Hlen.
    assert (E : Main.recording_finished st env buffer
                = (Main.showNotification Main.RecordingEmpty
                     (Main.set_isRecording false st), Js.Returned tt)).
    { unfold Main.recording_finished. destruct buffer as [b |]; [| reflexivity].
      rewrite Hlen. reflexivity. }
    rewrite E. repeat split.
Qed.

(** A zero-length buffer arriving at the main process. *)
Lemma C5_witness :
  Main.recording_finished (Main.idle (settings "/home/u/Desktop"))
    Main.failing_ffmpeg_env (Some [])
  = (Main.showNotification Main.RecordingEmpty
       (Main.set_isRecording false (Main.idle (settings "/home/u/Desktop"))),
     Js.Returned tt).
Proof.
  apply (C5_empty_recording_is_reported_and_not_written
           Worker.mounted 1%positive (Main.idle (settings "/home/u/Desktop"))
           Main.failing_ffmpeg_env (Some [])).
  reflexivity.
Defined.

(** C10. When the recording is not empty, the .webm is written and the
    format is mp4, a failing transcode leaves the .webm on disk with the
    bytes received, ends with the conversion-failed notification, and the
    handler returns. *)
Theorem C10_failed_transcode_keeps_the_webm
    (st : Main.State) (env : Main.FinishEnv) (bytes : list Byte.byte) (message : string) :
  bytes <> [] ->
  Main.fin_writeOk env = true ->
  videoFormat (Main.st_settings st) = mp4 ->
  Main.fin_ffmpeg env = Main.FfmpegError message ->
  let st' := fst (Main.recording_finished st env (Some bytes)) in
  snd (Main.recording_finished st env (Some bytes)) = Js.Returned tt
  /\ Main.fs st' !! Main.recording_path st (Main.fin_now env) ".webm"
     = Some (Main.RawBytes bytes)
  /\ Main.notifications st'
     = Main.notifications st
       ++ [Main.SavingWriting; Main.SavingTranscoding; Main.TranscodeFailedWebMKept]
  /\ Main.isRecording st' = false.
Proof.
  intros Hne Hw Hfmt Hff st'. subst st'.
  unfold Main.recording_finished.
  assert (Hlen : (Main.bufLength (Some bytes) =? 0) = false).
  { destruct bytes; [congruence |]. cbn [Main.bufLength length].
    apply Z.eqb_neq. lia. }
  rewrite Hlen, Hw. cbn [negb].
  cbn [Main.st_settings Main.writeFileSync Main.showNotification Main.set_isRecording].
  rewrite Hfmt, Hff.
  cbn [fst snd]. split; [reflexivity |].
  unfold Main.logDebug, Main.failedAppendFileSync.
  destruct (Main.fin_appendOk env); [| destruct (Main.fin_appendFailure env)];
    cbn [Main.fs Main.notifications Main.isRecording Main.showNotification
         Main.appendFileSync Main.writeFileSync Main.st_settings].
  - split.
    + rewrite lookup_insert_ne.
      * apply lookup_insert_eq.
      * apply debug_log_is_not_the_recording. reflexivity.
    + split; [| reflexivity]. rewrite <- !app_assoc. reflexivity.
  - split; [apply lookup_insert_eq |].
    split; [| reflexivity]. rewrite <- !app_assoc. reflexivity.
  - split.
    + rewrite lookup_insert_ne.
      * apply lookup_insert_eq.
      * apply debug_log_is_not_the_recording. reflexivity.
    + split; [| reflexivity]. rewrite <- !app_assoc. reflexivity.
Qed.

(** One byte recorded, ffmpeg exiting with an error. *)
Lemma C10_witness :
  Main.fs (fst (Main.recording_finished (Main.idle (settings "/home/u/Desktop"))
                  Main.failing_ffmpeg_env (Some [Byte.x78])))
    !! Main.recording_path (Main.idle (settings "/home/u/Desktop"))
         "2024-01-02T03:04:05.678Z" ".webm"
  = Some (Main.RawBytes [Byte.x78]).
Proof.
  apply (C10_failed_transcode_keeps_the_webm
           (Main.idle (settings "/home/u/Desktop")) Main.failing_ffmpeg_env
           [Byte.x78] "ffmpeg exited with code 1");
    [ discriminate | reflexivity | reflexivity | reflexivity ].
Defined.

(** ** Click-through of the overlay *)

Section ClickThrough.

Import Selector.

Lemma step_unfold (s : State) (e : Event) :
  step s e = (fst (commit s (fst (handle e s))),
              snd (handle e s) ++ snd (commit s (fst (handle e s)))).
Proof.
  unfold step. destruct (handle e s) as [s1 a1]. cbn [fst snd].
  destruct (commit s s1) as [s2 a2]. reflexivity.
Qed.

Lemma effect_policy (s : State) (w : ClickThrough) :
  apply_action w (clickThroughEffect s)
  = policy (mode s) (isRecordingActive s) (hasBackdrop s).
Proof.
  unfold clickThroughEffect, policy.
  destruct (mode s), (isRecordingActive s), (hasBackdrop s); reflexivity.
Qed.

Lemma mode_eqb_eq (a b : Mode) : mode_eqb a b = true <-> a = b.
Proof. destruct a, b; cbn; split; congruence. Qed.

Lemma url_eqb_eq (a b : option string) : url_eqb a b = true <-> a = b.
Proof.
  destruct a as [u |], b as [v |]; cbn; try (split; congruence).
  rewrite String.eqb_eq. split; congruence.
Qed.

Lemma deps_unchanged (prev cur : State) :
  clickThroughDepsChanged prev cur = false ->
  mode prev = mode cur
  /\ isRecordingActive prev = isRecordingActive cur
  /\ hasBackdrop prev = hasBackdrop cur.
Proof.
  unfold clickThroughDepsChanged. intros H.
  apply negb_false_iff in H.
  apply andb_true_iff in H as [H Hu]. apply andb_true_iff in H as [Hm Ha].
  apply mode_eqb_eq in Hm. apply url_eqb_eq in Hu. apply Bool.eqb_prop in Ha.
  unfold hasBackdrop. rewrite Hu. auto.
Qed.

Lemma deps_refl (s : State) : clickThroughDepsChanged s s = false.
Proof.
  unfold clickThroughDepsChanged. apply negb_false_iff.
  rewrite !andb_true_iff. repeat split.
  - apply mode_eqb_eq. reflexivity.
  - apply Bool.eqb_reflx.
  - apply url_eqb_eq. reflexivity.
Qed.

(** After the effects of a render the window agrees with the policy if it
    did before, and nothing is requested when no dependency changed. *)
Lemma commit_consistent (prev cur : State) (w : ClickThrough) :
  w = policy (mode prev) (isRecordingActive prev) (hasBackdrop prev) ->
  let cur' := fst (commit prev cur) in
  fold_left apply_action (snd (commit prev cur)) w
  = policy (mode cur') (isRecordingActive cur') (hasBackdrop cur').
Proof.
  intros Hw. unfold commit. cbn [fst snd].
  destruct (clickThroughDepsChanged prev cur) eqn:D1.
  - set (cur' := if mode_eqb (mode prev) (mode cur) then cur else resetEffect cur).
    destruct (clickThroughDepsChanged cur cur') eqn:D2.
    + cbn. apply effect_policy.
    + cbn. rewrite effect_policy.
      apply deps_unchanged in D2 as (-> & -> & ->). reflexivity.
  - pose proof (deps_unchanged _ _ D1) as (Hm & Ha & Hb).
    assert (Em : mode_eqb (mode prev) (mode cur) = true) by (apply mode_eqb_eq; exact Hm).
    rewrite Em, deps_refl. cbn. rewrite Hw, Hm, Ha, Hb. reflexivity.
Qed.

Lemma commit_same (s : State) : commit s s = (s, []).
Proof.
  unfold commit.
  assert (Em : mode_eqb (mode s) (mode s) = true) by (apply mode_eqb_eq; reflexivity).
  rewrite Em, deps_refl. reflexivity.
Qed.



(** Only the two hover handlers ask for a mouse state themselves. *)
Lemma handle_leaves_window (e : Event) (s : State) (w : ClickThrough) :
  is_hover e = false -> fold_left apply_action (snd (handle e s)) w = w.
Proof.
  destruct e; cbn [is_hover handle snd]; intros H; try discriminate; try reflexivity.
  - unfold handleMouseUp.
    destruct (negb (button =? 0) || negb (isSelecting s))%bool; [reflexivity |].
    destruct (selection s) as [sel |]; [| reflexivity].
    destruct ((width sel >? 5) && (height sel >? 5))%bool; [| reflexivity].
    unfold captureAndFinish.
    destruct (mode s); cbn [snd]; try reflexivity;
      destruct ((width sel <? 5) || (height sel <? 5))%bool; reflexivity.
  - destruct (String.eqb key "Escape"); reflexivity.
  - destruct (controlBarRendered s); [| reflexivity].
    unfold handleStartRecording.
    destruct (selection s); [| reflexivity].
    destruct (hasOnStartRecording s); reflexivity.
  - destruct (controlBarRendered s); reflexivity.
  - destruct (screenshotUrl s) as [[| c u] |]; reflexivity.
Qed.

Lemma run_unfold (o : Overlay) (e : Event) :
  run o e = {| comp := fst (step (comp o) e);
               win := fold_left apply_action (snd (step (comp o) e)) (win o) |}.
Proof. unfold run. destruct (step (comp o) e). reflexivity. Qed.


Lemma mount_consistent (m : Mode) (onStart : bool) : consistent (mount m onStart).
Proof. destruct m; reflexivity. Qed.

End ClickThrough.




(** ** Minimum selection size *)

Section Drag.

Import Selector.

Variables (s : State) (x0 y0 x1 y1 : Z).

(** The state a drag leaves, and what it called on the way. *)
Lemma drag_actions :
  actions s (drag x0 y0 x1 y1)
  = snd (handleMouseUp 0
           (handleMouseMove x1 y1 (handleMouseDown 0 x0 y0 s))).
Proof.
  unfold drag, actions. rewrite !step_unfold. cbn [handle fst snd].
  set (s1 := handleMouseDown 0 x0 y0 s).
  assert (D1 : commit s s1 = (s1, [])).
  { unfold commit, clickThroughDepsChanged. subst s1. cbn.
    rewrite (proj2 (mode_eqb_eq _ _) eq_refl), Bool.eqb_reflx,
      (proj2 (url_eqb_eq _ _) eq_refl). cbn.
    rewrite (proj2 (mode_eqb_eq _ _) eq_refl), Bool.eqb_reflx,
      (proj2 (url_eqb_eq _ _) eq_refl). reflexivity. }
  rewrite D1. cbn [fst snd app].
  set (s2 := handleMouseMove x1 y1 s1).
  assert (D2 : commit s1 s2 = (s2, [])).
  { unfold commit, clickThroughDepsChanged. subst s2 s1. cbn.
    rewrite (proj2 (mode_eqb_eq _ _) eq_refl), Bool.eqb_reflx,
      (proj2 (url_eqb_eq _ _) eq_refl). cbn.
    rewrite (proj2 (mode_eqb_eq _ _) eq_refl), Bool.eqb_reflx,
      (proj2 (url_eqb_eq _ _) eq_refl). reflexivity. }
  rewrite D2. cbn [fst snd app].
  set (u := handleMouseUp 0 s2).
  assert (D3 : commit s2 (fst u) = (fst u, [])).
  { assert (E : fst u = s2 \/ fst u = set_isSelecting false s2).
    { subst u. unfold handleMouseUp.
      destruct (negb (0 =? 0) || negb (isSelecting s2))%bool; [left; reflexivity |].
      destruct (selection s2) as [sel |]; [| right; reflexivity].
      destruct ((width sel >? 5) && (height sel >? 5))%bool; [| right; reflexivity].
      destruct (mode s2); right; reflexivity. }
    destruct E as [-> | ->]; [apply commit_same |].
    unfold commit, clickThroughDepsChanged. cbn.
    rewrite (proj2 (mode_eqb_eq _ _) eq_refl), Bool.eqb_reflx,
      (proj2 (url_eqb_eq _ _) eq_refl). cbn.
    rewrite (proj2 (mode_eqb_eq _ _) eq_refl), Bool.eqb_reflx,
      (proj2 (url_eqb_eq _ _) eq_refl). reflexivity. }
  rewrite D3. cbn [fst snd]. rewrite !app_nil_r. reflexivity.
Qed.

Lemma drag_mouse_up :
  handleMouseUp 0 (handleMouseMove x1 y1 (handleMouseDown 0 x0 y0 s))
  = let sel := dragged x0 y0 x1 y1 in
    let s' := set_isSelecting false
                (handleMouseMove x1 y1 (handleMouseDown 0 x0 y0 s)) in
    if ((width sel >? 5) && (height sel >? 5))%bool then
      match mode s with
      | record => (s', [])
      | m => (s', captureAndFinish m sel {| px := x0; py := y0 |})
      end
    else (s', []).
Proof. reflexivity. Qed.

(** A drag at most five pixels wide or high calls nothing, ends with no
    selection in progress, and shows no control bar to start a recording
    from. *)
Lemma small_drag_is_discarded :
  Z.abs (x1 - x0) <= 5 \/ Z.abs (y1 - y0) <= 5 ->
  let s' := fst (handleMouseUp 0 (handleMouseMove x1 y1 (handleMouseDown 0 x0 y0 s))) in
  actions s (drag x0 y0 x1 y1) = []
  /\ isSelecting s' = false
  /\ controlBarRendered s' = false.
Proof.
  intros H. rewrite drag_actions, drag_mouse_up. cbv zeta.
  assert (E : ((width (dragged x0 y0 x1 y1) >? 5)
               && (height (dragged x0 y0 x1 y1) >? 5))%bool = false).
  { cbn [dragged width height]. apply andb_false_iff.
    destruct H; [left | right]; rewrite Z.gtb_ltb; apply Z.ltb_ge; lia. }
  rewrite E. split; [reflexivity |]. split; [reflexivity |].
  unfold controlBarRendered. cbn.
  destruct H as [H | H].
  - replace (Z.abs (x1 - x0) >? 20) with false
      by (symmetry; rewrite Z.gtb_ltb; apply Z.ltb_ge; lia).
    rewrite andb_false_r. reflexivity.
  - replace (Z.abs (y1 - y0) >? 20) with false
      by (symmetry; rewrite Z.gtb_ltb; apply Z.ltb_ge; lia).
    apply andb_false_r.
Qed.

(** A drag wider and higher than five pixels is captured on release in
    the two still modes. *)
Lemma large_drag_is_captured :
  5 < Z.abs (x1 - x0) -> 5 < Z.abs (y1 - y0) -> mode s <> record ->
  actions s (drag x0 y0 x1 y1)
  = [CaptureRegion (dragged x0 y0 x1 y1) (mode s) {| px := x0; py := y0 |}].
Proof.
  intros Hw Hh Hm. rewrite drag_actions, drag_mouse_up. cbv zeta.
  assert (E : ((width (dragged x0 y0 x1 y1) >? 5)
               && (height (dragged x0 y0 x1 y1) >? 5))%bool = true).
  { cbn [dragged width height]. apply andb_true_iff.
    split; rewrite Z.gtb_ltb; apply Z.ltb_lt; lia. }
  assert (F : ((width (dragged x0 y0 x1 y1) <? 5)
               || (height (dragged x0 y0 x1 y1) <? 5))%bool = false).
  { cbn [dragged width height]. apply orb_false_iff.
    split; apply Z.ltb_ge; lia. }
  rewrite E. unfold captureAndFinish. rewrite F.
  destruct (mode s); [reflexivity | reflexivity | congruence].
Qed.

End Drag.

(** C7, as the code has it. A drag whose rectangle is at most 5 wide or at
    most 5 high triggers no capture and no recording action: nothing is
    called, no selection is in progress after the release, and no control
    bar is shown.  A drag whose rectangle is more than 5 wide and more than
    5 high is a valid selection: in the clipboard and file modes the release
    makes the capture call, with that rectangle, the mode and the point the
    drag started from. *)
Theorem C7_drag_is_captured_when_both_sizes_exceed_five
    (s : Selector.State) (x0 y0 x1 y1 : Z) :
  let rect := Selector.dragged x0 y0 x1 y1 in
  let released :=
    fst (Selector.handleMouseUp 0
           (Selector.handleMouseMove x1 y1 (Selector.handleMouseDown 0 x0 y0 s))) in
  (Selector.width rect <= 5 \/ Selector.height rect <= 5 ->
   Selector.actions s (Selector.drag x0 y0 x1 y1) = []
   /\ Selector.isSelecting released = false
   /\ Selector.controlBarRendered released = false)
  /\ (5 < Selector.width rect -> 5 < Selector.height rect ->
      Selector.mode s <> record ->
      Selector.actions s (Selector.drag x0 y0 x1 y1)
      = [Selector.CaptureRegion rect (Selector.mode s)
           {| Selector.px := x0; Selector.py := y0 |}]).
Proof.
  cbv zeta. cbn [Selector.dragged Selector.width Selector.height]. split.
  - intros H. apply small_drag_is_discarded. exact H.
  - intros Hw Hh Hm. apply large_drag_is_captured; assumption.
Qed.

(** A 300x200 drag on the frozen screenshot, in clipboard mode. *)
Lemma C7_witness :
  Selector.actions (Selector.comp Selector.frozen_clipboard_overlay)
    (Selector.drag 10 10 310 210)
  = [Selector.CaptureRegion (Selector.dragged 10 10 310 210) clipboard
       {| Selector.px := 10; Selector.py := 10 |}].
Proof.
  destruct (C7_drag_is_captured_when_both_sizes_exceed_five
              (Selector.comp Selector.frozen_clipboard_overlay) 10 10 310 210)
    as [_ H].
  apply H; [simpl; lia | simpl; lia | discriminate].
Defined.

(** C7 as stated fails at its boundary.  In clipboard mode, with the
    frozen screenshot shown, a drag from (0,0) to (5,100) selects a
    rectangle of width 5 and height 100, both at least 5; releasing the
    button calls nothing: [handleMouseUp] asks for more than 5.  A drag one
    pixel wider is captured. *)
Lemma C7_five_pixel_drag_triggers_no_capture :
  let s := Selector.comp Selector.frozen_clipboard_overlay in
  let rect := Selector.dragged 0 0 5 100 in
  Selector.width rect = 5 /\ Selector.height rect = 100
  /\ Selector.mode s = clipboard
  /\ Selector.actions s (Selector.drag 0 0 5 100) = []
  /\ Selector.actions s (Selector.drag 0 0 6 100)
     = [Selector.CaptureRegion (Selector.dragged 0 0 6 100) clipboard
          {| Selector.px := 0; Selector.py := 0 |}].
Proof. cbv zeta. repeat split. Qed.

(** ** Canvas of the compositor *)

Lemma land_clear_low_bit (a : Z) : Z.land a (-2) = 2 * (a / 2).
Proof.
  apply Z.bits_inj'. intros n Hn.
  rewrite Z.land_spec. change (-2) with (Z.lnot 1).
  rewrite Z.lnot_spec by exact Hn.
  destruct (Z.eq_dec n 0) as [-> | Hne].
  - rewrite Z.testbit_even_0. cbn. apply andb_false_r.
  - replace n with (Z.succ (n - 1)) by lia.
    rewrite Z.testbit_even_succ by lia.
    rewrite Z.div2_bits by lia.
    change 1 with (2 * 0 + 1) at 2.
    rewrite Z.testbit_odd_succ by lia.
    rewrite Z.bits_0. cbn. apply andb_true_r.
Qed.

Lemma ToInt32_small (z : Z) : - 2 ^ 31 <= z < 2 ^ 31 -> Js.ToInt32 z = z.
Proof. intros H. unfold Js.ToInt32. rewrite Z.mod_small; lia. Qed.

Lemma even_floor_spec (v : Q) :
  - 2 ^ 31 <= Qfloor v < 2 ^ 31 ->
  Worker.even_floor v = 2 * (Qfloor v / 2).
Proof.
  intros H. unfold Worker.even_floor, Js.bitand, Js.bitnot, Js.Math_floor.
  assert (E : Qfloor (v * Worker.outputScale) = Qfloor v).
  { apply Qfloor_comp. unfold Worker.outputScale. ring. }
  rewrite E, (ToInt32_small _ H).
  change (Js.ToInt32 (Z.lnot (Js.ToInt32 1))) with (-2).
  apply land_clear_low_bit.
Qed.

(** C4. For a rectangle whose sizes fit 32-bit integers, the canvas of the
    compositor is as wide and as high as the selection, each floored and
    forced down to an even number: the largest even integer not above the
    size; (101, 51) gives (100, 50).  The source scale is 1 when
    [rect.scaleFactor] is absent or falsy, and the factor itself otherwise.
    These are the canvas and scale of the session [handleStart] sets up. *)
Theorem C4_canvas_is_even_and_scale_defaults_to_one
    (rect : Worker.Rect) (screenStream : list positive) (a : Worker.Audio) :
  - 2 ^ 31 <= Qfloor (Worker.rect_width rect) < 2 ^ 31 ->
  - 2 ^ 31 <= Qfloor (Worker.rect_height rect) < 2 ^ 31 ->
  let c := Worker.new_canvas rect in
  let s := Worker.new_session rect screenStream a in
  Worker.s_canvas s = c
  /\ Worker.s_sourceScale s = Worker.sourceScale rect
  /\ Worker.canvas_width c = 2 * (Qfloor (Worker.rect_width rect) / 2)
  /\ Worker.canvas_height c = 2 * (Qfloor (Worker.rect_height rect) / 2)
  /\ Z.even (Worker.canvas_width c) = true
  /\ Z.even (Worker.canvas_height c) = true
  /\ (inject_Z (Worker.canvas_width c) <= Worker.rect_width rect
      < inject_Z (Worker.canvas_width c) + 2)%Q
  /\ (inject_Z (Worker.canvas_height c) <= Worker.rect_height rect
      < inject_Z (Worker.canvas_height c) + 2)%Q
  /\ (Worker.rect_width rect = 101%Q -> Worker.rect_height rect = 51%Q ->
      c = {| Worker.canvas_width := 100; Worker.canvas_height := 50 |})
  /\ (Worker.truthy (Worker.scaleFactor rect) = false -> Worker.sourceScale rect = 1%Q)
  /\ (forall q, Worker.scaleFactor rect = Worker.JsNumber q ->
      Worker.truthy (Worker.scaleFactor rect) = true -> Worker.sourceScale rect = q).
Proof.
  intros Hw Hh c s. subst c s.
  cbn [Worker.new_session Worker.s_canvas Worker.s_sourceScale Worker.new_canvas
       Worker.canvas_width Worker.canvas_height].
  rewrite (even_floor_spec _ Hw), (even_floor_spec _ Hh).
  assert (Hbound : forall v : Q,
             (inject_Z (2 * (Qfloor v / 2)) <= v < inject_Z (2 * (Qfloor v / 2)) + 2)%Q).
  { intros v. pose proof (Qfloor_le v) as Hle. pose proof (Qlt_floor v) as Hlt.
    pose proof (Z.mod_pos_bound (Qfloor v) 2 ltac:(lia)) as Hm.
    pose proof (Z.div_mod (Qfloor v) 2 ltac:(lia)) as Hd.
    assert (H1 : 2 * (Qfloor v / 2) <= Qfloor v) by lia.
    assert (H2 : Qfloor v + 1 <= 2 * (Qfloor v / 2) + 2) by lia.
    rewrite Zle_Qle in H1, H2. rewrite !inject_Z_plus in H2.
    change (inject_Z 2) with 2%Q in H2. change (inject_Z 1) with 1%Q in H2.
    rewrite inject_Z_plus in Hlt. change (inject_Z 1) with 1%Q in Hlt.
    split; lra. }
  do 4 (split; [reflexivity |]).
  do 2 (split; [rewrite Z.even_mul; reflexivity |]).
  do 2 (split; [apply Hbound |]).
  split; [| split].
  - intros E1 E2. unfold Worker.new_canvas. rewrite E1, E2. reflexivity.
  - unfold Worker.truthy, Worker.sourceScale.
    destruct (Worker.scaleFactor rect) as [| | | q]; try reflexivity.
    destruct (Qeq_bool q 0); [reflexivity | discriminate].
  - intros q E. unfold Worker.truthy, Worker.sourceScale. rewrite E.
    destruct (Qeq_bool q 0); [discriminate | reflexivity].
Qed.

(** The 101x51 selection. *)
Lemma C4_witness :
  Worker.new_canvas Worker.sample_rect
  = {| Worker.canvas_width := 100; Worker.canvas_height := 50 |}.
Proof.
  apply (C4_canvas_is_even_and_scale_defaults_to_one Worker.sample_rect [3%positive]
           (Worker.audio_setup (Worker.silent "/home/u/Desktop") Worker.all_ok 5));
    [ vm_compute; split; [discriminate | reflexivity]
    | vm_compute; split; [discriminate | reflexivity]
    | reflexivity | reflexivity ].
Defined.

(** ** Stop without a session *)

Lemma set_tasks_same (w : Worker.State) : Worker.tasks w = [] -> Worker.set_tasks [] w = w.
Proof. destruct w. cbn. intros ->. reflexivity. Qed.

Lemma no_session_not_active (w : Worker.State) :
  Worker.mediaRecorderRef w = None
  \/ (exists r, Worker.mediaRecorderRef w = Some r
                /\ Worker.recorder_state r w = Some Worker.inactive) ->
  Worker.recorder_active w = None.
Proof.
  unfold Worker.recorder_active. intros [-> | (r & -> & ->)]; reflexivity.
Qed.

(** C6. When the recorder is null or inactive, [handleStop] logs its two
    lines and the warning and changes nothing: no stop task is queued, no
    buffer is sent, the state is the one before; the whole turn of the
    event loop leaves the worker as it was, so a second stop does the same. *)
Theorem C6_stop_without_a_session_is_a_no_op (w : Worker.State) :
  Worker.mediaRecorderRef w = None
  \/ (exists r, Worker.mediaRecorderRef w = Some r
                /\ Worker.recorder_state r w = Some Worker.inactive) ->
  let warning :=
    [Worker.Log (Worker.HandleStopCalled
                   (match Worker.mediaRecorderRef w with
                    | Some r => Worker.recorder_state r w
                    | None => None
                    end));
     Worker.Log (Worker.ChunksCount (length (Worker.chunksRef w)));
     Worker.Log Worker.WarnAlreadyInactive] in
  Worker.handleStop w = (w, warning)
  /\ omap Worker.finished warning = []
  /\ (Worker.tasks w = [] ->
      Worker.deliver w Worker.StopRecording = (w, warning)
      /\ Worker.run w [Worker.StopRecording; Worker.StopRecording]
         = (w, warning ++ warning)).
Proof.
  intros H warning. apply no_session_not_active in H.
  assert (E : Worker.handleStop w = (w, warning)).
  { unfold Worker.handleStop. rewrite H. reflexivity. }
  split; [exact E |]. split; [reflexivity |].
  intros Ht.
  assert (D : Worker.deliver w Worker.StopRecording = (w, warning)).
  { unfold Worker.deliver. cbn [Worker.handle]. rewrite E, Ht.
    cbn [Worker.run_stop_tasks]. rewrite (set_tasks_same w Ht), app_nil_r. reflexivity. }
  split; [exact D |].
  cbn [Worker.run]. rewrite D, D, !app_nil_r. reflexivity.
Qed.

(** A stop arriving right after the component mounted. *)
Lemma C6_witness :
  Worker.handleStop Worker.mounted
  = (Worker.mounted,
     [Worker.Log (Worker.HandleStopCalled None); Worker.Log (Worker.ChunksCount 0);
      Worker.Log Worker.WarnAlreadyInactive]).
Proof.
  destruct (C6_stop_without_a_session_is_a_no_op Worker.mounted (or_introl eq_refl))
    as [H _].
  exact H.
Defined.

(** ** The draw loop *)

(** C8, as the code has it. A tick whose video is paused or has ended returns
    at once: nothing is logged or drawn, no error is raised, and no
    further timeout is armed, so the loop of that session ends there.  Any
    other tick draws the source rectangle, each coordinate
    [Math.round(v * sourceScale)] as JavaScript computes it, onto the canvas
    and arms the next tick, with the delay [1000 / 30] ms. *)
Theorem C8_paused_or_ended_tick_is_skipped_and_ends_the_loop
    (w : Worker.State) (t : positive) (tm : Worker.Timer) (s : Worker.Session) :
  Worker.timers w !! t = Some tm ->
  Worker.sessions w !! Worker.t_session tm = Some s ->
  let sid := Worker.t_session tm in
  let w' := fst (Worker.handle (Worker.TimerFired t) w) in
  (Worker.s_paused s = true \/ Worker.s_ended s = true ->
   Worker.handle (Worker.TimerFired t) w = (Worker.clearTimeout t w, [])
   /\ Worker.timers w' = delete t (Worker.timers w)
   /\ Worker.timers w' !! t = None)
  /\ (Worker.s_hasCtx s = true -> Worker.s_paused s = false ->
      Worker.s_ended s = false ->
      snd (Worker.handle (Worker.TimerFired t) w)
      = [Worker.DrawImage sid
           (Js.Math_round (Js.mul (Worker.rect_x (Worker.s_rect s))
                                  (Worker.s_sourceScale s)))
           (Js.Math_round (Js.mul (Worker.rect_y (Worker.s_rect s))
                                  (Worker.s_sourceScale s)))
           (Js.Math_round (Js.mul (Worker.rect_width (Worker.s_rect s))
                                  (Worker.s_sourceScale s)))
           (Js.Math_round (Js.mul (Worker.rect_height (Worker.s_rect s))
                                  (Worker.s_sourceScale s)))
           (Worker.canvas_width (Worker.s_canvas s))
           (Worker.canvas_height (Worker.s_canvas s))]
      /\ Worker.timers w' !! Worker.nextId w
         = Some {| Worker.t_session := sid; Worker.t_delay := Js.div 1000 30 |}
      /\ Worker.animationFrameRef w' = Some (Worker.nextId w)
      /\ Worker.tick_scheduled sid w').
Proof.
  intros Ht Hs sid w'. subst w' sid. cbn [Worker.handle]. rewrite Ht.
  unfold Worker.draw.
  replace (Worker.sessions (Worker.clearTimeout t w)) with (Worker.sessions w)
    by reflexivity.
  rewrite Hs. split.
  - intros Hp.
    assert (E : (negb (Worker.s_hasCtx s) || Worker.s_paused s || Worker.s_ended s)%bool
                = true).
    { destruct Hp as [-> | ->]; [rewrite orb_true_r | rewrite !orb_true_r]; reflexivity. }
    rewrite E. cbn [fst]. split; [reflexivity |].
    split; [reflexivity | apply lookup_delete_eq].
  - intros Hc Hp He. rewrite Hc, Hp, He. cbn [negb orb fst snd].
    split; [reflexivity |].
    assert (L : Worker.timers
                  (Worker.set_nextId (Worker.nextId (Worker.clearTimeout t w) + 1)
                     (Worker.set_timers
                        (<[Worker.nextId (Worker.clearTimeout t w) :=
                             {| Worker.t_session := Worker.t_session tm;
                                Worker.t_delay := Js.div 1000 30 |}]>
                           (Worker.timers (Worker.clearTimeout t w)))
                        (Worker.set_animationFrameRef
                           (Some (Worker.nextId (Worker.clearTimeout t w)))
                           (Worker.clearTimeout t w))))
                  !! Worker.nextId w
                = Some {| Worker.t_session := Worker.t_session tm;
                          Worker.t_delay := Js.div 1000 30 |}).
    { cbn. apply lookup_insert_eq. }
    split; [exact L |]. split; [reflexivity |].
    exists (Worker.nextId w),
      {| Worker.t_session := Worker.t_session tm; Worker.t_delay := Js.div 1000 30 |}.
    split; [exact L | reflexivity].
Qed.

(** The tick pending when the video of the first session paused. *)
Lemma C8_witness :
  Worker.handle (Worker.TimerFired 10) Worker.paused_session
  = (Worker.clearTimeout 10 Worker.paused_session, []).
Proof.
  destruct (C8_paused_or_ended_tick_is_skipped_and_ends_the_loop
              Worker.paused_session 10
              {| Worker.t_session := 2; Worker.t_delay := Js.div 1000 30 |}
              {| Worker.s_rect := Worker.sample_rect; Worker.s_sourceScale := 2;
                 Worker.s_canvas := {| Worker.canvas_width := 100;
                                       Worker.canvas_height := 50 |};
                 Worker.s_hasCtx := true; Worker.s_paused := true;
                 Worker.s_ended := false; Worker.s_srcObject := Some [3%positive];
                 Worker.s_screenStream := [3%positive];
                 Worker.s_sysStreamRef := None; Worker.s_micStreamRef := None;
                 Worker.s_audioCtxRef := None |}
              eq_refl eq_refl) as [H _].
  destruct (H (or_introl eq_refl)) as [E _]. exact E.
Defined.

(** C8 as stated fails: in a session whose video paused, the pending
    tick fires, draws nothing, and leaves no timeout armed; the loop of the
    session is no longer running. *)
Lemma C8_paused_tick_halts_the_loop :
  let w := Worker.paused_session in
  let w' := fst (Worker.deliver w (Worker.TimerFired 10)) in
  Worker.s_paused <$> Worker.sessions w !! 2%positive = Some true
  /\ Worker.t_session <$> Worker.timers w !! 10%positive = Some 2%positive
  /\ snd (Worker.deliver w (Worker.TimerFired 10)) = []
  /\ Worker.timers w' = ∅
  /\ ~ Worker.tick_scheduled 2 w'.
Proof.
  cbv zeta.
  assert (E : Worker.timers (fst (Worker.deliver Worker.paused_session
                                    (Worker.TimerFired 10))) = ∅) by reflexivity.
  repeat split; try reflexivity.
  intros (t & tm & Ht & _). rewrite E in Ht. rewrite lookup_empty in Ht. discriminate.
Qed.

(** ** Tear-down of the previous session *)

(** Reads a field of a state built by the setters. *)
Ltac fields :=
  cbv beta iota zeta delta
    [
       Worker.set_mediaRecorderRef Worker.set_streamRef Worker.set_canvasRef
       Worker.set_videoRef Worker.set_animationFrameRef Worker.set_chunksRef
       Worker.set_recorders Worker.set_sessions Worker.set_liveTracks
       Worker.set_timers Worker.set_openAudioCtx Worker.set_tasks
       Worker.set_pendingStarts Worker.set_awaitingClose Worker.set_nextId
       Worker.mediaRecorderRef Worker.streamRef Worker.canvasRef
       Worker.videoRef Worker.animationFrameRef Worker.chunksRef
       Worker.recorders Worker.sessions Worker.liveTracks Worker.timers
       Worker.openAudioCtx Worker.tasks Worker.pendingStarts
       Worker.awaitingClose Worker.nextId Worker.stop_tracks
       Worker.add_tracks Worker.clearTimeout Worker.recorder_stop
       Worker.set_video
    ].

Section TearDown.

Import Worker.

Lemma recorder_active_ref (w : State) (r : positive) :
  recorder_active w = Some r ->
  mediaRecorderRef w = Some r
  /\ exists rc, recorders w !! r = Some rc /\ rec_state rc <> inactive.
Proof.
  unfold recorder_active, recorder_state. destruct (mediaRecorderRef w) as [m |]; [| discriminate].
  destruct (recorders w !! m) as [rc |] eqn:E; cbn; [| discriminate].
  destruct (rec_state rc) eqn:S; intros H; try discriminate;
    injection H as <-; (split; [reflexivity |]); exists rc; rewrite S; split; congruence.
Qed.

(** The state after the clean-up, field by field. *)
Lemma cleanup_fields (w : State) :
  let w1 := fst (cleanup w) in
  chunksRef w1 = []
  /\ streamRef w1 = None
  /\ animationFrameRef w1 = None
  /\ mediaRecorderRef w1 = mediaRecorderRef w
  /\ awaitingClose w1 = awaitingClose w
  /\ nextId w1 = nextId w
  /\ sessions w1 = sessions w
  /\ pendingStarts w1 = pendingStarts w
  /\ liveTracks w1
     = liveTracks w ∖ (match streamRef w with
                       | Some tracks => list_to_set tracks
                       | None => ∅
                       end)
  /\ timers w1
     = (match animationFrameRef w with
        | Some t => delete t (timers w)
        | None => timers w
        end)
  /\ recorders w1
     = (match recorder_active w with
        | Some r => alter (fun rc => {| rec_state := inactive;
                                        rec_gathered := rec_gathered rc |}) r (recorders w)
        | None => recorders w
        end)
  /\ tasks w1
     = tasks w ++ (match recorder_active w with Some r => [r] | None => [] end).
Proof.
  unfold cleanup.
  destruct (recorder_active w) as [r |]; fields;
    destruct w as [mr [tracks |] cv vd [t |] ch rs ss lt tm oa tk ps aw nx];
    cbn; rewrite ?app_nil_r, ?difference_empty_L; repeat split; reflexivity.
Qed.

Lemma cleanup_logs_only (w : State) : Forall isolated (snd (cleanup w)).
Proof.
  unfold cleanup. destruct (recorder_active w); fields;
    destruct w as [mr [tracks |] cv vd [t |] ch rs ss lt tm oa tk ps aw nx];
    cbn; repeat constructor.
Qed.

End TearDown.

(** ** No chunk of an earlier session in a later buffer *)

Section Isolation.

Import Worker.

(** A handler that leaves the chunk buffer alone or empties it, keeps the
    ref, and lets no new [onstop] wait, keeps the invariant. *)
Lemma inv_frame (w w1 : State) :
  Inv w ->
  chunksRef w1 = chunksRef w \/ chunksRef w1 = [] ->
  mediaRecorderRef w1 = mediaRecorderRef w ->
  awaitingClose w1 ⊆ awaitingClose w ->
  (nextId w <= nextId w1)%positive ->
  Inv w1.
Proof.
  intros [I1 I2 I3 I4] Hc Hm Ha Hn. split.
  - intros c k Hin Hk. destruct Hc as [Hc | Hc]; rewrite Hc in Hin; [| destruct Hin].
    apply I1; [exact Hin |]. rewrite Hm in Hk. destruct Hk as [Hk | Hk]; auto.
  - intros k m Hk Hr. rewrite Hm in Hr. apply (I2 k m); auto.
  - intros m Hr. rewrite Hm in Hr. specialize (I3 m Hr). lia.
  - intros k Hk. specialize (I4 k (Ha k Hk)). lia.
Qed.

(** Creating a recorder from a fresh id, with the buffer emptied. *)
Lemma inv_new_recorder (w w1 : State) (sid : positive) :
  Inv w ->
  chunksRef w1 = [] ->
  mediaRecorderRef w1 = Some sid ->
  awaitingClose w1 = awaitingClose w ->
  (nextId w <= sid)%positive -> (sid < nextId w1)%positive ->
  Inv w1.
Proof.
  intros [I1 I2 I3 I4] Hc Hm Ha Hlo Hhi. split.
  - intros c k Hin. rewrite Hc in Hin. destruct Hin.
  - intros k m Hk Hr. rewrite Hm in Hr. injection Hr as <-.
    rewrite Ha in Hk. specialize (I4 k Hk). lia.
  - intros m Hr. rewrite Hm in Hr. injection Hr as <-. exact Hhi.
  - intros k Hk. rewrite Ha in Hk. specialize (I4 k Hk). lia.
Qed.

(** The recorder in the ref delivers a chunk, and its [onstop] may start
    waiting for the audio context. *)
Lemma inv_flush (w w1 : State) (r : positive) (pushed : list Chunk) :
  Inv w ->
  mediaRecorderRef w = Some r ->
  Forall (fun c => producer c = r) pushed ->
  chunksRef w1 = chunksRef w ++ pushed ->
  mediaRecorderRef w1 = mediaRecorderRef w ->
  awaitingClose w1 ⊆ awaitingClose w ∪ {[r]} ->
  nextId w1 = nextId w ->
  Inv w1.
Proof.
  intros [I1 I2 I3 I4] Hr Hp Hc Hm Ha Hn.
  assert (Hle : forall k, k ∈ awaitingClose w1 \/ mediaRecorderRef w1 = Some k ->
                          (k <= r)%positive).
  { intros k [Hk | Hk].
    - apply Ha in Hk. apply elem_of_union in Hk as [Hk | Hk].
      + apply (I2 k r Hk Hr).
      + apply elem_of_singleton in Hk. subst k. lia.
    - rewrite Hm, Hr in Hk. injection Hk as <-. lia. }
  split.
  - intros c k Hin Hk. rewrite Hc in Hin. apply in_app_or in Hin as [Hin | Hin].
    + apply I1; [exact Hin |]. destruct Hk as [Hk | Hk].
      * apply Ha in Hk. apply elem_of_union in Hk as [Hk | Hk]; [left; exact Hk |].
        apply elem_of_singleton in Hk. subst k. right. exact Hr.
      * right. rewrite Hm in Hk. exact Hk.
    + rewrite Forall_forall in Hp. rewrite (Hp c ltac:(apply list_elem_of_In; exact Hin)).
      apply Hle. exact Hk.
  - intros k m Hk Hm'. rewrite Hm, Hr in Hm'. injection Hm' as <-.
    apply Hle. left. exact Hk.
  - intros m Hm'. rewrite Hm in Hm'. rewrite Hn. apply I3. exact Hm'.
  - intros k Hk. rewrite Hn. apply Ha in Hk. apply elem_of_union in Hk as [Hk | Hk].
    + apply I4. exact Hk.
    + apply elem_of_singleton in Hk. subst k. apply I3. exact Hr.
Qed.

Lemma mounted_inv : Inv mounted.
Proof.
  split; cbn.
  - intros c k [].
  - intros k m Hk. apply not_elem_of_empty in Hk. destruct Hk.
  - intros m H. discriminate.
  - intros k Hk. apply not_elem_of_empty in Hk. destruct Hk.
Qed.

(** A buffer built from the chunk buffer by a recorder that may still hand
    one over is isolated. *)
Lemma inv_isolated (w : State) (r : positive) :
  Inv w ->
  r ∈ awaitingClose w \/ mediaRecorderRef w = Some r ->
  Forall (fun c => (r <= producer c)%positive) (chunksRef w).
Proof.
  intros [I1 _ _ _] Hr. apply Forall_forall. intros c Hin.
  apply (I1 c r); [apply list_elem_of_In; exact Hin | exact Hr].
Qed.

Ltac frame_inv I :=
  eapply inv_frame;
  [ exact I
  | fields; cbn; auto
  | reflexivity
  | fields; cbn; first [reflexivity | apply subseteq_difference_l; reflexivity]
  | fields; cbn; lia ].

Lemma draw_ok (sid : positive) (w : State) :
  chunksRef (fst (draw sid w)) = chunksRef w
  /\ mediaRecorderRef (fst (draw sid w)) = mediaRecorderRef w
  /\ awaitingClose (fst (draw sid w)) = awaitingClose w
  /\ tasks (fst (draw sid w)) = tasks w
  /\ (nextId w <= nextId (fst (draw sid w)))%positive
  /\ Forall isolated (snd (draw sid w)).
Proof.
  unfold draw. destruct (sessions w !! sid) as [s |].
  - destruct (negb (s_hasCtx s) || s_paused s || s_ended s)%bool; cbn [fst snd].
    + repeat split; [lia | constructor].
    + destruct w. fields. repeat split; [lia | repeat constructor].
  - cbn [fst snd]. repeat split; [lia | constructor].
Qed.

Lemma draw_inv (sid : positive) (w : State) : Inv w -> Inv (fst (draw sid w)).
Proof.
  intros I. destruct (draw_ok sid w) as (Hc & Hm & Ha & _ & Hn & _).
  eapply inv_frame; [exact I | left; exact Hc | exact Hm | rewrite Ha; reflexivity | exact Hn].
Qed.

Lemma tasks_of_ref_frame (w w1 : State) :
  tasks_of_ref w -> tasks w1 = tasks w -> mediaRecorderRef w1 = mediaRecorderRef w ->
  tasks_of_ref w1.
Proof. intros H Ht Hm r Hr. rewrite Ht in Hr. rewrite Hm. exact (H r Hr). Qed.

Lemma no_tasks_of_ref (w : State) : tasks w = [] -> tasks_of_ref w.
Proof. intros Ht r Hr. rewrite Ht in Hr. destruct Hr. Qed.

Lemma handleStart_begin_ok (rect : Rect) (settings : AppSettings) (w : State) :
  Inv w -> tasks_of_ref w ->
  Inv (fst (handleStart_begin rect settings w))
  /\ tasks_of_ref (fst (handleStart_begin rect settings w))
  /\ Forall isolated (snd (handleStart_begin rect settings w)).
Proof.
  intros HI Ht. unfold handleStart_begin.
  pose proof (cleanup_fields w) as (Hc & _ & _ & Hm & Ha & Hn & _ & _ & _ & _ & _ & Hk).
  pose proof (cleanup_logs_only w) as Hl.
  destruct (cleanup w) as [w1 o]. cbn [fst snd] in *.
  split; [| split].
  - eapply inv_frame; [exact HI | right | | |].
    + destruct w1; exact Hc.
    + destruct w1; exact Hm.
    + destruct w1. cbn in Ha |- *. rewrite Ha. reflexivity.
    + destruct w1. cbn in Hn |- *. lia.
  - intros r Hr. destruct w1. cbn in Hr, Hk, Hm |- *. rewrite Hk in Hr. rewrite Hm.
    apply in_app_or in Hr as [Hr | Hr]; [exact (Ht r Hr) |].
    destruct (recorder_active w) as [r' |] eqn:E; cbn in Hr; [| destruct Hr].
    destruct Hr as [<- | []]. apply recorder_active_ref in E as [E _]. exact E.
  - constructor; [exact Logic.I | exact Hl].
Qed.

Lemma handleStop_ok (w : State) :
  Inv w -> tasks_of_ref w ->
  Inv (fst (handleStop w))
  /\ tasks_of_ref (fst (handleStop w))
  /\ Forall isolated (snd (handleStop w)).
Proof.
  intros HI Ht. unfold handleStop.
  destruct (recorder_active w) as [r |] eqn:E; cbn [fst snd].
  - apply recorder_active_ref in E as [E _]. split; [| split].
    + destruct w. frame_inv HI.
    + intros r' Hr. destruct w. cbn in Hr, Ht, E |- *.
      apply in_app_or in Hr as [Hr | Hr]; [exact (Ht r' Hr) |].
      destruct Hr as [<- | []]. exact E.
    + repeat constructor.
  - split; [exact HI | split; [exact Ht | repeat constructor]].
Qed.

Lemma handleStart_resume_ok (call : positive) (acq : Acquired) (w : State) :
  Inv w -> tasks w = [] ->
  Inv (fst (handleStart_resume call acq w))
  /\ tasks (fst (handleStart_resume call acq w)) = []
  /\ Forall isolated (snd (handleStart_resume call acq w)).
Proof.
  intros HI Ht. unfold handleStart_resume.
  destruct (pendingStarts w !! call) as [[rect settings] |];
    [| cbn [fst snd]; split; [exact HI | split; [exact Ht | constructor]]].
  assert (Hlog : forall a : Audio, Forall isolated (a_log a) ->
                 forall o, Forall isolated o -> Forall isolated (o ++ a_log a)).
  { intros a Ha o Ho. apply Forall_app. split; assumption. }
  assert (Haudio : Forall isolated
                     (a_log (audio_setup settings acq (nextId w + 3)%positive))).
  { unfold audio_setup. destruct (audioSource settings), (micOk acq), (sysOk acq);
      try destruct (audioCtx acq); cbn; repeat constructor. }
  destruct (sourceId acq) as [[| c u] |];
    try (cbn [fst snd]; split; [destruct w; frame_inv HI
                               | split; [destruct w; exact Ht | repeat constructor]]).
  destruct (screenOk acq); cbn [negb];
    try (cbn [fst snd]; split; [destruct w; frame_inv HI
                               | split; [destruct w; exact Ht | repeat constructor]]).
  destruct (ctxOk acq); cbn [negb];
    try (cbn [fst snd]; split; [destruct w; frame_inv HI
                               | split; [destruct w; exact Ht | repeat constructor]]).
  destruct (playOk acq); cbn [negb];
    try (cbn [fst snd]; split; [destruct w; frame_inv HI
                               | split; [destruct w; exact Ht | repeat constructor]]).
  match goal with
  | |- context [draw ?s ?x] =>
      pose proof (draw_ok s x) as (Dc & Dm & Da & Dt & Dn & Do);
      destruct (draw s x) as [wd od]
  end.
  cbn [fst snd] in Dc, Dm, Da, Dt, Dn, Do.
  destruct w as [mr sr cv vd af ch rs ss lt tm oa tk ps aw nx].
  destruct wd as [mr' sr' cv' vd' af' ch' rs' ss' lt' tm' oa' tk' ps' aw' nx'].
  revert Dc Dm Da Dt Dn. fields. intros Dc Dm Da Dt Dn. subst ch' mr' aw' tk'.
  cbn [tasks] in Ht. subst tk.
  assert (Ho : Forall isolated
                 ([Log GetUserMediaSuccess; Log (Scaling (sourceScale rect) outputScale)]
                    ++ od)).
  { apply Forall_app. split; [repeat constructor | exact Do]. }
  revert Haudio. fields. intros Haudio.
  destruct (a_ctx (audio_setup settings acq (nx + 3)%positive));
    destruct (recorderOutcome acq); fields; cbn [fst snd];
    (split; [| split; [reflexivity |]]);
    try (rewrite !app_assoc; apply Forall_app; split;
         [apply Forall_app; split; [exact Ho | exact Haudio] | repeat constructor]);
    try (eapply inv_frame; [exact HI | left; reflexivity | reflexivity | reflexivity
                           | cbn; lia]);
    try (eapply (inv_new_recorder _ _ nx); [exact HI | reflexivity | reflexivity
                                           | reflexivity | cbn; lia | cbn; lia]).
Qed.

Lemma onstop_resume_ok (r : positive) (closed : bool) (w : State) :
  Inv w ->
  Inv (fst (onstop_resume r closed w))
  /\ tasks (fst (onstop_resume r closed w)) = tasks w
  /\ mediaRecorderRef (fst (onstop_resume r closed w)) = mediaRecorderRef w
  /\ Forall isolated (snd (onstop_resume r closed w)).
Proof.
  intros HI. unfold onstop_resume.
  destruct (decide (r ∈ awaitingClose w)) as [Hin |];
    [| cbn [fst snd]; split; [exact HI | repeat split; constructor]].
  pose proof (inv_isolated w r HI (or_introl Hin)) as Hiso.
  destruct w as [mr sr cv vd af ch rs ss lt tm oa tk ps aw nx].
  unfold finalize. fields. cbn [chunksRef] in Hiso.
  destruct closed; (destruct (ss !! r) as [s |]; [destruct (s_audioCtxRef s) |]);
    cbn [fst snd app];
    (split; [frame_inv HI
            | split; [reflexivity | split; [reflexivity | repeat constructor; exact Hiso]]]).
Qed.

Lemma ondataavailable_pushes (r : positive) (bytes : list Byte.byte) (w : State) :
  exists pushed,
    Forall (fun c => producer c = r) pushed
    /\ fst (ondataavailable r bytes w) = set_chunksRef (chunksRef w ++ pushed) w
    /\ Forall isolated (snd (ondataavailable r bytes w)).
Proof.
  unfold ondataavailable. destruct bytes as [| b bytes].
  - exists []. cbn [fst snd]. rewrite app_nil_r. destruct w.
    repeat split; repeat constructor.
  - exists [{| producer := r; data := b :: bytes |}]. cbn [fst snd].
    repeat split; repeat constructor.
Qed.

(** The stop task of the recorder in the ref. *)
Lemma stop_task_ok (r : positive) (w : State) :
  Inv w -> mediaRecorderRef w = Some r ->
  Inv (fst (stop_task r w))
  /\ mediaRecorderRef (fst (stop_task r w)) = Some r
  /\ tasks (fst (stop_task r w)) = tasks w
  /\ Forall isolated (snd (stop_task r w)).
Proof.
  intros HI Hr. unfold stop_task.
  set (bytes := match recorders w !! r with Some rc => rec_gathered rc | None => [] end).
  set (w0 := set_recorders _ w).
  destruct (ondataavailable_pushes r bytes w0) as (pushed & Hp & Hd & Ho1).
  destruct (ondataavailable r bytes w0) as [w1 o1]. cbn [fst snd] in Hd, Ho1. subst w1.
  assert (I1 : Inv (set_chunksRef (chunksRef w0 ++ pushed) w0)).
  { eapply (inv_flush w _ r pushed); [exact HI | exact Hr | exact Hp | | | |];
      subst w0; destruct w; fields; try reflexivity. set_solver. }
  assert (R1 : mediaRecorderRef (set_chunksRef (chunksRef w0 ++ pushed) w0) = Some r).
  { subst w0. destruct w. exact Hr. }
  pose proof (inv_isolated _ r I1 (or_intror R1)) as Hiso.
  revert I1 R1 Hiso. generalize (chunksRef w0 ++ pushed) as chunks. intros chunks I1 R1 Hiso.
  assert (T0 : tasks w0 = tasks w) by (subst w0; destruct w; reflexivity).
  clearbody w0. clear Hp.
  destruct w0 as [mr sr cv vd af ch rs ss lt tm oa tk ps aw nx].
  revert I1 R1 Hiso T0. unfold onstop, finalize. fields. intros I1 R1 Hiso T0.
  destruct (ss !! r) as [s |];
    [| cbn [fst snd]; rewrite app_nil_r;
       split; [exact I1 | split; [exact R1 | split; [exact T0 | exact Ho1]]]].
  destruct af as [t |]; destruct (s_sysStreamRef s) as [sys |];
    destruct (s_micStreamRef s) as [mc |]; destruct (s_audioCtxRef s) as [ctx |];
    fields; cbn [fst snd];
    (split; [| split; [exact R1 | split; [exact T0 |]]]);
    try (apply Forall_app; split; [exact Ho1 |]; repeat constructor; exact Hiso);
    try (eapply (inv_flush _ _ r []);
         [exact I1 | exact R1 | constructor | fields; rewrite app_nil_r; reflexivity
         | reflexivity | fields; set_solver | reflexivity]).
Qed.

Lemma handle_ok (e : Event) (w : State) :
  Inv w -> tasks_of_ref w -> start_after_stops w (Handle e) ->
  Inv (fst (handle e w))
  /\ tasks_of_ref (fst (handle e w))
  /\ Forall isolated (snd (handle e w)).
Proof.
  intros HI Ht Hs.
  destruct e as [rect settings | call acq | | t | r bytes | r closed | sid | sid];
    cbn [handle].
  - apply handleStart_begin_ok; assumption.
  - destruct (handleStart_resume_ok call acq w HI Hs) as (I1 & T1 & O1).
    split; [exact I1 | split; [apply no_tasks_of_ref; exact T1 | exact O1]].
  - apply handleStop_ok; assumption.
  - destruct (timers w !! t) as [tm |];
      [| cbn [fst snd]; split; [exact HI | split; [exact Ht | constructor]]].
    assert (I0 : Inv (clearTimeout t w)) by (destruct w; frame_inv HI).
    destruct (draw_ok (t_session tm) (clearTimeout t w)) as (_ & Dm & _ & Dt & _ & Do).
    split; [apply draw_inv; exact I0 |]. split; [| exact Do].
    apply (tasks_of_ref_frame w); [exact Ht | |].
    + rewrite Dt. destruct w. reflexivity.
    + rewrite Dm. destruct w. reflexivity.
  - destruct (recorders w !! r) as [[[] g] |]; cbn [fst snd];
      (split; [first [exact HI | destruct w; frame_inv HI]
              | split; [first [exact Ht
                              | apply (tasks_of_ref_frame w);
                                [exact Ht | destruct w; reflexivity
                                | destruct w; reflexivity]]
                       | constructor]]).
  - destruct (onstop_resume_ok r closed w HI) as (I1 & T1 & R1 & O1).
    split; [exact I1 | split; [exact (tasks_of_ref_frame w _ Ht T1 R1) | exact O1]].
  - cbn [fst snd]. split; [destruct w; frame_inv HI |].
    split; [| constructor].
    apply (tasks_of_ref_frame w); [exact Ht | destruct w; reflexivity
                                  | destruct w; reflexivity].
  - cbn [fst snd]. split; [destruct w; frame_inv HI |].
    split; [| constructor].
    apply (tasks_of_ref_frame w); [exact Ht | destruct w; reflexivity
                                  | destruct w; reflexivity].
Qed.

Lemma perform_ok (t : Task) (w : State) :
  Inv w -> tasks_of_ref w -> start_after_stops w t ->
  Inv (fst (perform w t))
  /\ tasks_of_ref (fst (perform w t))
  /\ Forall isolated (snd (perform w t)).
Proof.
  intros HI Ht Hs. destruct t as [e |]; cbn [perform].
  - apply handle_ok; assumption.
  - destruct (tasks w) as [| r rest] eqn:Etk;
      [cbn [fst snd]; split; [exact HI | split; [exact Ht | constructor]] |].
    assert (Hr : mediaRecorderRef w = Some r).
    { apply Ht. rewrite Etk. left. reflexivity. }
    assert (I0 : Inv (set_tasks rest w)) by (destruct w; frame_inv HI).
    assert (R0 : mediaRecorderRef (set_tasks rest w) = Some r) by (destruct w; exact Hr).
    destruct (stop_task_ok r (set_tasks rest w) I0 R0) as (I1 & R1 & T1 & O1).
    split; [exact I1 | split; [| exact O1]].
    intros r' Hr'. rewrite T1 in Hr'. rewrite R1, <- Hr.
    apply Ht. rewrite Etk. right. destruct w. exact Hr'.
Qed.

Lemma schedule_ok (ts : list Task) (w : State) :
  Inv w -> tasks_of_ref w -> stops_run_before_starts w ts ->
  Forall isolated (snd (schedule w ts)).
Proof.
  revert w. induction ts as [| t ts IH]; intros w HI Ht Hs; cbn [schedule].
  - constructor.
  - destruct Hs as [Hs1 Hs2].
    destruct (perform_ok t w HI Ht Hs1) as (I1 & T1 & O1).
    destruct (perform w t) as [w1 o1]. cbn [fst snd] in I1, T1, O1, Hs2.
    specialize (IH w1 I1 T1 Hs2). destruct (schedule w1 ts) as [w2 o2]. cbn [fst snd] in *.
    apply Forall_app. split; assumption.
Qed.

(** *** Turns of [deliver] as schedules *)

(** The stop task neither reads nor changes the queue of stop tasks. *)
Lemma stop_task_tasks (r : positive) (t : list positive) (w : State) :
  stop_task r (set_tasks t w) = (set_tasks t (fst (stop_task r w)), snd (stop_task r w)).
Proof.
  unfold stop_task, ondataavailable, onstop, finalize.
  destruct w as [mr sr cv vd af ch rs ss lt tm oa tk ps aw nx]. fields.
  destruct (rs !! r) as [[st [| b g]] |]; cbn [rec_gathered]; fields;
    (destruct (ss !! r) as [s |]; [| reflexivity]);
    destruct af as [a |]; destruct (s_sysStreamRef s); destruct (s_micStreamRef s);
    destruct (s_audioCtxRef s); reflexivity.
Qed.

Lemma run_stop_tasks_schedule (rs : list positive) (w : State) :
  tasks w = rs ->
  schedule w (repeat NextStopTask (length rs)) = run_stop_tasks rs (set_tasks [] w).
Proof.
  revert w. induction rs as [| r rest IH]; intros w Ht; cbn [length repeat schedule run_stop_tasks].
  - destruct w. cbn in Ht. subst. reflexivity.
  - cbn [perform]. rewrite Ht. rewrite !stop_task_tasks.
    destruct (stop_task r w) as [w1 o1]. cbn [fst snd].
    rewrite (IH (set_tasks rest w1)) by (destruct w1; reflexivity).
    replace (set_tasks [] (set_tasks rest w1)) with (set_tasks [] w1) by (destruct w1; reflexivity).
    reflexivity.
Qed.

(** A turn of [deliver] is the schedule in which the stop tasks queued
    run right after the handler. *)
Lemma deliver_schedule (w : State) (e : Event) :
  deliver w e
  = schedule w (Handle e :: repeat NextStopTask (length (tasks (fst (handle e w))))).
Proof.
  unfold deliver. cbn [schedule perform]. destruct (handle e w) as [w1 o1]. cbn [fst].
  rewrite (run_stop_tasks_schedule (tasks w1) w1 eq_refl). reflexivity.
Qed.

Lemma schedule_app (ts us : list Task) (w : State) :
  schedule w (ts ++ us)
  = (fst (schedule (fst (schedule w ts)) us),
     snd (schedule w ts) ++ snd (schedule (fst (schedule w ts)) us)).
Proof.
  revert w. induction ts as [| t ts IH]; intros w.
  - cbn [app schedule fst snd]. destruct (schedule w us). reflexivity.
  - cbn [app schedule]. destruct (perform w t) as [w1 o1]. rewrite IH.
    destruct (schedule w1 ts) as [w2 o2]. cbn [fst snd].
    destruct (schedule w2 us) as [w3 o3]. cbn [fst snd]. rewrite app_assoc. reflexivity.
Qed.

Lemma run_schedule (es : list Event) (w : State) :
  run w es = schedule w (in_order w es).
Proof.
  revert w. induction es as [| e es IH]; intros w; [reflexivity |].
  cbn [run in_order]. rewrite schedule_app, <- deliver_schedule.
  destruct (deliver w e) as [w1 o1]. cbn [fst snd]. rewrite IH.
  destruct (schedule w1 (in_order w1 es)). reflexivity.
Qed.

End Isolation.


(** Why the buffer is emptied twice.  When the start arrives while the
    first session records, the recorder it stops delivers its data after
    the clean-up emptied the buffer: when its stop task has run, the buffer
    holds the chunk of the first session, which has been handed over in its
    own buffer.  The assignment next to [new MediaRecorder] removes it. *)
Lemma stopped_recorder_delivers_after_the_first_clear :
  let w := fst (Worker.deliver Worker.first_session (Worker.Encoded 2 [Byte.x01])) in
  let turn := Worker.deliver w (Worker.StartRecording Worker.sample_rect
                                  (Worker.silent "/home/u/Desktop")) in
  Worker.chunksRef (fst (Worker.handle (Worker.StartRecording Worker.sample_rect
                                          (Worker.silent "/home/u/Desktop")) w)) = []
  /\ Worker.chunksRef (fst turn)
     = [{| Worker.producer := 2; Worker.data := [Byte.x01] |}]
  /\ omap Worker.finished (snd turn)
     = [(2%positive, [{| Worker.producer := 2; Worker.data := [Byte.x01] |}])]
  /\ Worker.chunksRef
       (fst (Worker.deliver (fst turn) (Worker.SourcesAcquired 11 Worker.all_ok))) = [].
Proof. cbv zeta. repeat split. Qed.

(* ===================================================================== *)
(** * Further properties *)
(* ===================================================================== *)

(** ** Container finalisation, all paths *)

Lemma nonempty_bufLength (bytes : list Byte.byte) :
  bytes <> [] -> (Main.bufLength (Some bytes) =? 0) = false.
Proof.
  intros Hne. destruct bytes; [congruence |]. cbn [Main.bufLength length].
  apply Z.eqb_neq. lia.
Qed.

Lemma mp4_path_is_not_the_webm_path (st : Main.State) (iso : string) :
  Main.recording_path st iso ".mp4" <> Main.recording_path st iso ".webm".
Proof.
  unfold Main.recording_path. intros H. apply path_join_inj in H.
  change (String.append "recording-" ?t) with
    (String "r" (String "e" (String "c" (String "o" (String "r" (String "d"
      (String "i" (String "n" (String "g" (String "-" t)))))))))) in H.
  injection H as H.
  induction (Main.timestamp iso) as [| c t IH].
  - vm_compute in H. discriminate.
  - change (String c (String.append t ".mp4") = String c (String.append t ".webm")) in H.
    injection H as H. auto.
Qed.

(** X1. Whatever buffer arrives and whatever the disk and ffmpeg do,
    [recording-finished] returns without an exception and leaves
    [isRecording] false, the settings and the clipboard as they were. *)
Theorem recording_finished_always_returns_and_resets_the_flag
    (st : Main.State) (env : Main.FinishEnv) (buffer : option (list Byte.byte)) :
  snd (Main.recording_finished st env buffer) = Js.Returned tt
  /\ Main.isRecording (fst (Main.recording_finished st env buffer)) = false
  /\ Main.st_settings (fst (Main.recording_finished st env buffer)) = Main.st_settings st
  /\ Main.clipboardImage (fst (Main.recording_finished st env buffer))
     = Main.clipboardImage st.
Proof.
  unfold Main.recording_finished.
  destruct buffer as [bytes |]; [| repeat split].
  destruct (Main.bufLength (Some bytes) =? 0); [repeat split |].
  destruct (Main.fin_writeOk env); cbn [negb];
    [| destruct (Main.fin_writeFailure env); repeat split].
  cbn [Main.st_settings Main.writeFileSync Main.showNotification Main.set_isRecording].
  destruct (videoFormat (Main.st_settings st)); [| repeat split].
  destruct (Main.fin_ffmpeg env); [repeat split |].
  unfold Main.logDebug.
  destruct (Main.fin_appendOk env); [| destruct (Main.fin_appendFailure env)];
    repeat split.
Qed.

(** X2. A non-empty recording, written and transcoded with success when
    the format is mp4, leaves two files: the .webm with the bytes received
    and the .mp4 made from it, under different names; every other path is
    untouched and the last notification is the success one. *)
Theorem successful_mp4_save_keeps_both_files
    (st : Main.State) (env : Main.FinishEnv) (bytes : list Byte.byte) :
  bytes <> [] ->
  Main.fin_writeOk env = true ->
  videoFormat (Main.st_settings st) = mp4 ->
  Main.fin_ffmpeg env = Main.FfmpegEnd ->
  let st' := fst (Main.recording_finished st env (Some bytes)) in
  let webmPath := Main.recording_path st (Main.fin_now env) ".webm" in
  let mp4Path := Main.recording_path st (Main.fin_now env) ".mp4" in
  Main.fs st' !! webmPath = Some (Main.RawBytes bytes)
  /\ Main.fs st' !! mp4Path = Some (Main.TranscodedFrom webmPath)
  /\ mp4Path <> webmPath
  /\ (forall other, other <> webmPath -> other <> mp4Path ->
                    Main.fs st' !! other = Main.fs st !! other)
  /\ Main.notifications st'
     = Main.notifications st
       ++ [Main.SavingWriting; Main.SavingTranscoding; Main.SavedMp4AndWebM].
Proof.
  intros Hne Hw Hfmt Hff st' webmPath mp4Path. subst st'.
  unfold Main.recording_finished.
  rewrite (nonempty_bufLength bytes Hne), Hw. cbn [negb].
  cbn [Main.st_settings Main.writeFileSync Main.showNotification Main.set_isRecording].
  rewrite Hfmt, Hff.
  cbn [fst Main.fs Main.notifications Main.showNotification Main.writeFileSync].
  change (Main.recording_path _ (Main.fin_now env) ".webm") with webmPath.
  change (Main.recording_path _ (Main.fin_now env) ".mp4") with mp4Path.
  assert (Hd : mp4Path <> webmPath) by apply mp4_path_is_not_the_webm_path.
  split; [rewrite lookup_insert_ne by exact Hd; apply lookup_insert_eq |].
  split; [apply lookup_insert_eq |]. split; [exact Hd |]. split.
  - intros other H1 H2. rewrite !lookup_insert_ne by congruence. reflexivity.
  - rewrite <- !app_assoc. reflexivity.
Qed.

(** The same recording on a disk and with an ffmpeg that work. *)
Lemma successful_mp4_save_witness :
  Main.fs (fst (Main.recording_finished (Main.idle (settings "/home/u/Desktop"))
                  {| Main.fin_now := "2024-01-02T03:04:05.678Z"; Main.fin_writeOk := true;
                     Main.fin_writeFailure := Main.BeforeOpen;
                     Main.fin_ffmpeg := Main.FfmpegEnd;
                     Main.fin_logNow := "2024-01-02T03:04:06.000Z";
                     Main.fin_appendOk := true;
                     Main.fin_appendFailure := Main.BeforeOpen |} (Some [Byte.x78])))
    !! Main.recording_path (Main.idle (settings "/home/u/Desktop"))
         "2024-01-02T03:04:05.678Z" ".webm"
  = Some (Main.RawBytes [Byte.x78]).
Proof.
  apply (successful_mp4_save_keeps_both_files
           (Main.idle (settings "/home/u/Desktop"))
           {| Main.fin_now := "2024-01-02T03:04:05.678Z"; Main.fin_writeOk := true;
              Main.fin_writeFailure := Main.BeforeOpen;
              Main.fin_ffmpeg := Main.FfmpegEnd;
              Main.fin_logNow := "2024-01-02T03:04:06.000Z";
              Main.fin_appendOk := true;
              Main.fin_appendFailure := Main.BeforeOpen |} [Byte.x78]);
    [ discriminate | reflexivity | reflexivity | reflexivity ].
Defined.

(** X3. When the configured format is webm, a non-empty recording is
    written once, as the .webm, and nothing else happens to the disk:
    ffmpeg is not consulted. *)
Theorem webm_format_writes_only_the_webm
    (st : Main.State) (env : Main.FinishEnv) (bytes : list Byte.byte) :
  bytes <> [] ->
  Main.fin_writeOk env = true ->
  videoFormat (Main.st_settings st) = webm ->
  let st' := fst (Main.recording_finished st env (Some bytes)) in
  Main.fs st'
  = <[Main.recording_path st (Main.fin_now env) ".webm" := Main.RawBytes bytes]>
      (Main.fs st)
  /\ Main.notifications st'
     = Main.notifications st ++ [Main.SavingWriting; Main.SavedWebM].
Proof.
  intros Hne Hw Hfmt st'. subst st'. unfold Main.recording_finished.
  rewrite (nonempty_bufLength bytes Hne), Hw. cbn [negb].
  cbn [Main.st_settings Main.writeFileSync Main.showNotification Main.set_isRecording].
  rewrite Hfmt.
  cbn [fst Main.fs Main.notifications Main.showNotification Main.writeFileSync
       Main.set_isRecording].
  split; [reflexivity |]. rewrite <- !app_assoc. reflexivity.
Qed.

Lemma webm_format_witness :
  Main.notifications
    (fst (Main.recording_finished
            (Main.idle {| savePath := "/home/u/Desktop"; imageFormat := png;
                          videoFormat := webm; audioSource := none;
                          frameRate := 30; shortcutMode := standard |})
            Main.failing_ffmpeg_env (Some [Byte.x78])))
  = [Main.SavingWriting; Main.SavedWebM].
Proof.
  apply (webm_format_writes_only_the_webm
           (Main.idle {| savePath := "/home/u/Desktop"; imageFormat := png;
                         videoFormat := webm; audioSource := none;
                         frameRate := 30; shortcutMode := standard |})
           Main.failing_ffmpeg_env [Byte.x78]);
    [ discriminate | reflexivity | reflexivity ].
Defined.

(** X4. When writing the .webm fails, the user is told that the write
    failed, and no transcoding is announced or started.  Every other path
    of the disk is untouched; at the path of the .webm the disk is as it
    was when the file could not be opened, and holds what was written
    before the failure otherwise: the handler removes nothing. *)
Theorem failed_write_leaves_at_most_a_partial_webm
    (st : Main.State) (env : Main.FinishEnv) (bytes : list Byte.byte) :
  bytes <> [] ->
  Main.fin_writeOk env = false ->
  let st' := fst (Main.recording_finished st env (Some bytes)) in
  let webmPath := Main.recording_path st (Main.fin_now env) ".webm" in
  (forall other, other <> webmPath -> Main.fs st' !! other = Main.fs st !! other)
  /\ Main.fs st' !! webmPath
     = match Main.fin_writeFailure env with
       | Main.BeforeOpen => Main.fs st !! webmPath
       | Main.AfterBytes n => Some (Main.Partial n (Main.RawBytes bytes))
       end
  /\ Main.notifications st'
     = Main.notifications st ++ [Main.SavingWriting; Main.SaveFailedTemp].
Proof.
  intros Hne Hw st' webmPath. subst st'. unfold Main.recording_finished.
  rewrite (nonempty_bufLength bytes Hne), Hw. cbn [negb fst].
  change (Main.recording_path _ (Main.fin_now env) ".webm") with webmPath.
  unfold Main.failedWriteFileSync.
  destruct (Main.fin_writeFailure env) as [| n];
    cbn [Main.fs Main.notifications Main.showNotification Main.set_isRecording
         Main.writeFileSync].
  - split; [reflexivity |]. split; [reflexivity |]. rewrite <- !app_assoc. reflexivity.
  - split; [intros other Ho; apply lookup_insert_ne; congruence |].
    split; [apply lookup_insert_eq |]. rewrite <- !app_assoc. reflexivity.
Qed.

(** The disk fills up after the first byte of a two-byte recording. *)
Lemma failed_write_witness :
  Main.fs (fst (Main.recording_finished (Main.idle (settings "/home/u/Desktop"))
                  {| Main.fin_now := "2024-01-02T03:04:05.678Z"; Main.fin_writeOk := false;
                     Main.fin_writeFailure := Main.AfterBytes 1;
                     Main.fin_ffmpeg := Main.FfmpegEnd;
                     Main.fin_logNow := "2024-01-02T03:04:06.000Z";
                     Main.fin_appendOk := true;
                     Main.fin_appendFailure := Main.BeforeOpen |} (Some [Byte.x78; Byte.x79])))
    !! "/home/u/Desktop/recording-2024-01-02T03-04-05-678Z.webm"
  = Some (Main.Partial 1 (Main.RawBytes [Byte.x78; Byte.x79])).
Proof.
  apply (failed_write_leaves_at_most_a_partial_webm
           (Main.idle (settings "/home/u/Desktop"))
           {| Main.fin_now := "2024-01-02T03:04:05.678Z"; Main.fin_writeOk := false;
              Main.fin_writeFailure := Main.AfterBytes 1;
              Main.fin_ffmpeg := Main.FfmpegEnd;
              Main.fin_logNow := "2024-01-02T03:04:06.000Z";
              Main.fin_appendOk := true;
              Main.fin_appendFailure := Main.BeforeOpen |} [Byte.x78; Byte.x79]);
    [ discriminate | reflexivity ].
Defined.

(** ** Still capture, all paths *)

(** X5. When no screen source is listed, [capture-region] ends with the
    exception 'No screen source': nothing is copied, written or notified;
    the selector overlay has been closed all the same. *)
Theorem capture_without_a_source_throws_and_changes_nothing
    (st : Main.State) (env : Main.CaptureEnv) (rect : Main.Rect) (mode : Mode) :
  Main.getSources env
    (Js.mul (inject_Z (Main.bounds_width (Main.display env)))
            (Main.scaleFactor (Main.display env)),
     Js.mul (inject_Z (Main.bounds_height (Main.display env)))
            (Main.scaleFactor (Main.display env))) = None ->
  Main.capture_region st env rect mode
  = (Main.closeSelectorWindow st, Js.Thrown "No screen source").
Proof. intros H. unfold Main.capture_region. rewrite H. reflexivity. Qed.

Lemma capture_without_a_source_witness :
  snd (Main.capture_region (Main.idle (settings "/home/u/Desktop"))
         {| Main.display := {| Main.bounds_width := 1920; Main.bounds_height := 1080;
                               Main.scaleFactor := 1 |};
            Main.getSources := fun _ => None;
            Main.now := "2024-01-02T03:04:05.678Z"; Main.writeOk := true;
            Main.writeFailure := Main.BeforeOpen |}
         Main.sample_rect clipboard)
  = Js.Thrown "No screen source".
Proof.
  rewrite (capture_without_a_source_throws_and_changes_nothing
             (Main.idle (settings "/home/u/Desktop"))
             {| Main.display := {| Main.bounds_width := 1920; Main.bounds_height := 1080;
                                   Main.scaleFactor := 1 |};
                Main.getSources := fun _ => None;
                Main.now := "2024-01-02T03:04:05.678Z"; Main.writeOk := true;
            Main.writeFailure := Main.BeforeOpen |}
             Main.sample_rect clipboard eq_refl).
  reflexivity.
Defined.

(** X6. Every [capture-region] closes the selector overlay; a clipboard
    capture never touches the disk, a file capture never touches the
    clipboard, and a call in record mode does neither; the recording flag
    and the settings are never changed. *)
Theorem capture_region_touches_only_its_target
    (st : Main.State) (env : Main.CaptureEnv) (rect : Main.Rect) (mode : Mode) :
  let st' := fst (Main.capture_region st env rect mode) in
  Main.selectorWindow st' = false
  /\ Main.isRecording st' = Main.isRecording st
  /\ Main.st_settings st' = Main.st_settings st
  /\ (mode <> file -> Main.fs st' = Main.fs st)
  /\ (mode <> clipboard -> Main.clipboardImage st' = Main.clipboardImage st)
  /\ (mode = record -> Main.notifications st' = Main.notifications st).
Proof.
  unfold Main.capture_region.
  destruct (Main.getSources env _) as [imgSize |]; [| repeat split].
  destruct mode; [| destruct (Main.writeOk env); [| destruct (Main.writeFailure env)] |];
    cbn; repeat split; congruence.
Qed.

(** X7. When the captured image is a whole multiple [k] of the display
    size (the usual 1x, 2x, 3x displays), the crop of a selection made on
    the overlay is the selection multiplied by [k], exactly: no pixel is
    gained or lost by the rounding.  The factor and the products are whole
    numbers a double holds, of at most 53 bits. *)
Theorem crop_is_exact_for_an_integral_scale
    (k width height : Z) (imgSize : Main.Size) (sel : Selector.SelectionRect) :
  0 < width -> 0 < height ->
  Main.size_width imgSize = k * width ->
  Main.size_height imgSize = k * height ->
  Z.abs k <= 2 ^ 53 ->
  Z.abs (k * Selector.x sel) <= 2 ^ 53 -> Z.abs (k * Selector.y sel) <= 2 ^ 53 ->
  Z.abs (k * Selector.width sel) <= 2 ^ 53 -> Z.abs (k * Selector.height sel) <= 2 ^ 53 ->
  Main.cropRect width height imgSize (App.to_main sel)
  = {| Main.crop_x := k * Selector.x sel; Main.crop_y := k * Selector.y sel;
       Main.crop_width := k * Selector.width sel;
       Main.crop_height := k * Selector.height sel |}.
Proof.
  intros Hw Hh HW HH Bk Bx By Bsw Bsh.
  unfold Main.cropRect, Main.scaleX, Main.scaleY, App.to_main.
  rewrite HW, HH. cbn [Main.rect_x Main.rect_y Main.rect_width Main.rect_height].
  rewrite !round_scaled_exact by assumption.
  reflexivity.
Qed.

(** A 300x200 drag on a 3x display. *)
Lemma crop_is_exact_witness :
  Main.cropRect 1280 720 {| Main.size_width := 3840; Main.size_height := 2160 |}
    (App.to_main (Selector.dragged 10 20 310 220))
  = {| Main.crop_x := 30; Main.crop_y := 60;
       Main.crop_width := 900; Main.crop_height := 600 |}.
Proof.
  apply (crop_is_exact_for_an_integral_scale 3 1280 720
           {| Main.size_width := 3840; Main.size_height := 2160 |}
           (Selector.dragged 10 20 310 220));
    [ lia | lia | reflexivity | reflexivity
    | simpl; lia | simpl; lia | simpl; lia | simpl; lia | simpl; lia ].
Defined.

(** ** File names *)

Lemma replace_colon_dot_length (s : string) :
  String.length (Main.replace_colon_dot s) = String.length s.
Proof. induction s as [| c s IH]; cbn; [reflexivity | rewrite IH; reflexivity]. Qed.

Lemma replace_colon_dot_clean (s : string) :
  occurs ":" (Main.replace_colon_dot s) = false
  /\ occurs "." (Main.replace_colon_dot s) = false.
Proof.
  induction s as [| c s [IH1 IH2]]; [split; reflexivity |].
  cbn [Main.replace_colon_dot occurs].
  destruct (Ascii.eqb c ":") eqn:Ec; cbn [orb].
  - rewrite IH1, IH2. split; reflexivity.
  - destruct (Ascii.eqb c ".") eqn:Ed.
    + rewrite IH1, IH2. split; reflexivity.
    + rewrite IH1, IH2.
      rewrite (Ascii.eqb_sym ":" c), Ec, (Ascii.eqb_sym "." c), Ed. split; reflexivity.
Qed.

(** X8. The timestamp put into file names has as many characters as the
    ISO time it is made from and contains neither ':' nor '.'; so the
    [.split('.')[0]] applied after the replacement removes nothing, and the
    milliseconds stay in the name. *)
Theorem timestamp_is_the_iso_time_without_colons_and_dots (iso : string) :
  Main.timestamp iso = Main.replace_colon_dot iso
  /\ String.length (Main.timestamp iso) = String.length iso
  /\ occurs ":" (Main.timestamp iso) = false
  /\ occurs "." (Main.timestamp iso) = false.
Proof.
  rewrite timestamp_replace. split; [reflexivity |].
  split; [apply replace_colon_dot_length | apply replace_colon_dot_clean].
Qed.

(** ** The notification bubble *)

Lemma Math_round_le (q q' : Q) : (q <= q')%Q -> Js.Math_round q <= Js.Math_round q'.
Proof. intros H. unfold Js.Math_round. apply Qfloor_resp_le. lra. Qed.

Lemma lt_true (a b : Q) : Notify.lt a b = true -> (a < b)%Q.
Proof.
  unfold Notify.lt. intros H. apply negb_true_iff in H.
  destruct (Qlt_le_dec a b) as [Hlt | Hle]; [exact Hlt |].
  apply Qle_bool_iff in Hle. congruence.
Qed.

Lemma lt_false (a b : Q) : Notify.lt a b = false -> (b <= a)%Q.
Proof.
  unfold Notify.lt. intros H. apply negb_false_iff in H. apply Qle_bool_iff. exact H.
Qed.

(** X9. On a display at least 160 wide, the 140-wide notification bubble
    is placed with a margin of 10 on both sides, wherever the pointer is;
    and it is placed no higher than 10 from the top for every pointer at or
    below y = -20. *)
Theorem notification_stays_on_screen (mx my : Q) (width : Z) :
  160 <= width ->
  let p := Notify.position mx my width in
  10 <= fst p /\ fst p + 140 <= width - 10
  /\ ((-20 <= my)%Q -> 10 <= snd p).
Proof.
  intros Hw p. subst p. unfold Notify.position, Notify.notifWidth, Notify.notifHeight.
  cbn [fst snd].
  assert (HwQ : (160 <= inject_Z width)%Q).
  { change 160%Q with (inject_Z 160). rewrite <- Zle_Qle. exact Hw. }
  set (x1 := if Notify.lt (mx - 140 / 2) 10 then 10%Q else (mx - 140 / 2)%Q).
  assert (H1 : (10 <= x1)%Q).
  { subst x1. destruct (Notify.lt (mx - 140 / 2) 10) eqn:E; [lra |].
    apply lt_false in E. exact E. }
  set (x2 := if Notify.lt (inject_Z width - 10) (x1 + 140)
             then (inject_Z width - 140 - 10)%Q else x1).
  assert (H2 : (10 <= x2 /\ x2 <= inject_Z width - 150)%Q).
  { subst x2. destruct (Notify.lt (inject_Z width - 10) (x1 + 140)) eqn:E.
    - split; lra.
    - apply lt_false in E. split; lra. }
  destruct H2 as [H2 H3].
  assert (R10 : Js.Math_round 10 = 10) by (change 10%Q with (inject_Z 10); apply Math_round_Z).
  split; [| split].
  - apply Z.le_trans with (Js.Math_round 10); [rewrite R10; lia |].
    apply Math_round_le. exact H2.
  - assert (Hr : Js.Math_round x2 <= width - 150).
    { rewrite <- (Math_round_Z (width - 150)). apply Math_round_le.
      unfold Z.sub. rewrite inject_Z_plus, inject_Z_opp.
      change (inject_Z 150) with 150%Q. lra. }
    lia.
  - intros Hy. apply Z.le_trans with (Js.Math_round 10); [rewrite R10; lia |].
    apply Math_round_le.
    destruct (Notify.lt (my - 36 - 20) 10) eqn:E; [lra |].
    apply lt_false in E. exact E.
Qed.

(** The pointer in the top-right corner of a 1920-wide display. *)
Lemma notification_witness :
  10 <= fst (Notify.position 1919 5 1920)
  /\ fst (Notify.position 1919 5 1920) + 140 <= 1920 - 10
  /\ ((-20 <= 5)%Q -> 10 <= snd (Notify.position 1919 5 1920)).
Proof. exact (notification_stays_on_screen 1919 5 1920 ltac:(lia)). Defined.

(** ** More on the overlay *)

Section OverlayFacts.

Import Selector.

Lemma fold_forwards (acts : list Action) (w : ClickThrough) :
  forwards w = true -> forwards (fold_left apply_action acts w) = true.
Proof.
  revert w. induction acts as [| a acts IH]; intros w Hw; [exact Hw |].
  cbn [fold_left]. apply IH. destruct a; try exact Hw.
  cbn. destruct ignore; reflexivity.
Qed.

Lemma commit_actions (prev cur : State) (a : Action) :
  In a (snd (commit prev cur)) -> exists i o, a = SetIgnoreMouseEvents i o.
Proof.
  unfold commit. cbn [snd]. intros H. apply in_app_or in H.
  assert (E : forall s, exists i o, clickThroughEffect s = SetIgnoreMouseEvents i o).
  { intros s. unfold clickThroughEffect.
    destruct (mode s), (isRecordingActive s), (hasBackdrop s); eauto. }
  destruct H as [H | H].
  - destruct (clickThroughDepsChanged prev cur); [| destruct H].
    destruct H as [<- | []]. apply E.
  - match type of H with
    | In _ (if ?c then _ else _) => destruct c; [| destruct H]
    end.
    destruct H as [<- | []]. apply E.
Qed.

Lemma step_actions (s : State) (e : Event) (a : Action) :
  In a (snd (step s e)) ->
  In a (snd (handle e s)) \/ exists i o, a = SetIgnoreMouseEvents i o.
Proof.
  rewrite step_unfold. cbn [snd]. intros H. apply in_app_or in H as [H | H].
  - left. exact H.
  - right. eapply commit_actions. exact H.
Qed.

End OverlayFacts.

(** X10. The overlay window never passes through without forwarding the
    pointer moves: the main process forwards whenever it ignores, whatever
    options the page sent.  In the two still modes the freshly mounted
    overlay asks for pass-through without forwarding, and gets it with
    forwarding. *)
Theorem overlay_window_always_forwards
    (o : Selector.Overlay) (e : Selector.Event) (m : Mode) (onStart : bool) :
  forwards (Selector.win o) = true ->
  forwards (Selector.win (Selector.run o e)) = true
  /\ forwards (Selector.win (Selector.mount m onStart)) = true
  /\ (m <> record ->
      Selector.clickThroughEffect (Selector.comp (Selector.mount m onStart))
      = Selector.SetIgnoreMouseEvents true (Some false)
      /\ Selector.win (Selector.mount m onStart) = pass_through true).
Proof.
  intros Hw. split; [| split].
  - rewrite run_unfold. cbn [Selector.win]. apply fold_forwards. exact Hw.
  - destruct m; reflexivity.
  - intros Hm. destruct m; [split; reflexivity | split; reflexivity | congruence].
Qed.

Lemma overlay_forwards_witness :
  forwards (Selector.win (Selector.run (Selector.mount clipboard true)
                            Selector.ClearScreenshot)) = true.
Proof.
  apply (overlay_window_always_forwards (Selector.mount clipboard true)
           Selector.ClearScreenshot clipboard true eq_refl).
Defined.

(** X11. While the primary button is down, the selection is the rectangle
    spanned by the point of the press and the pointer, whichever way the
    drag goes: its size is not negative, its left and top are the smaller
    coordinates, its right and bottom the larger ones. *)
Theorem selection_is_the_rectangle_spanned_by_the_drag
    (s : Selector.State) (x0 y0 x1 y1 : Z) :
  let s' := Selector.handleMouseMove x1 y1 (Selector.handleMouseDown 0 x0 y0 s) in
  Selector.selection s' = Some (Selector.dragged x0 y0 x1 y1)
  /\ Selector.startPoint s' = {| Selector.px := x0; Selector.py := y0 |}
  /\ 0 <= Selector.width (Selector.dragged x0 y0 x1 y1)
  /\ 0 <= Selector.height (Selector.dragged x0 y0 x1 y1)
  /\ Selector.x (Selector.dragged x0 y0 x1 y1) = Z.min x0 x1
  /\ Selector.x (Selector.dragged x0 y0 x1 y1)
     + Selector.width (Selector.dragged x0 y0 x1 y1) = Z.max x0 x1
  /\ Selector.y (Selector.dragged x0 y0 x1 y1) = Z.min y0 y1
  /\ Selector.y (Selector.dragged x0 y0 x1 y1)
     + Selector.height (Selector.dragged x0 y0 x1 y1) = Z.max y0 y1
  /\ Selector.dragged x0 y0 x1 y1 = Selector.dragged x1 y1 x0 y0.
Proof.
  cbv zeta. cbn. repeat split; try lia.
  unfold Selector.dragged. f_equal; lia.
Qed.

Ltac no_such_action H :=
  repeat match type of H with
         | In _ [] => destruct H
         | In _ (_ :: _) => destruct H as [H | H]; [discriminate |]
         | In _ (if ?c then _ else _) => destruct c
         | In _ (match ?x with _ => _ end) => destruct x
         | In _ (snd (if ?c then _ else _)) => destruct c; cbn [snd] in H
         | In _ (snd (match ?x with _ => _ end)) => destruct x; cbn [snd] in H
         end.

Lemma set_isSelecting_commit (s : Selector.State) (b : bool) :
  Selector.commit s (Selector.set_isSelecting b s) = (Selector.set_isSelecting b s, []).
Proof.
  unfold Selector.commit, Selector.clickThroughDepsChanged. cbn.
  rewrite (proj2 (mode_eqb_eq _ _) eq_refl), Bool.eqb_reflx,
    (proj2 (url_eqb_eq _ _) eq_refl). cbn.
  rewrite (proj2 (mode_eqb_eq _ _) eq_refl), Bool.eqb_reflx,
    (proj2 (url_eqb_eq _ _) eq_refl). reflexivity.
Qed.

Lemma mouse_up_commit (s : Selector.State) (button : Z) :
  snd (Selector.commit s (fst (Selector.handleMouseUp button s))) = [].
Proof.
  unfold Selector.handleMouseUp.
  destruct (negb (button =? 0) || negb (Selector.isSelecting s))%bool;
    [cbn [fst]; rewrite commit_same; reflexivity |].
  destruct (Selector.selection s) as [sel |];
    [destruct ((Selector.width sel >? 5) && (Selector.height sel >? 5))%bool;
     [destruct (Selector.mode s) |] |];
    cbn [fst]; rewrite set_isSelecting_commit; reflexivity.
Qed.

(** What a release of the button calls, read off [handleMouseUp]. *)
Lemma mouse_up_calls (s : Selector.State) (button : Z)
    (rect : Selector.SelectionRect) (m : Mode) (p : Selector.Point) :
  In (Selector.CaptureRegion rect m p) (snd (Selector.handleMouseUp button s)) ->
  button = 0
  /\ Selector.isSelecting s = true
  /\ m = Selector.mode s /\ m <> record
  /\ Selector.selection s = Some rect
  /\ p = Selector.startPoint s
  /\ 5 < Selector.width rect /\ 5 < Selector.height rect
  /\ snd (Selector.handleMouseUp button s) = [Selector.CaptureRegion rect m p].
Proof.
  unfold Selector.handleMouseUp.
  destruct (button =? 0) eqn:Eb; cbn [negb orb]; [| intros []].
  destruct (Selector.isSelecting s) eqn:Es; cbn [negb]; [| intros []].
  destruct (Selector.selection s) as [sel |] eqn:El; [| intros []].
  destruct (Selector.width sel >? 5) eqn:Ew; cbn [andb]; [| intros []].
  destruct (Selector.height sel >? 5) eqn:Eh; [| intros []].
  apply Z.eqb_eq in Eb. rewrite Z.gtb_ltb in Ew, Eh. apply Z.ltb_lt in Ew, Eh.
  assert (Hcap : forall mm,
             Selector.captureAndFinish mm sel (Selector.startPoint s)
             = [Selector.CaptureRegion sel mm (Selector.startPoint s)]).
  { intros mm. unfold Selector.captureAndFinish.
    replace (Selector.width sel <? 5) with false by (symmetry; apply Z.ltb_ge; lia).
    replace (Selector.height sel <? 5) with false by (symmetry; apply Z.ltb_ge; lia).
    reflexivity. }
  destruct (Selector.mode s) eqn:Em; cbn [snd]; [| | intros []];
    rewrite Hcap; intros [H | []]; injection H as <- <- <-;
    repeat (split; [first [reflexivity | assumption | discriminate] |]); reflexivity.
Qed.

(** X12. The overlay calls [captureRegion] only when the primary button is
    released during a drag, in one of the two still modes, with the current
    selection, the point of the press, and both sizes above five pixels:
    never in record mode, never for a smaller rectangle; and that call is
    then all the release does. *)
Theorem capture_is_called_only_for_a_still_selection_above_five
    (s : Selector.State) (e : Selector.Event)
    (rect : Selector.SelectionRect) (m : Mode) (p : Selector.Point) :
  In (Selector.CaptureRegion rect m p) (snd (Selector.step s e)) ->
  (exists cx cy, e = Selector.MouseUp 0 cx cy)
  /\ Selector.isSelecting s = true
  /\ m = Selector.mode s /\ m <> record
  /\ Selector.selection s = Some rect
  /\ p = Selector.startPoint s
  /\ 5 < Selector.width rect /\ 5 < Selector.height rect
  /\ snd (Selector.step s e) = [Selector.CaptureRegion rect m p].
Proof.
  intros Hin.
  assert (Hh : In (Selector.CaptureRegion rect m p) (snd (Selector.handle e s))).
  { apply step_actions in Hin as [H | (i & o & H)]; [exact H | discriminate]. }
  destruct e; cbn [Selector.handle snd] in Hh;
    try (unfold Selector.handleControlMouseEnter, Selector.handleControlMouseLeave,
           Selector.handleStartRecording in Hh; no_such_action Hh; fail).
  apply mouse_up_calls in Hh as (-> & Hs & Hm & Hr & Hl & Hp & Hw & Hhh & Hall).
  split; [eauto |]. repeat (split; [assumption |]).
  rewrite step_unfold. cbn [Selector.handle snd].
  rewrite mouse_up_commit, app_nil_r. exact Hall.
Qed.

(** A 300x200 drag on the frozen screenshot, in clipboard mode. *)
Lemma capture_is_called_witness :
  snd (Selector.step
         (Selector.handleMouseMove 310 210
            (Selector.handleMouseDown 0 10 10
               (Selector.comp Selector.frozen_clipboard_overlay)))
         (Selector.MouseUp 0 310 210))
  = [Selector.CaptureRegion (Selector.dragged 10 10 310 210) clipboard
       {| Selector.px := 10; Selector.py := 10 |}].
Proof.
  apply (capture_is_called_only_for_a_still_selection_above_five
           (Selector.handleMouseMove 310 210
              (Selector.handleMouseDown 0 10 10
                 (Selector.comp Selector.frozen_clipboard_overlay)))
           (Selector.MouseUp 0 310 210)
           (Selector.dragged 10 10 310 210) clipboard
           {| Selector.px := 10; Selector.py := 10 |}).
  left. reflexivity.
Defined.

(** X13. The overlay starts a recording only through a click on the start
    button of the control bar: in record mode, with no drag in progress,
    with the current selection, both sizes above twenty pixels; from then
    on [isRecordingActive] is set, and an overlay that agreed with the
    click-through policy passes the pointer through. *)
Theorem recording_starts_only_from_the_control_bar
    (o : Selector.Overlay) (e : Selector.Event) (rect : Selector.SelectionRect) :
  Selector.consistent o ->
  In (Selector.OnStartRecording rect) (snd (Selector.step (Selector.comp o) e)) ->
  let s := Selector.comp o in
  e = Selector.ClickStartRecording
  /\ Selector.mode s = record
  /\ Selector.isSelecting s = false
  /\ Selector.selection s = Some rect
  /\ 20 < Selector.width rect /\ 20 < Selector.height rect
  /\ Selector.isRecordingActive (Selector.comp (Selector.run o e)) = true
  /\ Selector.win (Selector.run o e) = pass_through true.
Proof.
  intros Hc Hin s. subst s.
  assert (Hh : In (Selector.OnStartRecording rect)
                 (snd (Selector.handle e (Selector.comp o)))).
  { apply step_actions in Hin as [H | (i & x & H)]; [exact H | discriminate]. }
  destruct e; cbn [Selector.handle snd] in Hh;
    try (unfold Selector.handleControlMouseEnter, Selector.handleControlMouseLeave,
           Selector.handleMouseUp, Selector.captureAndFinish in Hh;
         no_such_action Hh; fail).
  destruct (Selector.controlBarRendered (Selector.comp o)) eqn:Eb; [| destruct Hh].
  unfold Selector.handleStartRecording in Hh.
  unfold Selector.controlBarRendered in Eb.
  destruct (Selector.selection (Selector.comp o)) as [sel |] eqn:El; [| discriminate].
  destruct (Selector.hasOnStartRecording (Selector.comp o)) eqn:Eo; [| destruct Hh].
  destruct Hh as [Hh | []]. injection Hh as <-.
  apply andb_true_iff in Eb as [Eb Eh]. apply andb_true_iff in Eb as [Eb Ew].
  apply andb_true_iff in Eb as [Em Es].
  rewrite Z.gtb_ltb in Ew, Eh. apply Z.ltb_lt in Ew, Eh.
  apply negb_true_iff in Es.
  assert (Hm : Selector.mode (Selector.comp o) = record)
    by (destruct (Selector.mode (Selector.comp o)); [discriminate | discriminate | reflexivity]).
  split; [reflexivity |]. do 5 (split; [assumption || reflexivity |]).
  assert (Hrun : Selector.handle Selector.ClickStartRecording (Selector.comp o)
                 = (Selector.set_isRecordingActive true (Selector.comp o),
                    [Selector.OnStartRecording sel])).
  { cbn [Selector.handle]. unfold Selector.controlBarRendered, Selector.handleStartRecording.
    rewrite El, Eo, Hm, Es.
    replace (Selector.width sel >? 20) with true
      by (symmetry; rewrite Z.gtb_ltb; apply Z.ltb_lt; lia).
    replace (Selector.height sel >? 20) with true
      by (symmetry; rewrite Z.gtb_ltb; apply Z.ltb_lt; lia).
    reflexivity. }
  pose proof (commit_consistent (Selector.comp o)
                (Selector.set_isRecordingActive true (Selector.comp o))
                (Selector.win o) Hc) as Hk.
  cbv zeta in Hk.
  assert (Hcur : fst (Selector.commit (Selector.comp o)
                        (Selector.set_isRecordingActive true (Selector.comp o)))
                 = Selector.set_isRecordingActive true (Selector.comp o)).
  { unfold Selector.commit. cbn [fst Selector.mode Selector.set_isRecordingActive].
    rewrite (proj2 (mode_eqb_eq _ _) eq_refl). reflexivity. }
  rewrite run_unfold, step_unfold, Hrun. cbn [fst snd Selector.comp Selector.win].
  rewrite Hcur. split; [reflexivity |].
  cbn [app fold_left Selector.apply_action].
  rewrite Hk, Hcur. cbn [Selector.mode Selector.isRecordingActive Selector.set_isRecordingActive].
  rewrite Hm. reflexivity.
Qed.

(** The start button clicked after a 300x200 drag in record mode. *)
Lemma recording_starts_witness :
  Selector.win
    (Selector.run (Selector.runs (Selector.mount record true) (Selector.drag 10 10 310 210))
       Selector.ClickStartRecording)
  = pass_through true.
Proof.
  apply (recording_starts_only_from_the_control_bar
           (Selector.runs (Selector.mount record true) (Selector.drag 10 10 310 210))
           Selector.ClickStartRecording (Selector.dragged 10 10 310 210));
    [ reflexivity | left; reflexivity ].
Defined.

(** X14. The overlay asks to be cancelled exactly on the Escape key, on
    the context menu (secondary button), and on the cancel button of a
    control bar that is shown; these leave the component as it was. *)
Theorem cancel_exactly_on_escape_context_menu_and_cancel_button
    (s : Selector.State) (e : Selector.Event) :
  (In Selector.OnCancel (snd (Selector.step s e))
   <-> (e = Selector.KeyDown "Escape" \/ e = Selector.ContextMenu
        \/ (e = Selector.ClickCancel /\ Selector.controlBarRendered s = true)))
  /\ (In Selector.OnCancel (snd (Selector.step s e)) ->
      Selector.step s e = (s, [Selector.OnCancel])).
Proof.
  assert (Hfwd : In Selector.OnCancel (snd (Selector.step s e)) ->
                 (e = Selector.KeyDown "Escape" \/ e = Selector.ContextMenu
                  \/ (e = Selector.ClickCancel /\ Selector.controlBarRendered s = true))).
  { intros Hin.
    assert (Hh : In Selector.OnCancel (snd (Selector.handle e s))).
    { apply step_actions in Hin as [H | (i & x & H)]; [exact H | discriminate]. }
    destruct e; cbn [Selector.handle snd] in Hh;
      try (unfold Selector.handleControlMouseEnter, Selector.handleControlMouseLeave,
             Selector.handleMouseUp, Selector.captureAndFinish,
             Selector.handleStartRecording in Hh;
           no_such_action Hh; fail).
    - destruct (String.eqb key "Escape") eqn:Ek; [| destruct Hh].
      apply String.eqb_eq in Ek. subst key. left. reflexivity.
    - right. left. reflexivity.
    - destruct (Selector.controlBarRendered s) eqn:Eb; [| destruct Hh].
      right. right. split; reflexivity. }
  assert (Hbwd : (e = Selector.KeyDown "Escape" \/ e = Selector.ContextMenu
                  \/ (e = Selector.ClickCancel /\ Selector.controlBarRendered s = true)) ->
                 Selector.step s e = (s, [Selector.OnCancel])).
  { intros [-> | [-> | [-> Hb]]]; rewrite step_unfold; cbn [Selector.handle fst snd];
      rewrite ?Hb, commit_same; reflexivity. }
  split; [split; [exact Hfwd |] |].
  - intros H. rewrite (Hbwd H). left. reflexivity.
  - intros H. apply Hbwd, Hfwd, H.
Qed.

Section ActiveOnlyInRecord.

Import Selector.

Lemma handle_keeps_active_only_in_record (s : State) (e : Event) :
  active_only_in_record s ->
  mode (fst (handle e s)) = mode s ->
  active_only_in_record (fst (handle e s)).
Proof.
  unfold active_only_in_record. intros Hs Hm.
  destruct e; cbn [handle fst] in *; try exact Hs.
  - unfold handleMouseDown. destruct (negb (button =? 0)); exact Hs.
  - unfold handleMouseMove. destruct (negb (isSelecting s)); exact Hs.
  - assert (E : fst (handleMouseUp button s) = s
                \/ fst (handleMouseUp button s) = set_isSelecting false s).
    { unfold handleMouseUp.
      destruct (negb (button =? 0) || negb (isSelecting s))%bool; [left; reflexivity |].
      destruct (selection s) as [sel |]; [| right; reflexivity].
      destruct ((width sel >? 5) && (height sel >? 5))%bool; [| right; reflexivity].
      destruct (mode s); right; reflexivity. }
    destruct E as [-> | ->]; exact Hs.
  - destruct (controlBarRendered s) eqn:Eb; [| exact Hs].
    unfold handleStartRecording. unfold controlBarRendered in Eb.
    destruct (selection s) as [sel |]; [| discriminate].
    destruct (hasOnStartRecording s); [| exact Hs].
    cbn. intros Hr. rewrite Hr in Eb. discriminate.
  - cbn in Hm |- *. rewrite Hm. exact Hs.
Qed.

Lemma step_keeps_active_only_in_record (s : State) (e : Event) :
  active_only_in_record s -> active_only_in_record (fst (step s e)).
Proof.
  intros Hs. rewrite step_unfold. cbn [fst]. unfold commit. cbn [fst].
  destruct (mode_eqb (mode s) (mode (fst (handle e s)))) eqn:Em.
  - apply mode_eqb_eq in Em. apply handle_keeps_active_only_in_record; auto.
  - unfold active_only_in_record, resetEffect.
    destruct (is_record (mode (fst (handle e s)))) eqn:Er; [congruence |].
    reflexivity.
Qed.

Lemma runs_keep_active_only_in_record (es : list Event) (o : Overlay) :
  active_only_in_record (comp o) -> active_only_in_record (comp (runs o es)).
Proof.
  revert o. induction es as [| e es IH]; intros o Ho; [exact Ho |].
  cbn [runs]. apply IH. rewrite run_unfold. cbn [comp].
  apply step_keeps_active_only_in_record. exact Ho.
Qed.

End ActiveOnlyInRecord.

(** X15. Whatever happens to an overlay after it is mounted, in either of
    the two still modes [isRecordingActive] is false: it is set by the start
    button, which exists in record mode only, and reset when the mode
    leaves record. *)
Theorem recording_is_active_in_record_mode_only
    (m : Mode) (onStart : bool) (es : list Selector.Event) :
  let s := Selector.comp (Selector.runs (Selector.mount m onStart) es) in
  active_only_in_record s
  /\ (Selector.mode s <> record -> Selector.isRecordingActive s = false).
Proof.
  cbv zeta.
  assert (H : active_only_in_record
                (Selector.comp (Selector.runs (Selector.mount m onStart) es))).
  { apply runs_keep_active_only_in_record. intros _. reflexivity. }
  split; [exact H |]. intros Hm. apply H.
  destruct (Selector.mode _); [reflexivity | reflexivity | congruence].
Qed.

(** X16. When the main process clears the screenshot for a reuse of the
    window, the overlay releases the blob URL it held, forgets the
    selection, and, in the two still modes, the window agreeing with the
    policy goes back to pass-through. *)
Theorem clearing_the_screenshot_releases_it (o : Selector.Overlay) :
  Selector.consistent o ->
  let o' := Selector.run o Selector.ClearScreenshot in
  Selector.screenshotUrl (Selector.comp o') = None
  /\ Selector.selection (Selector.comp o') = None
  /\ (forall c u, Selector.screenshotUrl (Selector.comp o) = Some (String c u) ->
        In (Selector.RevokeObjectURL (String c u))
           (snd (Selector.step (Selector.comp o) Selector.ClearScreenshot)))
  /\ Selector.consistent o'
  /\ (Selector.mode (Selector.comp o) <> record -> Selector.win o' = pass_through true).
Proof.
  intros Hc o'. subst o'.
  pose proof (commit_consistent (Selector.comp o)
                (fst (Selector.handle Selector.ClearScreenshot (Selector.comp o)))
                (Selector.win o) Hc) as Hk.
  cbv zeta in Hk.
  assert (Hwin : Selector.win (Selector.run o Selector.ClearScreenshot)
                 = fold_left Selector.apply_action
                     (snd (Selector.commit (Selector.comp o)
                             (fst (Selector.handle Selector.ClearScreenshot
                                     (Selector.comp o)))))
                     (Selector.win o)).
  { rewrite run_unfold, step_unfold. cbn [Selector.win snd]. rewrite fold_left_app.
    rewrite (handle_leaves_window Selector.ClearScreenshot _ _ eq_refl). reflexivity. }
  assert (Hcomp : Selector.comp (Selector.run o Selector.ClearScreenshot)
                  = fst (Selector.commit (Selector.comp o)
                           (fst (Selector.handle Selector.ClearScreenshot
                                   (Selector.comp o))))).
  { rewrite run_unfold, step_unfold. reflexivity. }
  assert (Hfst : fst (Selector.commit (Selector.comp o)
                        (fst (Selector.handle Selector.ClearScreenshot (Selector.comp o))))
                 = Selector.set_selection None
                     (Selector.set_screenshotUrl None (Selector.comp o))).
  { unfold Selector.commit. cbn [fst Selector.handle Selector.mode
                                 Selector.set_selection Selector.set_screenshotUrl].
    rewrite (proj2 (mode_eqb_eq _ _) eq_refl). reflexivity. }
  rewrite Hfst in Hk, Hcomp.
  split; [rewrite Hcomp; reflexivity |]. split; [rewrite Hcomp; reflexivity |].
  split.
  - intros c u Hu. rewrite step_unfold. cbn [Selector.handle snd]. rewrite Hu.
    left. reflexivity.
  - assert (Hcons : Selector.consistent (Selector.run o Selector.ClearScreenshot)).
    { unfold Selector.consistent. rewrite Hwin, Hk, Hcomp. reflexivity. }
    split; [exact Hcons |].
    intros Hm. rewrite Hcons, Hcomp.
    cbn [Selector.mode Selector.isRecordingActive Selector.hasBackdrop
         Selector.screenshotUrl Selector.set_selection Selector.set_screenshotUrl].
    destruct (Selector.mode (Selector.comp o)); [reflexivity | reflexivity | congruence].
Qed.

Lemma clearing_the_screenshot_witness :
  Selector.win (Selector.run Selector.frozen_clipboard_overlay Selector.ClearScreenshot)
  = pass_through true.
Proof.
  apply (clearing_the_screenshot_releases_it Selector.frozen_clipboard_overlay eq_refl).
  discriminate.
Defined.

(** ** The recording worker: audio, start, stop *)

(** The tracks the audio set-up adds to the recorded stream. *)
Lemma audio_added_tracks
    (settings : AppSettings) (acq : Worker.Acquired) (base : positive) :
  let a := Worker.audio_setup settings acq base in
  (length (Worker.a_added a) <= 1)%nat
  /\ (forall tr t, Worker.a_sys a = Some tr -> In t tr -> ~ In t (Worker.a_added a))
  /\ (forall t, In t (Worker.a_added a) -> In t (Worker.a_live a)).
Proof.
  cbv zeta. unfold Worker.audio_setup.
  destruct (audioSource settings); [| destruct (Worker.sysOk acq);
    [destruct (Worker.audioCtx acq) as [| | []] |] | destruct (Worker.micOk acq)];
    cbn; repeat split; try congruence; try tauto; try lia;
    try (intros; discriminate).
  all: try (intros tr t [= <-]; cbn; intros [<- | [<- | []]] [E | []]; lia).
  all: intros t [<- | []]; tauto.
Qed.

(** X17. Whatever the audio source and whatever fails, the audio set-up
    adds at most one track to the recorded stream, and never a track of the
    system-audio capture itself: system audio reaches the recorder only as
    the destination track of the audio context.  Every track it adds is
    live; a microphone stream is added as it is; an audio context exists
    only for system audio whose capture succeeded; and when a track was
    added nothing was logged as failed. *)
Theorem system_audio_reaches_the_recorder_only_through_the_audio_context
    (settings : AppSettings) (acq : Worker.Acquired) (base : positive) :
  let a := Worker.audio_setup settings acq base in
  (length (Worker.a_added a) <= 1)%nat
  /\ (forall tr t, Worker.a_sys a = Some tr -> In t tr -> ~ In t (Worker.a_added a))
  /\ (forall t, In t (Worker.a_added a) -> In t (Worker.a_live a))
  /\ (forall tr, Worker.a_sys a = Some tr -> forall t, In t tr -> In t (Worker.a_live a))
  /\ (forall tr, Worker.a_mic a = Some tr -> Worker.a_added a = tr /\ Worker.a_live a = tr)
  /\ (forall c, Worker.a_ctx a = Some c ->
        audioSource settings = system /\ Worker.a_sys a <> None)
  /\ (Worker.a_added a <> [] -> Worker.a_log a = []).
Proof.
  destruct (audio_added_tracks settings acq base) as (A1 & A2 & A3). cbv zeta in *.
  split; [exact A1 | split; [exact A2 | split; [exact A3 |]]]. clear A1 A2 A3.
  unfold Worker.audio_setup.
  destruct (audioSource settings); [| destruct (Worker.sysOk acq);
    [destruct (Worker.audioCtx acq) as [| | []] |] | destruct (Worker.micOk acq)];
    cbn; repeat split; try congruence; try tauto;
    try (intros; discriminate).
  all: try (intros tr [= <-]; reflexivity).
  all: intros tr [= <-] t [<- | [<- | []]]; tauto.
Qed.

Lemma same_constants_refl (s : Worker.Session) : same_constants s s.
Proof. repeat split. Qed.

Lemma same_constants_trans (s1 s2 s3 : Worker.Session) :
  same_constants s1 s2 -> same_constants s2 s3 -> same_constants s1 s3.
Proof.
  unfold same_constants. intros (A1 & A2 & A3 & A4 & A5 & A6 & A7 & A8)
    (B1 & B2 & B3 & B4 & B5 & B6 & B7 & B8).
  repeat split; congruence.
Qed.

(** What [draw] leaves alone. *)
Lemma draw_keeps (sid : positive) (w : Worker.State) :
  let w' := fst (Worker.draw sid w) in
  Worker.recorders w' = Worker.recorders w
  /\ Worker.sessions w' = Worker.sessions w
  /\ Worker.liveTracks w' = Worker.liveTracks w
  /\ Worker.openAudioCtx w' = Worker.openAudioCtx w
  /\ Worker.pendingStarts w' = Worker.pendingStarts w
  /\ Worker.streamRef w' = Worker.streamRef w
  /\ Worker.chunksRef w' = Worker.chunksRef w
  /\ Worker.mediaRecorderRef w' = Worker.mediaRecorderRef w
  /\ Worker.tasks w' = Worker.tasks w
  /\ Worker.awaitingClose w' = Worker.awaitingClose w.
Proof.
  cbv zeta. unfold Worker.draw. destruct (Worker.sessions w !! sid) as [s |].
  - destruct (negb (Worker.s_hasCtx s) || Worker.s_paused s || Worker.s_ended s)%bool;
      cbn [fst]; [repeat split |]. destruct w. fields. repeat split.
  - cbn [fst]. repeat split.
Qed.

Lemma onstop_state (r : positive) (w : Worker.State) (s : Worker.Session) :
  Worker.sessions w !! r = Some s ->
  fst (Worker.onstop r w)
  = (match Worker.s_audioCtxRef s with
     | Some _ => Worker.set_awaitingClose (Worker.awaitingClose w ∪ {[r]})
     | None => fun w => w
     end)
      (Worker.set_liveTracks
         (Worker.liveTracks w
            ∖ list_to_set (Worker.s_screenStream s)
            ∖ list_to_set (default [] (Worker.s_sysStreamRef s))
            ∖ list_to_set (default [] (Worker.s_micStreamRef s)))
         (Worker.set_sessions
            (<[r := {| Worker.s_rect := Worker.s_rect s;
                       Worker.s_sourceScale := Worker.s_sourceScale s;
                       Worker.s_canvas := Worker.s_canvas s;
                       Worker.s_hasCtx := Worker.s_hasCtx s;
                       Worker.s_paused := true; Worker.s_ended := Worker.s_ended s;
                       Worker.s_srcObject := None;
                       Worker.s_screenStream := Worker.s_screenStream s;
                       Worker.s_sysStreamRef := Worker.s_sysStreamRef s;
                       Worker.s_micStreamRef := Worker.s_micStreamRef s;
                       Worker.s_audioCtxRef := Worker.s_audioCtxRef s |}]>
               (Worker.sessions w))
            (match Worker.animationFrameRef w with
             | Some t => Worker.clearTimeout t w
             | None => w
             end))).
Proof.
  intros Hs. unfold Worker.onstop, Worker.finalize. rewrite Hs.
  destruct w as [mr sr cv vd [t |] ch rs ss lt tm oa tk ps aw nx];
    destruct (Worker.s_sysStreamRef s), (Worker.s_micStreamRef s),
      (Worker.s_audioCtxRef s); fields; cbn [fst default list_to_set];
    rewrite ?list_to_set_nil, ?difference_empty_L; reflexivity.
Qed.

(** X18. [onstop] of a session releases what the session acquired: every
    track of its screen stream, of its system-audio stream and of its
    microphone stream is stopped and no track becomes live, the timer in
    [animationFrameRef] is cancelled, the video element is paused and
    detached, so that a later tick of the session draws nothing; the
    recorders, the ref and the chunk buffer are left as they were. *)
Theorem onstop_releases_what_the_session_acquired
    (r : positive) (w : Worker.State) (s : Worker.Session) :
  Worker.sessions w !! r = Some s ->
  let w' := fst (Worker.onstop r w) in
  (forall t, In t (acquired_tracks s) -> t ∉ Worker.liveTracks w')
  /\ Worker.liveTracks w' ⊆ Worker.liveTracks w
  /\ (forall t, Worker.animationFrameRef w = Some t -> Worker.timers w' !! t = None)
  /\ (exists s', Worker.sessions w' !! r = Some s'
                 /\ Worker.s_paused s' = true /\ Worker.s_srcObject s' = None
                 /\ same_constants s s')
  /\ Worker.draw r w' = (w', [])
  /\ Worker.recorders w' = Worker.recorders w
  /\ Worker.mediaRecorderRef w' = Worker.mediaRecorderRef w
  /\ Worker.chunksRef w' = Worker.chunksRef w.
Proof.
  intros Hs w'. subst w'. rewrite (onstop_state r w s Hs).
  set (s' := Worker.Build_Session _ _ _ _ _ _ _ _ _ _ _).
  assert (Hlook : forall ss : gmap positive Worker.Session, <[r := s']> ss !! r = Some s')
    by (intros; apply lookup_insert_eq).
  destruct w as [mr sr cv vd af ch rs ss lt tm oa tk ps aw nx].
  split; [| split; [| split; [| split; [| split]]]].
  - intros t Hin. unfold acquired_tracks in Hin.
    destruct (Worker.s_audioCtxRef s); fields;
      rewrite !elem_of_difference, !elem_of_list_to_set;
      apply in_app_or in Hin as [Hin | Hin];
      [| apply in_app_or in Hin as [Hin | Hin] | | apply in_app_or in Hin as [Hin | Hin]];
      apply list_elem_of_In in Hin; tauto.
  - destruct (Worker.s_audioCtxRef s); fields;
      do 3 (etransitivity; [apply subseteq_difference_l; reflexivity |]); reflexivity.
  - intros t Ht. cbn [Worker.animationFrameRef] in Ht. subst af.
    destruct (Worker.s_audioCtxRef s); fields; apply lookup_delete_eq.
  - exists s'. destruct (Worker.s_audioCtxRef s) eqn:E; destruct af; fields;
      (split; [apply Hlook |]); subst s'; cbn; rewrite ?E; repeat split.
    all: cbn; congruence.
  - unfold Worker.draw.
    destruct (Worker.s_audioCtxRef s); destruct af; fields; rewrite Hlook;
      subst s'; cbn [Worker.s_hasCtx Worker.s_paused Worker.s_ended];
      rewrite orb_true_r; reflexivity.
  - destruct (Worker.s_audioCtxRef s); destruct af; fields; repeat split.
Qed.

(** The first session stopped: its screen track 3 is released and its
    draw loop is off. *)
Lemma onstop_releases_witness :
  (3%positive ∉ Worker.liveTracks (fst (Worker.onstop 2 Worker.first_session)))
  /\ Worker.draw 2 (fst (Worker.onstop 2 Worker.first_session))
     = (fst (Worker.onstop 2 Worker.first_session), []).
Proof.
  destruct (onstop_releases_what_the_session_acquired 2 Worker.first_session
              (Worker.new_session Worker.sample_rect [3%positive]
                 (Worker.audio_setup (Worker.silent "/home/u/Desktop") Worker.all_ok 5))
              ltac:(vm_compute; reflexivity))
    as (H1 & _ & _ & _ & H5 & _).
  split; [apply H1; left; reflexivity | exact H5].
Defined.

Lemma draw_running (sid : positive) (w : Worker.State) (s : Worker.Session) :
  Worker.sessions w !! sid = Some s ->
  Worker.s_hasCtx s = true -> Worker.s_paused s = false -> Worker.s_ended s = false ->
  Worker.draw sid w
  = (Worker.set_nextId (Worker.nextId w + 1)%positive
       (Worker.set_timers
          (<[Worker.nextId w := {| Worker.t_session := sid;
                                   Worker.t_delay := Js.div 1000 30 |}]> (Worker.timers w))
          (Worker.set_animationFrameRef (Some (Worker.nextId w)) w)),
     [Worker.DrawImage sid
        (Js.Math_round (Js.mul (Worker.rect_x (Worker.s_rect s)) (Worker.s_sourceScale s)))
        (Js.Math_round (Js.mul (Worker.rect_y (Worker.s_rect s)) (Worker.s_sourceScale s)))
        (Js.Math_round (Js.mul (Worker.rect_width (Worker.s_rect s)) (Worker.s_sourceScale s)))
        (Js.Math_round (Js.mul (Worker.rect_height (Worker.s_rect s)) (Worker.s_sourceScale s)))
        (Worker.canvas_width (Worker.s_canvas s))
        (Worker.canvas_height (Worker.s_canvas s))]).
Proof.
  intros Hs H1 H2 H3. unfold Worker.draw. rewrite Hs, H1, H2, H3. reflexivity.
Qed.

(** The state and the output of a start whose screen source, canvas
    context and video are available. *)
Lemma handleStart_resume_captures
    (call : positive) (acq : Worker.Acquired) (w : Worker.State)
    (rect : Worker.Rect) (settings : AppSettings) (c : ascii) (u : string) :
  Worker.pendingStarts w !! call = Some (rect, settings) ->
  Worker.sourceId acq = Some (String c u) ->
  Worker.screenOk acq = true -> Worker.ctxOk acq = true -> Worker.playOk acq = true ->
  let sid := Worker.nextId w in
  let a := Worker.audio_setup settings acq (sid + 3)%positive in
  let s := Worker.new_session rect [(sid + 1)%positive] a in
  let w' := fst (Worker.handleStart_resume call acq w) in
  Worker.sessions w' = <[sid := s]> (Worker.sessions w)
  /\ Worker.streamRef w' = Some ((sid + 2)%positive :: Worker.a_added a)
  /\ Worker.canvasRef w' = Some (Worker.new_canvas rect)
  /\ Worker.liveTracks w'
     = Worker.liveTracks w ∪ list_to_set [(sid + 1)%positive]
         ∪ list_to_set ((sid + 2)%positive :: Worker.a_live a)
  /\ Worker.timers w'
     = <[(sid + 8)%positive := {| Worker.t_session := sid;
                                  Worker.t_delay := Js.div 1000 30 |}]> (Worker.timers w)
  /\ Worker.animationFrameRef w' = Some (sid + 8)%positive
  /\ Worker.nextId w' = (sid + 8 + 1)%positive
  /\ Worker.tasks w' = Worker.tasks w
  /\ Worker.awaitingClose w' = Worker.awaitingClose w
  /\ Worker.pendingStarts w' = delete call (Worker.pendingStarts w)
  /\ match Worker.recorderOutcome acq with
     | Worker.CtorThrows =>
         Worker.mediaRecorderRef w' = Worker.mediaRecorderRef w
         /\ Worker.recorders w' = Worker.recorders w
         /\ Worker.chunksRef w' = Worker.chunksRef w
     | Worker.StartThrows =>
         Worker.mediaRecorderRef w' = Some sid
         /\ Worker.recorders w'
            = <[sid := {| Worker.rec_state := Worker.inactive;
                          Worker.rec_gathered := [] |}]> (Worker.recorders w)
         /\ Worker.chunksRef w' = []
     | Worker.Started =>
         Worker.mediaRecorderRef w' = Some sid
         /\ Worker.recorders w' !! sid
            = Some {| Worker.rec_state := Worker.recording; Worker.rec_gathered := [] |}
         /\ Worker.chunksRef w' = []
     end
  /\ exists tail,
       snd (Worker.handleStart_resume call acq w)
       = [Worker.Log Worker.GetUserMediaSuccess;
          Worker.Log (Worker.Scaling (Worker.sourceScale rect) Worker.outputScale);
          Worker.DrawImage sid
            (Js.Math_round (Js.mul (Worker.rect_x rect) (Worker.sourceScale rect)))
            (Js.Math_round (Js.mul (Worker.rect_y rect) (Worker.sourceScale rect)))
            (Js.Math_round (Js.mul (Worker.rect_width rect) (Worker.sourceScale rect)))
            (Js.Math_round (Js.mul (Worker.rect_height rect) (Worker.sourceScale rect)))
            (Worker.canvas_width (Worker.new_canvas rect))
            (Worker.canvas_height (Worker.new_canvas rect))]
         ++ Worker.a_log a ++ tail
       /\ tail = match Worker.recorderOutcome acq with
                 | Worker.CtorThrows => [Worker.Log (Worker.WorkerError "MediaRecorder")]
                 | Worker.StartThrows =>
                     [Worker.Log Worker.ChunksCleared;
                      Worker.Log (Worker.WorkerError "start")]
                 | Worker.Started =>
                     [Worker.Log Worker.ChunksCleared; Worker.Log Worker.RecordingStarted]
                 end.
Proof.
  intros Hp Hid Hscreen Hctx Hplay. cbv zeta.
  unfold Worker.handleStart_resume. rewrite Hp, Hid, Hscreen, Hctx, Hplay.
  cbn [negb]. cbv zeta.
  destruct w as [mr sr cv vd af ch rs ss lt tm oa tk ps aw nx].
  match goal with
  | |- context [Worker.draw ?i ?x] =>
      rewrite (draw_running i x
                 (Worker.new_session rect [(nx + 1)%positive]
                    (Worker.audio_setup settings acq (nx + 3)%positive)))
  end.
  2: { fields. apply lookup_insert_eq. }
  2-4: reflexivity.
  fields.
  set (a := Worker.audio_setup settings acq (nx + 3)%positive). clearbody a.
  destruct (Worker.a_ctx a); destruct (Worker.recorderOutcome acq); fields;
    cbn [fst snd];
    repeat (split; [first [reflexivity | apply lookup_insert_eq] |]).
  all: (split; [repeat split; first [reflexivity | apply lookup_insert_eq] |]);
    eexists; (split; [reflexivity | reflexivity]).
Qed.

(** X19. Once the screen source, the canvas context and the video are
    there and the recorder starts, the worker records, whatever happened
    to the audio (refused microphone, failed system capture, failed audio
    context): the new recorder is the active one, the chunk buffer is
    empty, the draw loop of the session is armed, and the recorded stream
    is the canvas track followed by at most one audio track, all live,
    none of them a track of the screen capture or of the system-audio
    capture.  The last line logged is 'Recording started', and no buffer is
    handed over. *)
Theorem recording_starts_whatever_happens_to_the_audio
    (call : positive) (acq : Worker.Acquired) (w : Worker.State)
    (rect : Worker.Rect) (settings : AppSettings) (c : ascii) (u : string) :
  Worker.pendingStarts w !! call = Some (rect, settings) ->
  Worker.sourceId acq = Some (String c u) ->
  Worker.screenOk acq = true -> Worker.ctxOk acq = true -> Worker.playOk acq = true ->
  Worker.recorderOutcome acq = Worker.Started ->
  let sid := Worker.nextId w in
  let w' := fst (Worker.handleStart_resume call acq w) in
  Worker.recorder_active w' = Some sid
  /\ Worker.chunksRef w' = []
  /\ Worker.tick_scheduled sid w'
  /\ (exists audio,
        Worker.streamRef w' = Some ((sid + 2)%positive :: audio)
        /\ (length audio <= 1)%nat
        /\ (audioSource settings = none -> audio = [])
        /\ (forall t, In t ((sid + 2)%positive :: audio) -> t ∈ Worker.liveTracks w')
        /\ forall s, Worker.sessions w' !! sid = Some s ->
             forall t, In t (Worker.s_screenStream s)
                       \/ In t (default [] (Worker.s_sysStreamRef s)) ->
                       ~ In t ((sid + 2)%positive :: audio))
  /\ last (snd (Worker.handleStart_resume call acq w))
     = Some (Worker.Log Worker.RecordingStarted)
  /\ omap Worker.finished (snd (Worker.handleStart_resume call acq w)) = [].
Proof.
  intros Hp Hid Hscreen Hctx Hplay Hrec. cbv zeta.
  pose proof (handleStart_resume_captures call acq w rect settings c u
                Hp Hid Hscreen Hctx Hplay)
    as (Hss & Hsr & _ & Hlt & Htm & _ & _ & _ & _ & _ & Hm & tail & Hout & Htail).
  cbv zeta in Hss, Hsr, Hlt, Htm, Hm, Hout.
  rewrite Hrec in Hm, Htail. destruct Hm as (Hm & Hr & Hc).
  set (a := Worker.audio_setup settings acq (Worker.nextId w + 3)%positive) in *.
  pose proof (audio_added_tracks
                settings acq (Worker.nextId w + 3)%positive)
    as (A1 & A2 & A3).
  fold a in A1, A2, A3.
  split; [| split; [exact Hc | split; [| split; [| split]]]].
  - unfold Worker.recorder_active, Worker.recorder_state. rewrite Hm, Hr. reflexivity.
  - exists (Worker.nextId w + 8)%positive. eexists. rewrite Htm.
    split; [apply lookup_insert_eq | reflexivity].
  - exists (Worker.a_added a). split; [exact Hsr |]. split; [exact A1 |].
    split; [| split].
    + intros Hnone. subst a. unfold Worker.audio_setup. rewrite Hnone. reflexivity.
    + intros t Ht. rewrite Hlt. apply elem_of_union_r. apply elem_of_list_to_set.
      apply list_elem_of_In. destruct Ht as [<- | Ht]; [left; reflexivity |].
      right. apply A3. exact Ht.
    + intros s Hs t Ht Hin. rewrite Hss, lookup_insert_eq in Hs. injection Hs as <-.
      cbn [Worker.new_session Worker.s_screenStream Worker.s_sysStreamRef] in Ht.
      destruct Ht as [[<- | []] | Ht].
      * destruct Hin as [E | Hin]; [lia |].
        subst a. revert Hin. unfold Worker.audio_setup.
        destruct (audioSource settings), (Worker.sysOk acq), (Worker.micOk acq);
          try destruct (Worker.audioCtx acq) as [| | []]; cbn; intros H;
          repeat (destruct H as [H | H]; [lia |]); destruct H.
      * destruct Hin as [<- | Hin].
        -- subst a. revert Ht. unfold Worker.audio_setup.
           destruct (audioSource settings), (Worker.sysOk acq), (Worker.micOk acq);
             try destruct (Worker.audioCtx acq) as [| | []]; cbn; intros H;
             repeat (destruct H as [H | H]; [lia |]); destruct H.
        -- destruct (Worker.a_sys a) as [tr |] eqn:E; [| destruct Ht].
           exact (A2 tr t eq_refl Ht Hin).
  - rewrite Hout, Htail.
    change [Worker.Log Worker.ChunksCleared; Worker.Log Worker.RecordingStarted]
      with ([Worker.Log Worker.ChunksCleared] ++ [Worker.Log Worker.RecordingStarted]).
    rewrite !app_assoc. apply last_snoc.
  - rewrite Hout, Htail. rewrite !omap_app. cbn.
    assert (Hl : omap Worker.finished (Worker.a_log a) = []).
    { subst a. unfold Worker.audio_setup.
      destruct (audioSource settings), (Worker.sysOk acq), (Worker.micOk acq);
        try destruct (Worker.audioCtx acq); reflexivity. }
    rewrite Hl. reflexivity.
Qed.

(** The microphone is refused: session 2 records all the same. *)
Lemma recording_starts_witness_mic_denied :
  Worker.recorder_active
    (fst (Worker.handleStart_resume 1 mic_denied (start_pending (with_mic "/home/u/Desktop"))))
  = Some 2%positive
  /\ Worker.streamRef
       (fst (Worker.handleStart_resume 1 mic_denied
               (start_pending (with_mic "/home/u/Desktop"))))
     = Some [4%positive].
Proof.
  destruct (recording_starts_whatever_happens_to_the_audio
              1 mic_denied (start_pending (with_mic "/home/u/Desktop"))
              Worker.sample_rect (with_mic "/home/u/Desktop") "s" "creen:0:0"
              ltac:(vm_compute; reflexivity) eq_refl eq_refl eq_refl eq_refl eq_refl)
    as (H1 & _).
  split; [exact H1 | vm_compute; reflexivity].
Defined.

(** A start that fails before the recorder is made. *)
Lemma handleStart_resume_aborts
    (call : positive) (acq : Worker.Acquired) (w : Worker.State)
    (rect : Worker.Rect) (settings : AppSettings) :
  Worker.pendingStarts w !! call = Some (rect, settings) ->
  Worker.sourceId acq = None \/ Worker.sourceId acq = Some EmptyString
  \/ Worker.screenOk acq = false \/ Worker.ctxOk acq = false
  \/ Worker.playOk acq = false ->
  let w' := fst (Worker.handleStart_resume call acq w) in
  let out := snd (Worker.handleStart_resume call acq w) in
  Worker.mediaRecorderRef w' = Worker.mediaRecorderRef w
  /\ Worker.recorders w' = Worker.recorders w
  /\ Worker.chunksRef w' = Worker.chunksRef w
  /\ Worker.streamRef w' = Worker.streamRef w
  /\ Worker.sessions w' = Worker.sessions w
  /\ Worker.timers w' = Worker.timers w
  /\ Worker.tasks w' = Worker.tasks w
  /\ (Worker.nextId w <= Worker.nextId w')%positive
  /\ Worker.pendingStarts w' !! call = None
  /\ (exists message, last out = Some (Worker.Log (Worker.WorkerError message)))
  /\ (forall o, In o out -> exists msg, o = Worker.Log msg)
  /\ (forall c u, Worker.sourceId acq = Some (String c u) -> Worker.screenOk acq = true ->
        (Worker.nextId w + 1)%positive ∈ Worker.liveTracks w').
Proof.
  intros Hp Hfail. cbv zeta. unfold Worker.handleStart_resume. rewrite Hp.
  assert (Hlogs : forall l : list Worker.LogMsg,
             forall o, In o (map Worker.Log l) -> exists msg, o = Worker.Log msg).
  { intros l o Hin. apply in_map_iff in Hin as (m & <- & _). exists m. reflexivity. }
  destruct w as [mr sr cv vd af ch rs ss lt tm oa tk ps aw nx].
  destruct (Worker.sourceId acq) as [[| c u] |] eqn:Hid.
  - fields. cbn [fst snd].
    repeat (split; [first [reflexivity | apply lookup_delete_eq | cbn; lia] |]).
    split; [eexists; reflexivity |].
    split; [apply (Hlogs [_]) | intros ? ? [=]].
  - destruct (Worker.screenOk acq) eqn:Hscreen; cbn [negb].
    + destruct (Worker.ctxOk acq) eqn:Hctx; cbn [negb].
      * destruct (Worker.playOk acq) eqn:Hplay; cbn [negb].
        -- exfalso. destruct Hfail as [H | [H | [H | [H | H]]]]; discriminate.
        -- fields. cbn [fst snd app].
           repeat (split; [first [reflexivity | apply lookup_delete_eq | cbn; lia] |]).
           split; [eexists; reflexivity |].
           split; [apply (Hlogs [_; _; _]) |].
           intros _ _ _ _. apply elem_of_union_r. apply elem_of_list_to_set.
           left.
      * fields. cbn [fst snd app].
        repeat (split; [first [reflexivity | apply lookup_delete_eq | cbn; lia] |]).
        split; [eexists; reflexivity |].
        split; [apply (Hlogs [_; _; _]) |].
        intros _ _ _ _. apply elem_of_union_r. apply elem_of_list_to_set. left.
    + fields. cbn [fst snd].
      repeat (split; [first [reflexivity | apply lookup_delete_eq | cbn; lia] |]).
      split; [eexists; reflexivity |].
      split; [apply (Hlogs [_]) | intros ? ? _ [=]].
  - fields. cbn [fst snd].
    repeat (split; [first [reflexivity | apply lookup_delete_eq | cbn; lia] |]).
    split; [eexists; reflexivity |].
    split; [apply (Hlogs [_]) | intros ? ? [=]].
Qed.

(** X20. A start that gets no source id, no screen stream, no canvas
    context, or whose video does not play, starts nothing: the recorder
    ref, the recorders, the chunk buffer, the stream ref, the sessions, the
    timers and the queued tasks are as before, the call is no longer
    pending, the output is log lines only and ends with a 'Worker Error'.
    The screen stream, when it had been acquired, is not released: its
    track stays live. *)
Theorem a_start_that_cannot_capture_starts_no_recorder
    (call : positive) (acq : Worker.Acquired) (w : Worker.State)
    (rect : Worker.Rect) (settings : AppSettings) :
  Worker.pendingStarts w !! call = Some (rect, settings) ->
  Worker.sourceId acq = None \/ Worker.sourceId acq = Some EmptyString
  \/ Worker.screenOk acq = false \/ Worker.ctxOk acq = false
  \/ Worker.playOk acq = false ->
  let w' := fst (Worker.handleStart_resume call acq w) in
  let out := snd (Worker.handleStart_resume call acq w) in
  Worker.mediaRecorderRef w' = Worker.mediaRecorderRef w
  /\ Worker.recorders w' = Worker.recorders w
  /\ Worker.chunksRef w' = Worker.chunksRef w
  /\ Worker.streamRef w' = Worker.streamRef w
  /\ Worker.sessions w' = Worker.sessions w
  /\ Worker.timers w' = Worker.timers w
  /\ Worker.tasks w' = Worker.tasks w
  /\ Worker.pendingStarts w' !! call = None
  /\ (exists message, last out = Some (Worker.Log (Worker.WorkerError message)))
  /\ (forall o, In o out -> exists msg, o = Worker.Log msg)
  /\ (forall c u, Worker.sourceId acq = Some (String c u) -> Worker.screenOk acq = true ->
        (Worker.nextId w + 1)%positive ∈ Worker.liveTracks w').
Proof.
  intros Hp Hfail.
  destruct (handleStart_resume_aborts call acq w rect settings Hp Hfail)
    as (H1 & H2 & H3 & H4 & H5 & H6 & H7 & _ & H8 & H9 & H10 & H11).
  exact (conj H1 (conj H2 (conj H3 (conj H4 (conj H5 (conj H6 (conj H7
           (conj H8 (conj H9 (conj H10 H11)))))))))).
Qed.

(** The canvas gives no context: nothing records, and the screen track 3
    stays live. *)
Lemma a_start_that_cannot_capture_witness :
  Worker.mediaRecorderRef
    (fst (Worker.handleStart_resume 1 no_context
            (start_pending (Worker.silent "/home/u/Desktop")))) = None
  /\ 3%positive ∈ Worker.liveTracks
       (fst (Worker.handleStart_resume 1 no_context
               (start_pending (Worker.silent "/home/u/Desktop")))).
Proof.
  destruct (a_start_that_cannot_capture_starts_no_recorder
              1 no_context (start_pending (Worker.silent "/home/u/Desktop"))
              Worker.sample_rect (Worker.silent "/home/u/Desktop")
              ltac:(vm_compute; reflexivity)
              (or_intror (or_intror (or_intror (or_introl eq_refl)))))
    as (H1 & _ & _ & _ & _ & _ & _ & _ & _ & _ & H11).
  split; [exact H1 | exact (H11 "s"%char "creen:0:0" eq_refl eq_refl)].
Defined.

(** ** From the start to the buffer handed over *)

Lemma deliver_no_tasks (w w1 : Worker.State) (o : list Worker.Output) (e : Worker.Event) :
  Worker.handle e w = (w1, o) -> Worker.tasks w1 = [] ->
  Worker.deliver w e = (w1, o).
Proof.
  intros Hh Ht. unfold Worker.deliver. rewrite Hh, Ht. cbn [Worker.run_stop_tasks].
  rewrite app_nil_r. destruct w1. cbn [Worker.tasks] in Ht. subst. reflexivity.
Qed.

Lemma draw_draws_only (sid : positive) (w : Worker.State) :
  omap Worker.finished (snd (Worker.draw sid w)) = [].
Proof.
  unfold Worker.draw. destruct (Worker.sessions w !! sid) as [s |]; [| reflexivity].
  destruct (negb (Worker.s_hasCtx s) || Worker.s_paused s || Worker.s_ended s)%bool;
    reflexivity.
Qed.

Lemma buffer_of_parts (r : positive) (g : list Byte.byte) :
  Worker.buffer_of (parts_of r g) = g.
Proof.
  destruct g as [| b g]; [reflexivity |]. unfold Worker.buffer_of. cbn.
  rewrite app_nil_r. reflexivity.
Qed.

(** A task arriving while [r] records adds its data, and hands nothing
    over. *)
Lemma recording_goes_on (w : Worker.State) (r : positive) (g : list Byte.byte)
    (e : Worker.Event) :
  Recording w r g -> while_recording e ->
  Recording (fst (Worker.deliver w e)) r (g ++ encoded_by r e)
  /\ omap Worker.finished (snd (Worker.deliver w e)) = [].
Proof.
  intros [Href Hrc (s & Hs & Hctx) Hch Htk] He.
  destruct e as [| | | t | r' bytes | | sid | sid]; try destruct He; cbn [encoded_by].
  - (* a tick *)
    cbn [Worker.deliver]. unfold Worker.deliver. cbn [Worker.handle].
    destruct (Worker.timers w !! t) as [tm |].
    + pose proof (draw_keeps (Worker.t_session tm) (Worker.clearTimeout t w))
        as (D1 & D2 & _ & _ & _ & _ & D7 & D8 & D9 & _).
      pose proof (draw_draws_only (Worker.t_session tm) (Worker.clearTimeout t w)) as Do.
      cbv zeta in D1, D2, D7, D8, D9.
      destruct (Worker.draw (Worker.t_session tm) (Worker.clearTimeout t w)) as [w1 o1].
      cbn [fst snd] in D1, D2, D7, D8, D9, Do.
      assert (T1 : Worker.tasks w1 = []) by (rewrite D9; destruct w; exact Htk).
      rewrite T1. cbn [Worker.run_stop_tasks fst snd]. rewrite !app_nil_r.
      split; [| exact Do].
      destruct w1 as [mr' sr' cv' vd' af' ch' rs' ss' lt' tm' oa' tk' ps' aw' nx'].
      destruct w as [mr sr cv vd af ch rs ss lt tm0 oa tk ps aw nx].
      revert D1 D2 D7 D8 D9 T1. fields. intros -> -> -> -> _ ->.
      split; [exact Href | exact Hrc | exists s; split; [exact Hs | exact Hctx]
             | exact Hch | reflexivity].
    + rewrite Htk. cbn [Worker.run_stop_tasks fst snd]. rewrite !app_nil_r.
      split; [| reflexivity]. destruct w.
      split; [exact Href | exact Hrc | exists s; split; [exact Hs | exact Hctx]
             | exact Hch | reflexivity].
  - (* encoded data *)
    unfold Worker.deliver. cbn [Worker.handle].
    destruct (decide (r' = r)) as [-> | Hne].
    + rewrite Hrc. destruct w as [mr sr cv vd af ch rs ss lt tm0 oa tk ps aw nx].
      revert Href Hrc Hs Hch Htk. fields. intros Href Hrc Hs Hch ->.
      cbn [Worker.run_stop_tasks fst snd]. split; [| reflexivity].
      split; fields; [exact Href | apply lookup_insert_eq
                     | exists s; split; [exact Hs | exact Hctx] | exact Hch | reflexivity].
    + rewrite app_nil_r.
      destruct w as [mr sr cv vd af ch rs ss lt tm0 oa tk ps aw nx].
      revert Href Hrc Hs Hch Htk. fields. intros Href Hrc Hs Hch ->.
      destruct (rs !! r') as [[[] g'] |]; fields;
        cbn [Worker.run_stop_tasks fst snd]; (split; [| reflexivity]);
        (split; fields; [exact Href | rewrite ?lookup_insert_ne by exact Hne; exact Hrc
                        | exists s; split; [exact Hs | exact Hctx] | exact Hch
                        | reflexivity]).
  - (* the video paused *)
    unfold Worker.deliver. cbn [Worker.handle]. rewrite app_nil_r.
    destruct w as [mr sr cv vd af ch rs ss lt tm0 oa tk ps aw nx].
    revert Href Hrc Hs Hch Htk. fields. intros Href Hrc Hs Hch ->.
    cbn [Worker.run_stop_tasks fst snd]. split; [| reflexivity].
    split; fields; [exact Href | exact Hrc | | exact Hch | reflexivity].
    destruct (decide (sid = r)) as [-> | Hne].
    + eexists. rewrite lookup_alter_eq, Hs. split; [reflexivity | exact Hctx].
    + exists s. rewrite lookup_alter_ne by exact Hne. split; [exact Hs | exact Hctx].
  - (* the video ended *)
    unfold Worker.deliver. cbn [Worker.handle]. rewrite app_nil_r.
    destruct w as [mr sr cv vd af ch rs ss lt tm0 oa tk ps aw nx].
    revert Href Hrc Hs Hch Htk. fields. intros Href Hrc Hs Hch ->.
    cbn [Worker.run_stop_tasks fst snd]. split; [| reflexivity].
    split; fields; [exact Href | exact Hrc | | exact Hch | reflexivity].
    destruct (decide (sid = r)) as [-> | Hne].
    + eexists. rewrite lookup_alter_eq, Hs. split; [reflexivity | exact Hctx].
    + exists s. rewrite lookup_alter_ne by exact Hne. split; [exact Hs | exact Hctx].
Qed.

(** The state and the buffers of a stop task. *)
Lemma stop_task_keeps (r : positive) (w : Worker.State) :
  let w' := fst (Worker.stop_task r w) in
  Worker.mediaRecorderRef w' = Worker.mediaRecorderRef w
  /\ Worker.recorders w'
     = alter (fun rc => {| Worker.rec_state := Worker.rec_state rc;
                           Worker.rec_gathered := [] |}) r (Worker.recorders w)
  /\ Worker.tasks w' = Worker.tasks w
  /\ (length (omap Worker.finished (snd (Worker.stop_task r w))) <= 1)%nat.
Proof.
  cbv zeta. unfold Worker.stop_task.
  set (bytes := match Worker.recorders w !! r with
                | Some rc => Worker.rec_gathered rc
                | None => []
                end). clearbody bytes.
  destruct w as [mr sr cv vd af ch rs ss lt tm oa tk ps aw nx].
  unfold Worker.ondataavailable, Worker.onstop, Worker.finalize.
  destruct bytes as [| b bytes]; fields;
    (destruct (ss !! r) as [s |]; [| cbn; repeat split; lia]);
    destruct af, (Worker.s_sysStreamRef s), (Worker.s_micStreamRef s),
      (Worker.s_audioCtxRef s); fields; cbn; repeat split; lia.
Qed.

Lemma stop_task_output (r : positive) (w : Worker.State) (s : Worker.Session) :
  Worker.sessions w !! r = Some s -> Worker.s_audioCtxRef s = None ->
  omap Worker.finished (snd (Worker.stop_task r w))
  = [(r, Worker.chunksRef w
         ++ parts_of r (match Worker.recorders w !! r with
                        | Some rc => Worker.rec_gathered rc
                        | None => []
                        end))].
Proof.
  intros Hs Hctx. unfold Worker.stop_task.
  set (bytes := match Worker.recorders w !! r with
                | Some rc => Worker.rec_gathered rc
                | None => []
                end). clearbody bytes.
  destruct w as [mr sr cv vd af ch rs ss lt tm oa tk ps aw nx].
  cbn [Worker.sessions] in Hs.
  unfold Worker.ondataavailable, Worker.onstop, Worker.finalize.
  destruct bytes as [| b bytes]; fields; rewrite Hs, Hctx;
    destruct af, (Worker.s_sysStreamRef s), (Worker.s_micStreamRef s); fields; cbn;
    rewrite ?app_nil_r; reflexivity.
Qed.

Lemma handleStop_logs_only (w : Worker.State) :
  omap Worker.finished (snd (Worker.handleStop w)) = [].
Proof. unfold Worker.handleStop. destruct (Worker.recorder_active w); reflexivity. Qed.

(** The turn of a stop, when no stop task is queued. *)
Lemma deliver_stop (w : Worker.State) :
  Worker.tasks w = [] ->
  Worker.deliver w Worker.StopRecording
  = match Worker.recorder_active w with
    | Some r =>
        let w1 := Worker.set_tasks []
                    (Worker.set_recorders
                       (alter (fun rc => {| Worker.rec_state := Worker.inactive;
                                            Worker.rec_gathered := Worker.rec_gathered rc |})
                              r (Worker.recorders w)) w) in
        (fst (Worker.stop_task r w1),
         snd (Worker.handleStop w) ++ snd (Worker.stop_task r w1) ++ [])
    | None => (w, snd (Worker.handleStop w) ++ [])
    end.
Proof.
  intros Ht. unfold Worker.deliver. cbn [Worker.handle]. unfold Worker.handleStop.
  destruct (Worker.recorder_active w) as [r |].
  - destruct w as [mr sr cv vd af ch rs ss lt tm oa tk ps aw nx].
    cbn [Worker.tasks] in Ht. subst tk. fields. cbn [app Worker.run_stop_tasks].
    destruct (Worker.stop_task r _) as [w2 o2]. reflexivity.
  - rewrite Ht. cbn [Worker.run_stop_tasks]. destruct w. cbn [Worker.tasks] in Ht.
    subst. reflexivity.
Qed.

(** X22. After a stop, no recorder is active, and at most one buffer has
    been handed over; a second stop changes nothing, hands nothing over
    and ends with the warning that the recorder is already inactive. *)
Theorem a_second_stop_only_warns (w : Worker.State) :
  Worker.tasks w = [] ->
  let w1 := fst (Worker.deliver w Worker.StopRecording) in
  Worker.recorder_active w1 = None
  /\ Worker.tasks w1 = []
  /\ (length (omap Worker.finished (snd (Worker.deliver w Worker.StopRecording))) <= 1)%nat
  /\ fst (Worker.deliver w1 Worker.StopRecording) = w1
  /\ last (snd (Worker.deliver w1 Worker.StopRecording))
     = Some (Worker.Log Worker.WarnAlreadyInactive)
  /\ omap Worker.finished (snd (Worker.deliver w1 Worker.StopRecording)) = [].
Proof.
  intros Ht. cbv zeta.
  assert (H1 : Worker.recorder_active (fst (Worker.deliver w Worker.StopRecording)) = None
               /\ Worker.tasks (fst (Worker.deliver w Worker.StopRecording)) = []
               /\ (length (omap Worker.finished
                             (snd (Worker.deliver w Worker.StopRecording))) <= 1)%nat).
  { rewrite (deliver_stop w Ht).
    destruct (Worker.recorder_active w) as [r |] eqn:Hact.
    - cbv zeta. cbn [fst snd].
      match goal with
      | |- context [Worker.stop_task r ?x] =>
          pose proof (stop_task_keeps r x) as (K1 & K2 & K3 & K4); cbv zeta in K1, K2, K3, K4
      end.
      apply recorder_active_ref in Hact as (Href & rc & Hrc & _).
      split; [| split].
      + unfold Worker.recorder_active, Worker.recorder_state. rewrite K1, K2.
        destruct w. revert Href Hrc. fields. intros -> Hrc.
        rewrite !lookup_alter_eq, Hrc. reflexivity.
      + rewrite K3. destruct w. reflexivity.
      + rewrite !omap_app, handleStop_logs_only. cbn [app omap]. rewrite app_nil_r.
        exact K4.
    - cbn [fst snd]. split; [exact Hact | split; [exact Ht |]].
      rewrite omap_app, handleStop_logs_only. cbn. lia. }
  destruct H1 as (Hact & Htk & Hlen).
  split; [exact Hact | split; [exact Htk | split; [exact Hlen |]]].
  rewrite (deliver_stop _ Htk), Hact. cbn [fst snd].
  split; [reflexivity |]. unfold Worker.handleStop. rewrite Hact. cbn [snd].
  split; reflexivity.
Qed.

(** The first session stopped twice. *)
Lemma a_second_stop_witness :
  Worker.recorder_active (fst (Worker.deliver Worker.first_session Worker.StopRecording))
  = None
  /\ omap Worker.finished
       (snd (Worker.deliver
               (fst (Worker.deliver Worker.first_session Worker.StopRecording))
               Worker.StopRecording)) = [].
Proof.
  destruct (a_second_stop_only_warns Worker.first_session ltac:(vm_compute; reflexivity))
    as (H1 & _ & _ & _ & _ & H6).
  split; [exact H1 | exact H6].
Defined.

Lemma stop_hands_over (w : Worker.State) (r : positive) (g : list Byte.byte) :
  Recording w r g ->
  omap Worker.finished (snd (Worker.deliver w Worker.StopRecording))
  = [(r, parts_of r g)].
Proof.
  intros [Href Hrc (s & Hs & Hctx) Hch Htk].
  rewrite (deliver_stop w Htk).
  assert (Hact : Worker.recorder_active w = Some r).
  { unfold Worker.recorder_active, Worker.recorder_state. rewrite Href, Hrc. reflexivity. }
  rewrite Hact. cbv zeta. cbn [snd].
  rewrite !omap_app, handleStop_logs_only. cbn [app omap]. rewrite app_nil_r.
  rewrite (stop_task_output r _ s).
  - destruct w. revert Hrc Hch. fields. intros Hrc ->.
    rewrite lookup_alter_eq, Hrc. reflexivity.
  - destruct w. exact Hs.
  - exact Hctx.
Qed.

Lemma recording_run (es : list Worker.Event) (w : Worker.State) (r : positive)
    (g : list Byte.byte) :
  Recording w r g -> Forall while_recording es ->
  omap Worker.finished (snd (Worker.run w (es ++ [Worker.StopRecording])))
  = [(r, parts_of r (g ++ concat (map (encoded_by r) es)))].
Proof.
  revert w g. induction es as [| e es IH]; intros w g Hrec Hes.
  - cbn [app Worker.run map concat].
    pose proof (stop_hands_over w r g Hrec) as Hs.
    destruct (Worker.deliver w Worker.StopRecording) as [w1 o1]. cbn [fst snd] in *.
    rewrite !app_nil_r. exact Hs.
  - apply Forall_cons in Hes as [He Hes].
    destruct (recording_goes_on w r g e Hrec He) as (Hrec1 & Ho1).
    cbn [app Worker.run map concat].
    destruct (Worker.deliver w e) as [w1 o1]. cbn [fst snd] in Hrec1, Ho1.
    specialize (IH w1 _ Hrec1 Hes).
    destruct (Worker.run w1 (es ++ [Worker.StopRecording])) as [w2 o2].
    cbn [fst snd] in *. rewrite omap_app, Ho1, IH. cbn [app].
    rewrite app_assoc. reflexivity.
Qed.

(** A start that succeeds and opens no audio context leaves the worker
    recording, with nothing gathered. *)
Lemma start_is_recording
    (call : positive) (acq : Worker.Acquired) (w : Worker.State)
    (rect : Worker.Rect) (settings : AppSettings) (c : ascii) (u : string) :
  Worker.pendingStarts w !! call = Some (rect, settings) ->
  Worker.tasks w = [] ->
  Worker.sourceId acq = Some (String c u) ->
  Worker.screenOk acq = true -> Worker.ctxOk acq = true -> Worker.playOk acq = true ->
  Worker.recorderOutcome acq = Worker.Started ->
  audioSource settings <> system ->
  Recording (fst (Worker.deliver w (Worker.SourcesAcquired call acq))) (Worker.nextId w) []
  /\ omap Worker.finished (snd (Worker.deliver w (Worker.SourcesAcquired call acq))) = [].
Proof.
  intros Hp Ht Hid Hscreen Hctx Hplay Hrec Haudio.
  pose proof (handleStart_resume_captures call acq w rect settings c u
                Hp Hid Hscreen Hctx Hplay)
    as (Hss & _ & _ & _ & _ & _ & _ & Htk & _ & _ & Hm & tail & Hout & Htail).
  cbv zeta in Hss, Htk, Hm, Hout. rewrite Hrec in Hm, Htail.
  destruct Hm as (Hm & Hr & Hc).
  assert (Ha : Worker.a_ctx (Worker.audio_setup settings acq (Worker.nextId w + 3)%positive)
               = None
               /\ omap Worker.finished
                    (Worker.a_log (Worker.audio_setup settings acq
                                     (Worker.nextId w + 3)%positive)) = []).
  { unfold Worker.audio_setup.
    destruct (audioSource settings); [| congruence |];
      destruct (Worker.micOk acq); split; reflexivity. }
  destruct Ha as (Ha & Hl).
  rewrite (deliver_no_tasks w _ _ _ (surjective_pairing _)) by exact (eq_trans Htk Ht).
  cbn [Worker.handle fst snd]. split.
  - split; [exact Hm | exact Hr | | exact Hc | rewrite Htk; exact Ht].
    eexists. rewrite Hss, lookup_insert_eq. split; [reflexivity | exact Ha].
  - rewrite Hout, Htail, !omap_app, Hl. reflexivity.
Qed.

(** X21. From the start to the stop.  After a start that succeeds
    without system audio, whatever encoded data, ticks and pauses of the
    video arrive, the stop hands over exactly one buffer, for this session,
    and it is the data the recorder of the session encoded, in order; the
    list of blob parts is empty exactly when nothing was encoded. *)
Theorem the_buffer_handed_over_is_the_data_encoded
    (call : positive) (acq : Worker.Acquired) (w : Worker.State)
    (rect : Worker.Rect) (settings : AppSettings) (c : ascii) (u : string)
    (es : list Worker.Event) :
  Worker.pendingStarts w !! call = Some (rect, settings) ->
  Worker.tasks w = [] ->
  Worker.sourceId acq = Some (String c u) ->
  Worker.screenOk acq = true -> Worker.ctxOk acq = true -> Worker.playOk acq = true ->
  Worker.recorderOutcome acq = Worker.Started ->
  audioSource settings <> system ->
  Forall while_recording es ->
  let sid := Worker.nextId w in
  let encoded := concat (map (encoded_by sid) es) in
  exists parts,
    omap Worker.finished
      (snd (Worker.run w (Worker.SourcesAcquired call acq :: es ++ [Worker.StopRecording])))
    = [(sid, parts)]
    /\ Worker.buffer_of parts = encoded
    /\ (encoded = [] <-> parts = []).
Proof.
  intros Hp Ht Hid Hscreen Hctx Hplay Hrec Haudio Hes. cbv zeta.
  destruct (start_is_recording call acq w rect settings c u
              Hp Ht Hid Hscreen Hctx Hplay Hrec Haudio) as (Hstart & Ho).
  pose proof (recording_run es _ _ _ Hstart Hes) as Hrun. cbn [app] in Hrun.
  exists (parts_of (Worker.nextId w) (concat (map (encoded_by (Worker.nextId w)) es))).
  split; [| split].
  - cbn [Worker.run].
    destruct (Worker.deliver w (Worker.SourcesAcquired call acq)) as [w1 o1].
    cbn [fst snd] in Hrun, Ho.
    destruct (Worker.run w1 (es ++ [Worker.StopRecording])) as [w2 o2].
    cbn [fst snd] in *. rewrite omap_app, Ho, Hrun. reflexivity.
  - apply buffer_of_parts.
  - destruct (concat (map (encoded_by (Worker.nextId w)) es)); cbn; split; congruence.
Qed.

(** Session 2 records two pieces of data, a tick between them. *)
Lemma the_buffer_handed_over_witness :
  exists parts,
    omap Worker.finished
      (snd (Worker.run (start_pending (Worker.silent "/home/u/Desktop"))
              (Worker.SourcesAcquired 1 Worker.all_ok
                 :: [Worker.Encoded 2 [Byte.x01]; Worker.TimerFired 10;
                     Worker.Encoded 2 [Byte.x02]]
                 ++ [Worker.StopRecording])))
    = [(2%positive, parts)]
    /\ Worker.buffer_of parts = [Byte.x01; Byte.x02]
    /\ ([Byte.x01; Byte.x02] = [] <-> parts = []).
Proof.
  exact (the_buffer_handed_over_is_the_data_encoded
           1 Worker.all_ok (start_pending (Worker.silent "/home/u/Desktop"))
           Worker.sample_rect (Worker.silent "/home/u/Desktop") "s" "creen:0:0"
           [Worker.Encoded 2 [Byte.x01]; Worker.TimerFired 10;
            Worker.Encoded 2 [Byte.x02]]
           eq_refl eq_refl eq_refl eq_refl eq_refl eq_refl eq_refl
           ltac:(discriminate) ltac:(repeat constructor)).
Defined.

(** ** One geometry for a session, no empty chunk in a buffer *)

Lemma keeps_sessions_refl (w : Worker.State) : keeps_sessions w w.
Proof.
  split; [lia |]. intros sid s Hs. exists s. split; [exact Hs | apply same_constants_refl].
Qed.

Lemma keeps_sessions_trans (w1 w2 w3 : Worker.State) :
  keeps_sessions w1 w2 -> keeps_sessions w2 w3 -> keeps_sessions w1 w3.
Proof.
  intros [N1 K1] [N2 K2]. split; [lia |]. intros sid s Hs.
  destruct (K1 sid s Hs) as (s2 & Hs2 & C2). destruct (K2 sid s2 Hs2) as (s3 & Hs3 & C3).
  exists s3. split; [exact Hs3 | exact (same_constants_trans _ _ _ C2 C3)].
Qed.

Lemma sound_mono (w w' : Worker.State) (o : Worker.Output) :
  keeps_sessions w w' -> sound w o -> sound w' o.
Proof.
  intros [_ K] [Hf Hn]. split; [| exact Hn].
  destruct o as [| sid sx sy sw sh dw dh |]; try exact Logic.I.
  destruct Hf as (s & Hs & Hg). destruct (K sid s Hs) as (s' & Hs' & (Hr & _)).
  exists s'. split; [exact Hs' |]. rewrite Hr. exact Hg.
Qed.

Lemma logs_sound (w : Worker.State) (out : list Worker.Output) :
  (forall o, In o out -> exists msg, o = Worker.Log msg) -> Forall (sound w) out.
Proof.
  intros H. apply Forall_forall. intros o Hin. apply list_elem_of_In in Hin.
  destruct (H o Hin) as (msg & ->). split; exact Logic.I.
Qed.

(** A handler that leaves the sessions alone, and the chunk buffer alone
    or empty. *)
Lemma steady_frame (w w' : Worker.State) :
  steady w ->
  Worker.sessions w' = Worker.sessions w ->
  (Worker.nextId w <= Worker.nextId w')%positive ->
  Worker.chunksRef w' = Worker.chunksRef w \/ Worker.chunksRef w' = [] ->
  steady w' /\ keeps_sessions w w'.
Proof.
  intros [Hok Hne] Hs Hn Hc. split; [split |].
  - intros sid s Hl. rewrite Hs in Hl. destruct (Hok sid s Hl) as (H1 & H2 & H3).
    split; [lia | split; assumption].
  - destruct Hc as [-> | ->]; [exact Hne | constructor].
  - split; [exact Hn |]. intros sid s Hl. exists s. rewrite Hs.
    split; [exact Hl | apply same_constants_refl].
Qed.

Lemma draw_sound (sid : positive) (w : Worker.State) :
  sessions_ok w -> Forall (sound (fst (Worker.draw sid w))) (snd (Worker.draw sid w)).
Proof.
  intros Hok. pose proof (draw_keeps sid w) as (_ & Hs & _). cbv zeta in Hs.
  revert Hs. unfold Worker.draw. destruct (Worker.sessions w !! sid) as [s |] eqn:E;
    [| constructor].
  destruct (negb (Worker.s_hasCtx s) || Worker.s_paused s || Worker.s_ended s)%bool;
    cbn [fst snd]; [constructor |].
  intros Hs. constructor; [| constructor]. split; [| exact Logic.I].
  exists s. rewrite Hs. split; [exact E |]. intros _.
  destruct (Hok sid s E) as (_ & -> & ->). repeat split.
Qed.

Lemma draw_next (sid : positive) (w : Worker.State) :
  (Worker.nextId w <= Worker.nextId (fst (Worker.draw sid w)))%positive.
Proof. destruct (draw_ok sid w) as (_ & _ & _ & _ & H & _). exact H. Qed.

Lemma cleanup_logs (w : Worker.State) :
  forall o, In o (snd (Worker.cleanup w)) -> exists msg, o = Worker.Log msg.
Proof.
  unfold Worker.cleanup. destruct (Worker.recorder_active w); fields;
    destruct w as [mr [tracks |] cv vd [t |] ch rs ss lt tm oa tk ps aw nx];
    cbn; intros o H; repeat (destruct H as [<- | H]; [eexists; reflexivity |]); destruct H.
Qed.

Lemma handleStart_begin_steady (rect : Worker.Rect) (settings : AppSettings)
    (w : Worker.State) :
  steady w ->
  let w' := fst (Worker.handleStart_begin rect settings w) in
  steady w' /\ keeps_sessions w w'
  /\ Forall (sound w') (snd (Worker.handleStart_begin rect settings w)).
Proof.
  intros Hst. cbv zeta. unfold Worker.handleStart_begin.
  pose proof (cleanup_fields w) as (Hc & _ & _ & _ & _ & Hn & Hs & _).
  pose proof (cleanup_logs w) as Hl. cbv zeta in Hc, Hn, Hs.
  destruct (Worker.cleanup w) as [w1 o]. cbn [fst snd] in *.
  apply and_assoc. split.
  - apply (steady_frame w _ Hst).
    + destruct w1. exact Hs.
    + destruct w1. cbn in Hn |- *. lia.
    + right. destruct w1. exact Hc.
  - apply logs_sound. intros o' [<- | Hin]; [eexists; reflexivity | apply Hl; exact Hin].
Qed.

Lemma audio_log_logs (settings : AppSettings) (acq : Worker.Acquired) (base : positive) :
  forall o, In o (Worker.a_log (Worker.audio_setup settings acq base)) ->
            exists msg, o = Worker.Log msg.
Proof.
  unfold Worker.audio_setup.
  destruct (audioSource settings), (Worker.sysOk acq), (Worker.micOk acq);
    try destruct (Worker.audioCtx acq); cbn; intros o H;
    repeat (destruct H as [<- | H]; [eexists; reflexivity |]); destruct H.
Qed.

Lemma handleStart_resume_steady (call : positive) (acq : Worker.Acquired)
    (w : Worker.State) :
  steady w ->
  let w' := fst (Worker.handleStart_resume call acq w) in
  steady w' /\ keeps_sessions w w'
  /\ Forall (sound w') (snd (Worker.handleStart_resume call acq w)).
Proof.
  intros Hst. cbv zeta.
  destruct (Worker.pendingStarts w !! call) as [[rect settings] |] eqn:Hp.
  2: { unfold Worker.handleStart_resume. rewrite Hp. cbn [fst snd].
       split; [exact Hst | split; [apply keeps_sessions_refl | constructor]]. }
  assert (Habort : Worker.sourceId acq = None \/ Worker.sourceId acq = Some EmptyString
                   \/ Worker.screenOk acq = false \/ Worker.ctxOk acq = false
                   \/ Worker.playOk acq = false ->
                   steady (fst (Worker.handleStart_resume call acq w))
                   /\ keeps_sessions w (fst (Worker.handleStart_resume call acq w))
                   /\ Forall (sound (fst (Worker.handleStart_resume call acq w)))
                        (snd (Worker.handleStart_resume call acq w))).
  { intros Hfail.
    destruct (handleStart_resume_aborts call acq w rect settings Hp Hfail)
      as (_ & _ & Hc & _ & Hs & _ & _ & Hn & _ & _ & Hl & _).
    cbv zeta in Hc, Hs, Hn, Hl. apply and_assoc. split.
    - apply (steady_frame w _ Hst Hs Hn). left. exact Hc.
    - apply logs_sound. exact Hl. }
  destruct (Worker.sourceId acq) as [[| c u] |] eqn:Hid; [tauto | | tauto].
  destruct (Worker.screenOk acq) eqn:Hscreen; [| tauto].
  destruct (Worker.ctxOk acq) eqn:Hctx; [| tauto].
  destruct (Worker.playOk acq) eqn:Hplay; [| tauto].
  clear Habort.
  destruct (handleStart_resume_captures call acq w rect settings c u
              Hp Hid Hscreen Hctx Hplay)
    as (Hs & _ & _ & _ & _ & _ & Hn & _ & _ & _ & Hm & tail & Hout & Htail).
  cbv zeta in Hs, Hn, Hm, Hout.
  set (w' := fst (Worker.handleStart_resume call acq w)) in *.
  set (a := Worker.audio_setup settings acq (Worker.nextId w + 3)%positive) in *.
  destruct Hst as [Hok Hne].
  assert (Hfresh : Worker.sessions w !! Worker.nextId w = None).
  { destruct (Worker.sessions w !! Worker.nextId w) as [s |] eqn:E; [| reflexivity].
    destruct (Hok _ _ E) as (Hlt & _). lia. }
  split; [split |]; [| | split].
  - intros sid s Hl. rewrite Hs in Hl.
    destruct (decide (sid = Worker.nextId w)) as [-> | Hne'].
    + rewrite lookup_insert_eq in Hl. injection Hl as <-.
      split; [rewrite Hn; lia | split; reflexivity].
    + rewrite lookup_insert_ne in Hl by congruence.
      destruct (Hok sid s Hl) as (H1 & H2 & H3).
      split; [rewrite Hn; lia | split; assumption].
  - destruct (Worker.recorderOutcome acq); destruct Hm as (_ & _ & Hc); rewrite Hc;
      first [exact Hne | constructor].
  - split; [rewrite Hn; lia |]. intros sid s Hl. exists s.
    split; [| apply same_constants_refl]. rewrite Hs, lookup_insert_ne; [exact Hl |].
    intros <-. rewrite Hfresh in Hl. discriminate.
  - rewrite Hout. apply Forall_app. split; [| apply Forall_app; split].
    + constructor; [split; exact Logic.I |]. constructor; [split; exact Logic.I |].
      constructor; [| constructor]. split; [| exact Logic.I].
      eexists. rewrite Hs, lookup_insert_eq. split; [reflexivity |].
      intros _. repeat split.
    + apply logs_sound. apply audio_log_logs.
    + apply logs_sound. rewrite Htail. destruct (Worker.recorderOutcome acq);
        cbn; intros o H;
        repeat (destruct H as [<- | H]; [eexists; reflexivity |]); destruct H.
Qed.

Lemma handleStop_logs (w : Worker.State) :
  forall o, In o (snd (Worker.handleStop w)) -> exists msg, o = Worker.Log msg.
Proof.
  unfold Worker.handleStop. destruct (Worker.recorder_active w); cbn; intros o H;
    repeat (destruct H as [<- | H]; [eexists; reflexivity |]); destruct H.
Qed.

Lemma onstop_resume_steady (r : positive) (closed : bool) (w : Worker.State) :
  steady w ->
  let w' := fst (Worker.onstop_resume r closed w) in
  steady w' /\ keeps_sessions w w'
  /\ Forall (sound w') (snd (Worker.onstop_resume r closed w)).
Proof.
  intros Hst. cbv zeta. unfold Worker.onstop_resume.
  destruct (decide (r ∈ Worker.awaitingClose w));
    [| cbn [fst snd]; split; [exact Hst | split; [apply keeps_sessions_refl | constructor]]].
  pose proof (proj2 Hst) as Hne.
  destruct w as [mr sr cv vd af ch rs ss lt tm oa tk ps aw nx].
  cbn [Worker.chunksRef] in Hne. unfold Worker.finalize. fields.
  destruct (ss !! r) as [s |]; [destruct (Worker.s_audioCtxRef s) |];
    cbn [fst snd]; (apply and_assoc; split;
      [apply (steady_frame _ _ Hst); [reflexivity | cbn; lia | left; reflexivity] |]);
    (apply Forall_app; split; [apply logs_sound; destruct closed; cbn; intros o H;
        repeat (destruct H as [<- | H]; [eexists; reflexivity |]); destruct H |]);
    repeat (constructor; [split; first [exact Logic.I | exact Hne] |]); constructor.
Qed.

Lemma set_video_steady (sid : positive) (p e : bool) (w : Worker.State) :
  steady w ->
  steady (Worker.set_video sid p e w) /\ keeps_sessions w (Worker.set_video sid p e w).
Proof.
  intros [Hok Hne]. destruct w as [mr sr cv vd af ch rs ss lt tm oa tk ps aw nx].
  split; [split |]; fields.
  - intros k s Hl. cbn [Worker.sessions] in Hl.
    destruct (decide (k = sid)) as [-> | Hk].
    + rewrite lookup_alter_eq in Hl. destruct (ss !! sid) as [s0 |] eqn:E; [| discriminate].
      injection Hl as <-. exact (Hok sid s0 E).
    + rewrite lookup_alter_ne in Hl by congruence. exact (Hok k s Hl).
  - exact Hne.
  - split; [cbn; lia |]. intros k s Hl. cbn [Worker.sessions] in Hl |- *.
    destruct (decide (k = sid)) as [-> | Hk].
    + eexists. rewrite lookup_alter_eq, Hl. split; [reflexivity | repeat split].
    + exists s. rewrite lookup_alter_ne by congruence.
      split; [exact Hl | apply same_constants_refl].
Qed.

Lemma handle_steady (e : Worker.Event) (w : Worker.State) :
  steady w ->
  let w' := fst (Worker.handle e w) in
  steady w' /\ keeps_sessions w w' /\ Forall (sound w') (snd (Worker.handle e w)).
Proof.
  intros Hst. destruct e as [rect settings | call acq | | t | r bytes | r closed | sid | sid];
    cbn [Worker.handle].
  - apply handleStart_begin_steady. exact Hst.
  - apply handleStart_resume_steady. exact Hst.
  - cbv zeta. apply and_assoc. split; [| apply logs_sound; apply handleStop_logs].
    unfold Worker.handleStop. destruct (Worker.recorder_active w); cbn [fst];
      apply (steady_frame _ _ Hst); destruct w; fields;
      first [reflexivity | cbn; lia | left; reflexivity].
  - cbv zeta. destruct (Worker.timers w !! t) as [tm |];
      [| cbn [fst snd]; split; [exact Hst | split; [apply keeps_sessions_refl | constructor]]].
    pose proof (draw_keeps (Worker.t_session tm) (Worker.clearTimeout t w))
      as (_ & Hs & _ & _ & _ & _ & Hc & _).
    pose proof (draw_next (Worker.t_session tm) (Worker.clearTimeout t w)) as Hn.
    cbv zeta in Hs, Hc.
    assert (H0 : steady (Worker.clearTimeout t w)
                 /\ keeps_sessions w (Worker.clearTimeout t w)).
    { apply (steady_frame _ _ Hst); destruct w; fields;
        first [reflexivity | cbn; lia | left; reflexivity]. }
    destruct H0 as [S0 K0].
    destruct (steady_frame _ _ S0 Hs Hn (or_introl Hc)) as [S1 K1].
    split; [exact S1 | split; [exact (keeps_sessions_trans _ _ _ K0 K1) |]].
    apply draw_sound. exact (proj1 S0).
  - cbv zeta. apply and_assoc.
    destruct (Worker.recorders w !! r) as [[[] g] |]; cbn [fst snd];
      (split; [| constructor]);
      first [split; [exact Hst | apply keeps_sessions_refl]
            | apply (steady_frame _ _ Hst); destruct w; fields;
              first [reflexivity | cbn; lia | left; reflexivity]].
  - apply onstop_resume_steady. exact Hst.
  - cbv zeta. cbn [fst snd]. apply and_assoc. split; [| constructor].
    apply set_video_steady. exact Hst.
  - cbv zeta. cbn [fst snd]. apply and_assoc. split; [| constructor].
    apply set_video_steady. exact Hst.
Qed.

Lemma onstop_sound (r : positive) (w w' : Worker.State) :
  all_nonempty (Worker.chunksRef w) -> Forall (sound w') (snd (Worker.onstop r w)).
Proof.
  intros Hne. unfold Worker.onstop, Worker.finalize.
  destruct w as [mr sr cv vd af ch rs ss lt tm oa tk ps aw nx].
  cbn [Worker.chunksRef] in Hne. fields.
  destruct (ss !! r) as [s |]; [| constructor].
  destruct af, (Worker.s_sysStreamRef s), (Worker.s_micStreamRef s),
    (Worker.s_audioCtxRef s); fields; cbn [fst snd app];
    repeat (constructor; [split; first [exact Logic.I | exact Hne] |]); constructor.
Qed.

Lemma onstop_steady (r : positive) (w : Worker.State) :
  steady w ->
  steady (fst (Worker.onstop r w)) /\ keeps_sessions w (fst (Worker.onstop r w)).
Proof.
  intros Hst. destruct (Worker.sessions w !! r) as [s |] eqn:Hs.
  2: { unfold Worker.onstop. rewrite Hs. split; [exact Hst | apply keeps_sessions_refl]. }
  rewrite (onstop_state r w s Hs). destruct Hst as [Hok Hne].
  set (s' := Worker.Build_Session _ _ _ _ _ _ _ _ _ _ _).
  assert (Hc : same_constants s s') by (repeat split).
  destruct w as [mr sr cv vd af ch rs ss lt tm oa tk ps aw nx].
  cbn [Worker.sessions] in Hs.
  assert (Hok' : forall k x, <[r := s']> ss !! k = Some x -> session_ok
                   (Worker.Build_State mr sr cv vd af ch rs ss lt tm oa tk ps aw nx) k x).
  { intros k x Hl. destruct (decide (k = r)) as [-> | Hk].
    - rewrite lookup_insert_eq in Hl. injection Hl as <-.
      destruct (Hok r s Hs) as (H1 & H2 & H3). split; [exact H1 | split; assumption].
    - rewrite lookup_insert_ne in Hl by congruence. exact (Hok k x Hl). }
  assert (Hkeep : forall k x, ss !! k = Some x ->
                    exists x', <[r := s']> ss !! k = Some x' /\ same_constants x x').
  { intros k x Hl. destruct (decide (k = r)) as [-> | Hk].
    - exists s'. rewrite lookup_insert_eq. split; [reflexivity |]. congruence.
    - exists x. rewrite lookup_insert_ne by congruence.
      split; [exact Hl | apply same_constants_refl]. }
  clearbody s'.
  destruct (Worker.s_audioCtxRef s); destruct af; fields;
    (split; [split; [exact Hok' | exact Hne] | split; [cbn; lia | exact Hkeep]]).
Qed.

Lemma stop_task_steady (r : positive) (w : Worker.State) :
  steady w ->
  let w' := fst (Worker.stop_task r w) in
  steady w' /\ keeps_sessions w w' /\ Forall (sound w') (snd (Worker.stop_task r w)).
Proof.
  intros Hst. cbv zeta. unfold Worker.stop_task.
  set (bytes := match Worker.recorders w !! r with
                | Some rc => Worker.rec_gathered rc
                | None => []
                end). clearbody bytes.
  set (w0 := Worker.set_recorders _ w).
  assert (H0 : steady w0 /\ keeps_sessions w w0).
  { apply (steady_frame _ _ Hst); subst w0; destruct w; fields;
      first [reflexivity | cbn; lia | left; reflexivity]. }
  clearbody w0. destruct H0 as [S0 K0].
  assert (H1 : (steady (fst (Worker.ondataavailable r bytes w0))
                /\ keeps_sessions w0 (fst (Worker.ondataavailable r bytes w0)))
               /\ forall o, In o (snd (Worker.ondataavailable r bytes w0)) ->
                            exists msg, o = Worker.Log msg).
  { unfold Worker.ondataavailable. destruct bytes as [| b bytes]; cbn [fst snd].
    - split; [split; [exact S0 | apply keeps_sessions_refl] |].
      cbn; intros o H;
        repeat (destruct H as [<- | H]; [eexists; reflexivity |]); destruct H.
    - split.
      + destruct S0 as [Hok Hne]. destruct w0. split; [split |].
        * exact Hok.
        * fields. apply Forall_app. split; [exact Hne |]. constructor; [| constructor].
          cbn. discriminate.
        * split; [cbn; lia |]. intros k x Hl. exists x.
          split; [exact Hl | apply same_constants_refl].
      + cbn; intros o H;
          repeat (destruct H as [<- | H]; [eexists; reflexivity |]); destruct H. }
  destruct H1 as [[S1 K1] L1].
  destruct (Worker.ondataavailable r bytes w0) as [w1 o1]. cbn [fst snd] in S1, K1, L1.
  destruct (onstop_steady r w1 S1) as [S2 K2].
  pose proof (onstop_sound r w1 (fst (Worker.onstop r w1)) (proj2 S1)) as O2.
  destruct (Worker.onstop r w1) as [w2 o2]. cbn [fst snd] in *.
  split; [exact S2 |].
  split; [exact (keeps_sessions_trans _ _ _ K0 (keeps_sessions_trans _ _ _ K1 K2)) |].
  apply Forall_app. split; [apply logs_sound; exact L1 | exact O2].
Qed.

Lemma run_stop_tasks_steady (rs : list positive) (w : Worker.State) :
  steady w ->
  let w' := fst (Worker.run_stop_tasks rs w) in
  steady w' /\ keeps_sessions w w' /\ Forall (sound w') (snd (Worker.run_stop_tasks rs w)).
Proof.
  revert w. induction rs as [| r rs IH]; intros w Hst; cbv zeta; cbn [Worker.run_stop_tasks].
  - cbn [fst snd]. split; [exact Hst | split; [apply keeps_sessions_refl | constructor]].
  - destruct (stop_task_steady r w Hst) as (S1 & K1 & O1). cbv zeta in S1, K1, O1.
    destruct (Worker.stop_task r w) as [w1 o1]. cbn [fst snd] in S1, K1, O1.
    destruct (IH w1 S1) as (S2 & K2 & O2). cbv zeta in S2, K2, O2.
    destruct (Worker.run_stop_tasks rs w1) as [w2 o2]. cbn [fst snd] in *.
    split; [exact S2 | split; [exact (keeps_sessions_trans _ _ _ K1 K2) |]].
    apply Forall_app. split; [| exact O2].
    eapply Forall_impl; [exact O1 |]. intros o. apply sound_mono. exact K2.
Qed.

Lemma deliver_steady (w : Worker.State) (e : Worker.Event) :
  steady w ->
  let w' := fst (Worker.deliver w e) in
  steady w' /\ keeps_sessions w w' /\ Forall (sound w') (snd (Worker.deliver w e)).
Proof.
  intros Hst. cbv zeta. unfold Worker.deliver.
  destruct (handle_steady e w Hst) as (S1 & K1 & O1). cbv zeta in S1, K1, O1.
  destruct (Worker.handle e w) as [w1 o1]. cbn [fst snd] in S1, K1, O1.
  assert (H0 : steady (Worker.set_tasks [] w1) /\ keeps_sessions w1 (Worker.set_tasks [] w1)).
  { apply (steady_frame _ _ S1); destruct w1; fields;
      first [reflexivity | cbn; lia | left; reflexivity]. }
  destruct H0 as [S0 K0].
  destruct (run_stop_tasks_steady (Worker.tasks w1) _ S0) as (S2 & K2 & O2).
  cbv zeta in S2, K2, O2.
  destruct (Worker.run_stop_tasks (Worker.tasks w1) (Worker.set_tasks [] w1)) as [w2 o2].
  cbn [fst snd] in *.
  split; [exact S2 |].
  split; [exact (keeps_sessions_trans _ _ _ K1 (keeps_sessions_trans _ _ _ K0 K2)) |].
  apply Forall_app. split; [| exact O2].
  eapply Forall_impl; [exact O1 |]. intros o. apply sound_mono.
  exact (keeps_sessions_trans _ _ _ K0 K2).
Qed.

Lemma run_steady (es : list Worker.Event) (w : Worker.State) :
  steady w ->
  let w' := fst (Worker.run w es) in
  steady w' /\ keeps_sessions w w' /\ Forall (sound w') (snd (Worker.run w es)).
Proof.
  revert w. induction es as [| e es IH]; intros w Hst; cbv zeta; cbn [Worker.run].
  - cbn [fst snd]. split; [exact Hst | split; [apply keeps_sessions_refl | constructor]].
  - destruct (deliver_steady w e Hst) as (S1 & K1 & O1). cbv zeta in S1, K1, O1.
    destruct (Worker.deliver w e) as [w1 o1]. cbn [fst snd] in S1, K1, O1.
    destruct (IH w1 S1) as (S2 & K2 & O2). cbv zeta in S2, K2, O2.
    destruct (Worker.run w1 es) as [w2 o2]. cbn [fst snd] in *.
    split; [exact S2 | split; [exact (keeps_sessions_trans _ _ _ K1 K2) |]].
    apply Forall_app. split; [| exact O2].
    eapply Forall_impl; [exact O1 |]. intros o. apply sound_mono. exact K2.
Qed.

Lemma mounted_steady : steady Worker.mounted.
Proof.
  split; [| constructor]. intros sid s Hl. cbn in Hl. rewrite lookup_empty in Hl.
  discriminate.
Qed.

(** X23. In every run of the mounted worker, all the frames of a session
    are drawn with one geometry, that of one rectangle: the source crop is
    the rectangle scaled by its source scale and rounded, the destination
    the even-floored width and height of the rectangle. *)
Theorem a_session_draws_all_its_frames_with_one_geometry
    (es : list Worker.Event) (sid : positive) :
  exists rect, Forall (frame_of sid rect) (snd (Worker.run Worker.mounted es)).
Proof.
  destruct (run_steady es Worker.mounted mounted_steady) as (_ & _ & Hout).
  cbv zeta in Hout.
  set (w' := fst (Worker.run Worker.mounted es)) in *.
  destruct (Worker.sessions w' !! sid) as [s |] eqn:Hs.
  - exists (Worker.s_rect s). eapply Forall_impl; [exact Hout |].
    intros [| sid' sx sy sw sh dw dh |] [Hf _]; try exact Logic.I.
    destruct Hf as (s0 & Hs0 & Hg). intros E. subst sid'.
    rewrite Hs in Hs0. injection Hs0 as <-. exact (Hg eq_refl).
  - exists Worker.sample_rect. eapply Forall_impl; [exact Hout |].
    intros [| sid' sx sy sw sh dw dh |] [Hf _]; try exact Logic.I.
    destruct Hf as (s0 & Hs0 & _). intros E. subst sid'.
    rewrite Hs in Hs0. discriminate.
Qed.

(** X24. In every run of the mounted worker, a buffer handed over is
    made of non-empty chunks only; so its length is zero exactly when the
    list of blob parts is empty. *)
Theorem a_buffer_is_empty_only_when_no_chunk_was_kept
    (es : list Worker.Event) (r : positive) (parts : list Worker.Chunk) :
  In (Worker.RecordingFinished r parts) (snd (Worker.run Worker.mounted es)) ->
  all_nonempty parts
  /\ (length (Worker.buffer_of parts) = 0%nat <-> parts = []).
Proof.
  intros Hin.
  destruct (run_steady es Worker.mounted mounted_steady) as (_ & _ & Hout).
  cbv zeta in Hout. rewrite Forall_forall in Hout.
  destruct (Hout _ ltac:(apply list_elem_of_In; exact Hin)) as [_ Hne].
  cbn [finished_nonempty] in Hne. split; [exact Hne |]. split.
  - destruct parts as [| c parts]; [reflexivity |].
    apply Forall_cons in Hne as [Hc _]. unfold Worker.buffer_of. cbn [map concat].
    rewrite length_app. destruct (Worker.data c); [congruence | cbn; lia].
  - intros ->. reflexivity.
Qed.

Lemma a_buffer_is_empty_witness :
  all_nonempty [{| Worker.producer := 2; Worker.data := [Byte.x01] |}]
  /\ all_nonempty [].
Proof.
  split.
  - apply (a_buffer_is_empty_only_when_no_chunk_was_kept
             [Worker.StartRecording Worker.sample_rect (Worker.silent "/home/u/Desktop");
              Worker.SourcesAcquired 1 Worker.all_ok;
              Worker.Encoded 2 [Byte.x01];
              Worker.StopRecording] 2).
    vm_compute. repeat (first [left; reflexivity | right]).
  - apply (a_buffer_is_empty_only_when_no_chunk_was_kept
             [Worker.StartRecording Worker.sample_rect (Worker.silent "/home/u/Desktop");
              Worker.SourcesAcquired 1 Worker.all_ok;
              Worker.StopRecording] 2).
    vm_compute. repeat (first [left; reflexivity | right]).
Defined.

(** ** From the selection to the worker *)

(** X25. The rectangle the application shell sends for a selection
    always carries a truthy scale factor: the worker's source scale is the
    device pixel ratio, or 1 when that is 0, never 0.  The canvas is as
    wide and as high as the selection, less one pixel for an odd size. *)
Theorem a_selection_reaches_the_worker_with_a_usable_scale
    (rect : Selector.SelectionRect) (devicePixelRatio : Q) :
  0 <= Selector.width rect < 2 ^ 31 ->
  0 <= Selector.height rect < 2 ^ 31 ->
  let r := App.rectWithScale rect devicePixelRatio in
  let c := Worker.new_canvas r in
  Worker.truthy (Worker.scaleFactor r) = true
  /\ Worker.sourceScale r
     = (if Qeq_bool devicePixelRatio 0 then 1%Q else devicePixelRatio)
  /\ ~ (Worker.sourceScale r == 0)%Q
  /\ Worker.canvas_width c = 2 * (Selector.width rect / 2)
  /\ Worker.canvas_height c = 2 * (Selector.height rect / 2)
  /\ Selector.width rect - 1 <= Worker.canvas_width c <= Selector.width rect
  /\ Selector.height rect - 1 <= Worker.canvas_height c <= Selector.height rect
  /\ (Z.even (Selector.width rect) = true -> Worker.canvas_width c = Selector.width rect)
  /\ (Z.even (Selector.height rect) = true -> Worker.canvas_height c = Selector.height rect).
Proof.
  intros Hw Hh. cbv zeta.
  unfold App.rectWithScale, Worker.new_canvas, Worker.truthy, Worker.sourceScale.
  cbn [Worker.scaleFactor Worker.rect_width Worker.rect_height
       Worker.canvas_width Worker.canvas_height].
  rewrite !even_floor_spec by (rewrite Qfloor_Z; lia). rewrite !Qfloor_Z.
  assert (Hs : Qeq_bool (if Qeq_bool devicePixelRatio 0 then 1%Q else devicePixelRatio) 0
               = false).
  { destruct (Qeq_bool devicePixelRatio 0) eqn:E; [reflexivity | exact E]. }
  rewrite Hs.
  pose proof (Z.div_mod (Selector.width rect) 2 ltac:(lia)) as Dw.
  pose proof (Z.mod_pos_bound (Selector.width rect) 2 ltac:(lia)) as Mw.
  pose proof (Z.div_mod (Selector.height rect) 2 ltac:(lia)) as Dh.
  pose proof (Z.mod_pos_bound (Selector.height rect) 2 ltac:(lia)) as Mh.
  split; [reflexivity |]. split; [reflexivity |].
  split; [intros E; apply Qeq_bool_iff in E; congruence |].
  split; [reflexivity |]. split; [reflexivity |].
  split; [lia |]. split; [lia |].
  split; intros E; rewrite Z.even_spec in E; destruct E as [k ->];
    rewrite (Z.mul_comm 2 k), Z.div_mul by lia; lia.
Qed.

Lemma a_selection_reaches_the_worker_witness :
  Worker.new_canvas
    (App.rectWithScale {| Selector.x := 10; Selector.y := 20;
                          Selector.width := 101; Selector.height := 50 |} 0)
  = {| Worker.canvas_width := 100; Worker.canvas_height := 50 |}
  /\ Worker.sourceScale
       (App.rectWithScale {| Selector.x := 10; Selector.y := 20;
                             Selector.width := 101; Selector.height := 50 |} 0) = 1%Q.
Proof.
  destruct (a_selection_reaches_the_worker_with_a_usable_scale
              {| Selector.x := 10; Selector.y := 20;
                 Selector.width := 101; Selector.height := 50 |} 0
              ltac:(cbn; lia) ltac:(cbn; lia))
    as (_ & Hs & _ & Hw & Hh & _).
  cbv zeta in Hs, Hw, Hh. split; [| exact Hs].
  unfold Worker.new_canvas in *. cbn [Worker.canvas_width Worker.canvas_height] in Hw, Hh.
  rewrite Hw, Hh. reflexivity.
Defined.

(** ** The elapsed time shown *)

Lemma to_uint_nonnil (n : nat) : Nat.to_uint n <> Decimal.Nil.
Proof.
  rewrite <- (Unsigned.of_to n) at 1. rewrite Unsigned.to_of.
  unfold Decimal.unorm. destruct (Decimal.nzhead (Nat.to_uint n)); discriminate.
Qed.

Lemma parseNat_toString (n : nat) : Panel.parseNat (Panel.toString n) = Some n.
Proof.
  unfold Panel.parseNat, Panel.toString.
  rewrite (NilZero.usu _ (to_uint_nonnil n)). cbn [option_map].
  rewrite Unsigned.of_to. reflexivity.
Qed.

Lemma parseNat_padStart2 (s : string) (n : nat) :
  Panel.parseNat s = Some n -> Panel.parseNat (Panel.padStart2 s) = Some n.
Proof.
  destruct s as [| c [| c' s]]; cbn [Panel.padStart2]; try (intros H; exact H).
  - discriminate.
  - unfold Panel.parseNat, NilZero.uint_of_string.
    cbn [NilEmpty.uint_of_string].
    destruct (uint_of_char c (Some Decimal.Nil)) as [d |]; [| discriminate].
    cbn. intros [= <-]. reflexivity.
Qed.

Lemma padStart2_length (s : string) : (2 <= String.length (Panel.padStart2 s))%nat.
Proof. destruct s as [| c [| c' s]]; cbn; lia. Qed.

Lemma two_digits (n : nat) :
  (n < 100)%nat -> String.length (Panel.padStart2 (Panel.toString n)) = 2%nat.
Proof.
  intros Hn.
  assert (H : forallb (fun k => Nat.eqb (String.length (Panel.padStart2 (Panel.toString k))) 2)
                (seq 0 100) = true) by (vm_compute; reflexivity).
  rewrite forallb_forall in H. apply Nat.eqb_eq. apply H. apply in_seq. lia.
Qed.

(** X26. The elapsed time is shown as minutes, a colon, seconds: the
    text before the colon reads as [seconds / 60] and the text after it as
    [seconds mod 60], both in decimal; the seconds take exactly two digits,
    the minutes at least two, and exactly two below 100 minutes. *)
Theorem formatTime_shows_minutes_and_seconds (seconds : nat) :
  exists mm ss,
    Panel.formatTime seconds = String.append mm (String ":" ss)
    /\ Panel.parseNat mm = Some (seconds / 60)%nat
    /\ Panel.parseNat ss = Some (seconds mod 60)%nat
    /\ String.length ss = 2%nat
    /\ (2 <= String.length mm)%nat
    /\ ((seconds / 60 < 100)%nat -> String.length mm = 2%nat).
Proof.
  exists (Panel.padStart2 (Panel.toString (seconds / 60))),
         (Panel.padStart2 (Panel.toString (seconds mod 60))).
  split; [reflexivity |].
  split; [apply parseNat_padStart2, parseNat_toString |].
  split; [apply parseNat_padStart2, parseNat_toString |].
  assert (Hs : (seconds mod 60 < 60)%nat) by (apply Nat.mod_upper_bound; lia).
  split; [apply two_digits; lia |].
  split; [apply padStart2_length |].
  apply two_digits.
Qed.

(** ** Tear-down and isolation of sessions *)

(** X27. On 'start-recording', whatever the state left by the session
    before, the worker, before it asks for any new source: stops the
    previous recorder if it is not inactive (its stop task is queued), stops
    every track of the previous stream and drops the stream, cancels the
    previous tick timer, and empties the chunk buffer; nothing is acquired
    in that step, the request for the screen source is pending. *)
Theorem start_tears_down_the_previous_session
    (w : Worker.State) (rect : Worker.Rect) (settings : AppSettings) :
  let w1 := fst (Worker.handleStart_begin rect settings w) in
  (forall r, Worker.recorder_active w = Some r ->
             Worker.recorder_state r w1 = Some Worker.inactive
             /\ In r (Worker.tasks w1))
  /\ (forall tracks t, Worker.streamRef w = Some tracks -> t ∈ tracks ->
                       t ∉ Worker.liveTracks w1)
  /\ Worker.streamRef w1 = None
  /\ (forall t, Worker.animationFrameRef w = Some t -> Worker.timers w1 !! t = None)
  /\ Worker.animationFrameRef w1 = None
  /\ Worker.chunksRef w1 = []
  /\ Worker.sessions w1 = Worker.sessions w
  /\ Worker.liveTracks w1 ⊆ Worker.liveTracks w
  /\ Worker.pendingStarts w1 !! Worker.nextId w = Some (rect, settings).
Proof.
  intros w1.
  destruct w as [mr0 sr0 cv0 vd0 af0 ch0 rs0 ss0 lt0 tm0 oa0 tk0 ps0 aw0 nx0].
  set (w := Worker.Build_State mr0 sr0 cv0 vd0 af0 ch0 rs0 ss0 lt0 tm0 oa0 tk0 ps0 aw0 nx0)
    in *.
  assert (E : w1 = let w0 := fst (Worker.cleanup w) in
                   Worker.set_pendingStarts
                     (<[Worker.nextId w0 := (rect, settings)]> (Worker.pendingStarts w0))
                     (Worker.set_nextId (Worker.nextId w0 + 1)%positive w0)).
  { subst w1. unfold Worker.handleStart_begin. destruct (Worker.cleanup w). reflexivity. }
  pose proof (cleanup_fields w)
    as (Hc & Hs & Ha & Hm & Hw & Hn & Hss & Hp & Hl & Ht & Hr & Hk).
  cbv zeta in E, Hc, Hs, Ha, Hm, Hw, Hn, Hss, Hp, Hl, Ht, Hr, Hk.
  destruct (fst (Worker.cleanup w)) as [mr sr cv vd af ch rs ss lt tm oa tk ps aw nx].
  revert E Hc Hs Ha Hm Hw Hn Hss Hp Hl Ht Hr Hk. subst w. fields.
  intros -> -> -> -> -> -> -> -> -> -> -> -> ->.
  split; [| split; [| split; [| split; [| split; [| split; [| split; [| split]]]]]]];
    try reflexivity.
  - intros r Hact. rewrite Hact. apply recorder_active_ref in Hact as (_ & rc & Hrc & _).
    cbn [Worker.recorders] in Hrc. split.
    + unfold Worker.recorder_state. fields. rewrite lookup_alter_eq, Hrc. reflexivity.
    + apply in_or_app. right. left. reflexivity.
  - intros tracks t -> Hin. rewrite elem_of_difference, elem_of_list_to_set. tauto.
  - intros t ->. apply lookup_delete_eq.
  - apply subseteq_difference_l. reflexivity.
  - apply lookup_insert_eq.
Qed.

(** A start arriving while the first session records. *)
Lemma start_tears_down_witness :
  Worker.chunksRef
    (fst (Worker.handleStart_begin Worker.sample_rect
            (Worker.silent "/home/u/Desktop") Worker.first_session)) = [].
Proof.
  apply (start_tears_down_the_previous_session
           Worker.first_session Worker.sample_rect (Worker.silent "/home/u/Desktop")).
Defined.

(** X28. In every run of the mounted worker, whatever the order of the
    tasks, in which no continuation of a start runs while a stop task is
    queued, a buffer handed over by a recorder holds no chunk produced by a
    recorder created before it. *)
Theorem buffers_are_isolated_when_stop_tasks_run_before_later_starts
    (ts : list Worker.Task) :
  Worker.stops_run_before_starts Worker.mounted ts ->
  forall r parts c,
    In (Worker.RecordingFinished r parts) (snd (Worker.schedule Worker.mounted ts)) ->
    In c parts ->
    ~ (Worker.producer c < r)%positive.
Proof.
  intros Hs r parts c Hfin Hin Hlt.
  pose proof (schedule_ok ts Worker.mounted mounted_inv
                (no_tasks_of_ref Worker.mounted eq_refl) Hs) as Hall.
  rewrite Forall_forall in Hall.
  specialize (Hall _ ltac:(apply list_elem_of_In; exact Hfin)). cbn in Hall.
  rewrite Forall_forall in Hall.
  specialize (Hall _ ltac:(apply list_elem_of_In; exact Hin)). lia.
Qed.

(** A second start while the first session records, the stop task of the
    first recorder running before the second start goes on: each buffer
    holds the data of its own recorder. *)
Lemma buffers_are_isolated_witness :
  omap Worker.finished
    (snd (Worker.schedule Worker.mounted Worker.second_start_in_order))
  = [(2%positive, [{| Worker.producer := 2; Worker.data := [Byte.x01] |}]);
     (12%positive, [{| Worker.producer := 12; Worker.data := [Byte.x02] |}])]
  /\ ~ (Worker.producer {| Worker.producer := 12; Worker.data := [Byte.x02] |}
        < 12)%positive.
Proof.
  split; [vm_compute; reflexivity |].
  apply (buffers_are_isolated_when_stop_tasks_run_before_later_starts
           Worker.second_start_in_order
           ltac:(vm_compute; tauto)
           12%positive
           [{| Worker.producer := 12; Worker.data := [Byte.x02] |}]);
    [ vm_compute; tauto | left; reflexivity ].
Defined.
